(** * Glider flight simulation core: physics step, lift curve, thermals

    A shallow embedding of
    - [physics/constants.ts],
    - [physics/FlightPhysics.ts] (angle of attack, lift coefficient,
      control response, [updatePhysics], [getTelemetry]),
    - the thermal system ([createThermal], [updateThermalSystem]).

    A JavaScript [number] is modelled by a real number of [R]: the arithmetic
    below is the exact arithmetic that the IEEE doubles of the program
    approximate.  [Math.random] is modelled by a sequence of draws that the
    code consumes through a cursor. *)

From Stdlib Require Import Reals Machin RNsatz Lra Lia List Bool String Arith.
Import ListNotations.

Open Scope R_scope.

(** ** The [Math] object *)

Module Math.

Definition PI : R := Rtrigo1.PI.
Definition abs (a : R) : R := Rabs a.
Definition min (a b : R) : R := Rmin a b.
Definition max (a b : R) : R := Rmax a b.
Definition sqrt (a : R) : R := R_sqrt.sqrt a.
Definition sin (a : R) : R := Rtrigo_def.sin a.
Definition cos (a : R) : R := Rtrigo_def.cos a.

(** [Math.sign]: 1, -1 or 0. *)
Definition sign (a : R) : R :=
  if Rlt_dec 0 a then 1 else if Rlt_dec a 0 then -1 else 0.

(** [Math.atan2 (b, a)]: the angle of the point (a, b).  The reals have no
    negative zero.  On the negative horizontal axis ([b] zero, [a] negative)
    JavaScript answers PI for [b] = +0 and -PI for [b] = -0, and the
    definition takes PI; where both arguments are zero JavaScript answers a
    zero or PI of either sign, and the definition takes 0.  The range proved
    below is therefore the closed [-PI, PI], which holds of both answers. *)
Definition atan2 (b a : R) : R :=
  if Rlt_dec 0 a then atan (b / a)
  else if Rlt_dec a 0 then
         (if Rle_dec 0 b then atan (b / a) + PI else atan (b / a) - PI)
  else if Rlt_dec 0 b then PI / 2
  else if Rlt_dec b 0 then - (PI / 2)
  else 0.

(** [Math.asin].  Outside [-1, 1] JavaScript answers NaN, while [Ratan.asin]
    is defined everywhere: what is proved of an arc sine below is proved
    under the condition that its argument lies in [-1, 1]. *)
Definition asin (a : R) : R := Ratan.asin a.

(** The remainder [a % b] of JavaScript: the quotient is truncated
    toward zero, so the result has the sign of [a]. *)
Definition rem (a b : R) : R :=
  let q := a / b in
  let n := if Rle_dec 0 q then Int_part q else (- Int_part (- q))%Z in
  a - b * IZR n.

(** [Math.floor] and [Math.round] (the floor of [a + 0.5]), as integers. *)
Definition floor (a : R) : Z := Int_part a.
Definition round (a : R) : Z := Int_part (a + 0.5).

(** [Math.exp] and [Math.pow] with a natural exponent. *)
Definition exp (a : R) : R := Rtrigo_def.exp a.
Definition pow (a : R) (n : nat) : R := a ^ n.

End Math.

(** ** The parts of three.js that the simulation uses

    three.js is a dependency of the program, not part of it; its vectors and
    quaternions are mutable objects and the program clones before it
    mutates, so every operation is a function here. *)

Module Vector2.

Record t : Type := mk { x : R; y : R }.

Definition distanceTo (a b : t) : R :=
  let dx := x a - x b in
  let dy := y a - y b in
  Math.sqrt (dx * dx + dy * dy).

Definition sub (a b : t) : t := mk (x a - x b) (y a - y b).
Definition length (a : t) : R := Math.sqrt (x a * x a + y a * y a).

(** [a.normalize()] is [a.divideScalar(a.length() || 1)]. *)
Definition normalize (a : t) : t :=
  let l := length a in
  let s := 1 / (if Req_dec_T l 0 then 1 else l) in
  mk (x a * s) (y a * s).

End Vector2.

Module Quaternion.

Record t : Type := mk { x : R; y : R; z : R; w : R }.

(** [new THREE.Quaternion()] *)
Definition identity : t := mk 0 0 0 1.

Definition length (q : t) : R :=
  Math.sqrt (x q * x q + y q * y q + z q * z q + w q * w q).

(** [a.multiply(b)]: the Hamilton product a * b. *)
Definition multiply (a b : t) : t :=
  mk (x a * w b + w a * x b + y a * z b - z a * y b)
     (y a * w b + w a * y b + z a * x b - x a * z b)
     (z a * w b + w a * z b + x a * y b - y a * x b)
     (w a * w b - x a * x b - y a * y b - z a * z b).

(** [q.normalize()]: a zero quaternion becomes the identity. *)
Definition normalize (q : t) : t :=
  let l := length q in
  if Req_dec_T l 0 then mk 0 0 0 1
  else let s := 1 / l in mk (x q * s) (y q * s) (z q * s) (w q * s).

End Quaternion.

Module Vector3.

Record t : Type := mk { x : R; y : R; z : R }.

(** [new THREE.Vector3()] *)
Definition zero : t := mk 0 0 0.

Definition add (a b : t) : t := mk (x a + x b) (y a + y b) (z a + z b).
Definition sub (a b : t) : t := mk (x a - x b) (y a - y b) (z a - z b).
Definition multiplyScalar (a : t) (s : R) : t := mk (x a * s) (y a * s) (z a * s).
Definition divideScalar (a : t) (s : R) : t := multiplyScalar a (1 / s).
Definition negate (a : t) : t := mk (- x a) (- y a) (- z a).
Definition dot (a b : t) : R := x a * x b + y a * y b + z a * z b.
Definition cross (a b : t) : t :=
  mk (y a * z b - z a * y b) (z a * x b - x a * z b) (x a * y b - y a * x b).
Definition length (a : t) : R := Math.sqrt (x a * x a + y a * y a + z a * z a).

(** [a.normalize()] is [a.divideScalar(a.length() || 1)]. *)
Definition normalize (a : t) : t :=
  let l := length a in
  divideScalar a (if Req_dec_T l 0 then 1 else l).

(** [v.applyQuaternion(q)]: v + q.w * t + cross(q.xyz, t) where
    t = 2 * cross(q.xyz, v). *)
Definition applyQuaternion (v : t) (q : Quaternion.t) : t :=
  let qx := Quaternion.x q in
  let qy := Quaternion.y q in
  let qz := Quaternion.z q in
  let qw := Quaternion.w q in
  let tx := 2 * (qy * z v - qz * y v) in
  let ty := 2 * (qz * x v - qx * z v) in
  let tz := 2 * (qx * y v - qy * x v) in
  mk (x v + qw * tx + qy * tz - qz * ty)
     (y v + qw * ty + qz * tx - qx * tz)
     (z v + qw * tz + qx * ty - qy * tx).

(** [y] and the like set on a clone. *)
Definition set_x (a : t) (v : R) : t := mk v (y a) (z a).
Definition set_y (a : t) (v : R) : t := mk (x a) v (z a).
Definition set_z (a : t) (v : R) : t := mk (x a) (y a) v.

End Vector3.

(** [new THREE.Quaternion().setFromAxisAngle(axis, angle)] *)
Definition setFromAxisAngle (axis : Vector3.t) (angle : R) : Quaternion.t :=
  let halfAngle := angle / 2 in
  let s := Math.sin halfAngle in
  Quaternion.mk (Vector3.x axis * s) (Vector3.y axis * s) (Vector3.z axis * s)
                (Math.cos halfAngle).

(** ** constants.ts *)

Definition RHO : R := 1.225.
Definition GRAVITY : R := 9.81.
Definition MASS : R := 420.
Definition WING_AREA_S : R := 16.0.

Definition ALPHA_0 : R := -2 * (Math.PI / 180).
Definition CL_ALPHA : R := 5.5.
Definition CL_MAX : R := 1.2.
Definition CL_MAX_NEG : R := 0.9.
Definition STALL_ALPHA_POS : R := 12 * (Math.PI / 180).
Definition STALL_ALPHA_NEG : R := -10 * (Math.PI / 180).

Definition CD_0 : R := 0.018.
Definition K_DRAG : R := 0.045.

Definition SIDE_DRAG_FACTOR : R := 2.5.
Definition ROLL_DAMP : R := 0.15.
Definition PITCH_DAMP : R := 0.12.
Definition YAW_DAMP : R := 0.25.
Definition WEATHERVANE_STRENGTH : R := 0.3.

Definition MAX_ROLL_RATE : R := 70 * (Math.PI / 180).
Definition MAX_PITCH_RATE : R := 35 * (Math.PI / 180).
Definition MAX_YAW_RATE : R := 25 * (Math.PI / 180).
Definition RUDDER_COORDINATION : R := 0.

Definition THERMAL_COUNT : nat := 20.
Definition THERMAL_CORE_RADIUS : R := 350.
Definition THERMAL_OUTER_RADIUS : R := 600.
Definition THERMAL_W_MAX : R := 20.
Definition THERMAL_W_MIN : R := 10.
Definition WIND_SPEED : R := 6.
Definition WIND_DIRECTION : R := Math.PI / 4.
Definition THERMAL_DRIFT_FACTOR : R := 0.7.
Definition THERMAL_SINK_PEAK_RADIUS : R := 250.
Definition THERMAL_SINK_WIDTH : R := 120.
Definition CLOUD_BASE : R := 1200.
Definition THERMAL_TURBULENCE_AMPLITUDE : R := 0.3.
Definition WORLD_SIZE : R := 10000.

(** ** FlightPhysics.ts: state, axes, angle of attack, lift curve *)

Record GliderState : Type := mkGliderState {
  position : Vector3.t;
  velocity : Vector3.t;
  quaternion : Quaternion.t;
  angularVelocity : Vector3.t
}.

Record ControlInput : Type := mkControlInput {
  pitch : R;
  roll : R;
  yaw : R
}.

Record WindField : Type := mkWindField {
  horizontal : Vector3.t;
  vertical : R
}.

Definition getForwardVector (q : Quaternion.t) : Vector3.t :=
  Vector3.applyQuaternion (Vector3.mk 0 0 1) q.

Definition getUpVector (q : Quaternion.t) : Vector3.t :=
  Vector3.applyQuaternion (Vector3.mk 0 1 0) q.

Definition getRightVector (q : Quaternion.t) : Vector3.t :=
  Vector3.applyQuaternion (Vector3.mk 1 0 0) q.

Definition calculateAngleOfAttack (velocity : Vector3.t) (q : Quaternion.t) : R :=
  let forward := getForwardVector q in
  let up := getUpVector q in
  let airspeed := Vector3.length velocity in
  if Rlt_dec airspeed 0.1 then 0
  else
    let velocityNorm := Vector3.normalize velocity in
    let forwardComponent := Vector3.dot velocityNorm forward in
    let upComponent := Vector3.dot velocityNorm up in
    Math.atan2 (- upComponent) forwardComponent.

(** The three branches of [calculateCL], named. *)

Definition postStallFactor (stallExcess : R) : R :=
  Math.max 0.5 (1 - stallExcess * 3).

Definition clPositiveStall (alpha : R) : R :=
  let stallExcess := alpha - STALL_ALPHA_POS in
  CL_MAX * postStallFactor stallExcess.

Definition clNegativeStall (alpha : R) : R :=
  let stallExcess := STALL_ALPHA_NEG - alpha in
  - CL_MAX_NEG * postStallFactor stallExcess.

Definition clLinear (alpha : R) : R :=
  let cl := CL_ALPHA * (alpha - ALPHA_0) in
  Math.max (- CL_MAX_NEG) (Math.min CL_MAX cl).

Definition calculateCL (alpha : R) : R :=
  if Rgt_dec alpha STALL_ALPHA_POS then clPositiveStall alpha
  else if Rlt_dec alpha STALL_ALPHA_NEG then clNegativeStall alpha
  else clLinear alpha.

Definition calculateCD (cl : R) : R := CD_0 + K_DRAG * cl * cl.

Record AeroForces : Type := mkAeroForces {
  lift : Vector3.t;
  drag : Vector3.t;
  sideForce : Vector3.t
}.

(** [windField.horizontal.clone()] with [y += windField.vertical]. *)
Definition fullWind (windField : WindField) : Vector3.t :=
  let windVector := horizontal windField in
  Vector3.set_y windVector (Vector3.y windVector + vertical windField).

Definition calculateAeroForces
    (velocity : Vector3.t) (q : Quaternion.t) (windField : WindField) : AeroForces :=
  let windVector := fullWind windField in
  let airVelocity := Vector3.sub velocity windVector in
  let airspeed := Vector3.length airVelocity in
  if Rlt_dec airspeed 0.5 then
    mkAeroForces Vector3.zero Vector3.zero Vector3.zero
  else
    let qdyn := 0.5 * RHO * airspeed * airspeed in
    let alpha := calculateAngleOfAttack airVelocity q in
    let cl := calculateCL alpha in
    let cd := calculateCD cl in
    let liftMag := qdyn * WING_AREA_S * cl in
    let dragMag := qdyn * WING_AREA_S * cd in
    let airVelocityNorm := Vector3.normalize airVelocity in
    let liftDir :=
      Vector3.normalize (Vector3.cross airVelocityNorm (getRightVector q)) in
    let dragDir := Vector3.negate airVelocityNorm in
    let right := getRightVector q in
    let sideComponent := Vector3.dot airVelocity right in
    let sideForceMag :=
      qdyn * WING_AREA_S * Math.abs sideComponent * 0.1 * SIDE_DRAG_FACTOR in
    let sideForceDir := Vector3.multiplyScalar right (- Math.sign sideComponent) in
    mkAeroForces (Vector3.multiplyScalar liftDir liftMag)
                 (Vector3.multiplyScalar dragDir dragMag)
                 (Vector3.multiplyScalar sideForceDir sideForceMag).

(** ** Control response *)

Definition applyControlInputs
    (angularVelocity : Vector3.t) (controls : ControlInput) (deltaTime : R) : Vector3.t :=
  let targetRollRate := roll controls * MAX_ROLL_RATE in
  let targetPitchRate := - pitch controls * MAX_PITCH_RATE in
  let autoYaw := roll controls * MAX_YAW_RATE * RUDDER_COORDINATION in
  let manualYaw := - yaw controls * MAX_YAW_RATE in
  let targetYawRate := manualYaw + autoYaw in
  let rollResponse := 5.0 in
  let pitchResponse := 4.0 in
  let yawResponse := 4.0 in
  let wx := Vector3.x angularVelocity in
  let wy := Vector3.y angularVelocity in
  let wz := Vector3.z angularVelocity in
  Vector3.mk (wx + (targetPitchRate - wx) * pitchResponse * deltaTime)
             (wy + (targetYawRate - wy) * yawResponse * deltaTime)
             (wz + (targetRollRate - wz) * rollResponse * deltaTime).

Definition applyDamping (angularVelocity : Vector3.t) (deltaTime : R) : Vector3.t :=
  Vector3.mk (Vector3.x angularVelocity * (1 - PITCH_DAMP * deltaTime * 10))
             (Vector3.y angularVelocity * (1 - YAW_DAMP * deltaTime * 10))
             (Vector3.z angularVelocity * (1 - ROLL_DAMP * deltaTime * 10)).

Definition applyWeathervane
    (angularVelocity velocity : Vector3.t) (q : Quaternion.t) (deltaTime : R) : Vector3.t :=
  let airspeed := Vector3.length velocity in
  if Rlt_dec airspeed 5 then angularVelocity
  else
    let velocityNorm := Vector3.normalize velocity in
    let right := getRightVector q in
    let sideslip := Vector3.dot velocityNorm right in
    if Rlt_dec (Math.abs sideslip) 0.01 then angularVelocity
    else
      let speedFactor := Math.min 1 (airspeed / 30) in
      let targetYawRate := - sideslip * WEATHERVANE_STRENGTH * speedFactor in
      Vector3.set_y angularVelocity
        (Vector3.y angularVelocity
         + (targetYawRate - Vector3.y angularVelocity) * deltaTime * 3).

(** ** The physics step, stage by stage *)

(** [newVelocity] of [updatePhysics], before ground contact. *)
Definition integrateVelocity (state : GliderState) (windField : WindField) (dt : R)
  : Vector3.t :=
  let gravity := Vector3.mk 0 (- GRAVITY * MASS) 0 in
  let aeroForces := calculateAeroForces (velocity state) (quaternion state) windField in
  let totalForce :=
    Vector3.add (Vector3.add (Vector3.add (Vector3.add Vector3.zero gravity)
                                          (lift aeroForces))
                             (drag aeroForces))
                (sideForce aeroForces) in
  let acceleration := Vector3.divideScalar totalForce MASS in
  Vector3.add (velocity state) (Vector3.multiplyScalar acceleration dt).

(** [newPosition] of [updatePhysics], before ground contact. *)
Definition integratePosition (state : GliderState) (newVelocity : Vector3.t) (dt : R)
  : Vector3.t :=
  Vector3.add (position state) (Vector3.multiplyScalar newVelocity dt).

(** The angle of attack that the two pitch corrections of [updatePhysics]
    read: [calculateAngleOfAttack(state.velocity - fullWindVector,
    state.quaternion)]. *)
Definition correctionAlpha (state : GliderState) (windField : WindField) : R :=
  let fullWindVector := fullWind windField in
  let airVelocity := Vector3.sub (velocity state) fullWindVector in
  calculateAngleOfAttack airVelocity (quaternion state).

(** Pitch stability. *)
Definition pitchStability
    (alpha : R) (controls : ControlInput) (dt : R) (newAngularVel : Vector3.t)
  : Vector3.t :=
  let targetAlpha := 4 * (Math.PI / 180) in
  let alphaError := alpha - targetAlpha in
  if Rgt_dec (Math.abs alphaError) (2 * (Math.PI / 180)) then
    if Rlt_dec (Math.abs (pitch controls)) 0.3 then
      let stabilityCorrection := alphaError * 0.5 in
      Vector3.set_x newAngularVel
        (Vector3.x newAngularVel + stabilityCorrection * dt * 3)
    else newAngularVel
  else newAngularVel.

(** Stall nose-drop. *)
Definition stallNoseDrop (alpha dt : R) (newAngularVel : Vector3.t) : Vector3.t :=
  if Rgt_dec alpha STALL_ALPHA_POS then
    let stallSeverity := (alpha - STALL_ALPHA_POS) / (Math.PI / 18) in
    let noseDropRate := 1.5 * Math.min 1 stallSeverity in
    Vector3.set_x newAngularVel (Vector3.x newAngularVel + noseDropRate * dt * 5)
  else if Rlt_dec alpha STALL_ALPHA_NEG then
    let stallSeverity := (STALL_ALPHA_NEG - alpha) / (Math.PI / 18) in
    let noseUpRate := -1.5 * Math.min 1 stallSeverity in
    Vector3.set_x newAngularVel (Vector3.x newAngularVel + noseUpRate * dt * 5)
  else newAngularVel.

(** Orientation update. *)
Definition updateOrientation (q : Quaternion.t) (newAngularVel : Vector3.t) (dt : R)
  : Quaternion.t :=
  if Rgt_dec (Vector3.length newAngularVel) 0.0001 then
    let localAngular := newAngularVel in
    let pitchQ := setFromAxisAngle (Vector3.mk 1 0 0) (Vector3.x localAngular * dt) in
    let yawQ := setFromAxisAngle (Vector3.mk 0 1 0) (Vector3.y localAngular * dt) in
    let rollQ := setFromAxisAngle (Vector3.mk 0 0 1) (Vector3.z localAngular * dt) in
    Quaternion.normalize
      (Quaternion.multiply (Quaternion.multiply (Quaternion.multiply q pitchQ) yawQ)
                           rollQ)
  else q.

(** Ground collision: the pair (newPosition, newVelocity) after the clamp. *)
Definition groundCollision (newPosition newVelocity : Vector3.t)
  : Vector3.t * Vector3.t :=
  if Rlt_dec (Vector3.y newPosition) 5 then
    let newPosition := Vector3.set_y newPosition 5 in
    if Rlt_dec (Vector3.y newVelocity) 0 then
      (newPosition,
       Vector3.mk (Vector3.x newVelocity * 0.98) 0 (Vector3.z newVelocity * 0.98))
    else (newPosition, newVelocity)
  else (newPosition, newVelocity).

(** The angular velocity of [updatePhysics] after controls, damping and
    weathervane, before the two pitch corrections. *)
Definition respondedAngularVel
    (state : GliderState) (controls : ControlInput) (newVelocity : Vector3.t) (dt : R)
  : Vector3.t :=
  let newAngularVel := applyControlInputs (angularVelocity state) controls dt in
  let newAngularVel := applyDamping newAngularVel dt in
  applyWeathervane newAngularVel newVelocity (quaternion state) dt.

Definition updatePhysics
    (state : GliderState) (controls : ControlInput) (windField : WindField)
    (deltaTime : R) : GliderState :=
  let dt := Math.min deltaTime 0.05 in
  let newVelocity := integrateVelocity state windField dt in
  let newPosition := integratePosition state newVelocity dt in
  let newAngularVel := respondedAngularVel state controls newVelocity dt in
  let alpha := correctionAlpha state windField in
  let newAngularVel := pitchStability alpha controls dt newAngularVel in
  let newAngularVel := stallNoseDrop alpha dt newAngularVel in
  let newQuaternion := updateOrientation (quaternion state) newAngularVel dt in
  let (newPosition, newVelocity) := groundCollision newPosition newVelocity in
  mkGliderState newPosition newVelocity newQuaternion newAngularVel.

(** ** Telemetry *)

Record Telemetry : Type := mkTelemetry {
  airspeed : R;
  groundSpeed : R;
  altitude : R;
  verticalSpeed : R;
  heading : R;
  bankAngle : R;
  pitchAngle : R;
  angleOfAttack : R;
  isStalling : bool
}.

(** [alpha > STALL_ALPHA_POS || alpha < STALL_ALPHA_NEG] *)
Definition beyondStall (alpha : R) : bool :=
  if Rgt_dec alpha STALL_ALPHA_POS then true
  else if Rlt_dec alpha STALL_ALPHA_NEG then true
  else false.

Definition getTelemetry (state : GliderState) (windField : WindField) : Telemetry :=
  let windVector := fullWind windField in
  let airVelocity := Vector3.sub (velocity state) windVector in
  let airspeed := Vector3.length airVelocity in
  let forward := getForwardVector (quaternion state) in
  let right := getRightVector (quaternion state) in
  let heading :=
    Math.atan2 (Vector3.x forward) (Vector3.z forward) * (180 / Math.PI) in
  let bankAngle := Math.asin (Vector3.y right) * (180 / Math.PI) in
  let pitchAngle := Math.asin (Vector3.y forward) * (180 / Math.PI) in
  let alpha := calculateAngleOfAttack airVelocity (quaternion state) in
  let isStalling := beyondStall alpha in
  mkTelemetry
    airspeed
    (Math.sqrt (Vector3.x (velocity state) * Vector3.x (velocity state)
                + Vector3.z (velocity state) * Vector3.z (velocity state)))
    (Vector3.y (position state))
    (Vector3.y (velocity state))
    (Math.rem (heading + 360) 360)
    bankAngle
    pitchAngle
    (alpha * (180 / Math.PI))
    isStalling.

(** The angle of attack as the specification words the pitch stability: taken
    from the velocity after integration, [newVelocity - fullWindVector], and
    the current orientation.  [correctionAlpha] is what the source computes. *)
Definition updatedAlpha (state : GliderState) (windField : WindField) (dt : R) : R :=
  let fullWindVector := fullWind windField in
  let airVelocity :=
    Vector3.sub (integrateVelocity state windField dt) fullWindVector in
  calculateAngleOfAttack airVelocity (quaternion state).

(** A run of the physics step: the states returned by the successive calls,
    one per (controls, wind sample, deltaTime). *)
Fixpoint physicsRun (state : GliderState)
    (inputs : list (ControlInput * WindField * R)) : list GliderState :=
  match inputs with
  | [] => []
  | (controls, windField, deltaTime) :: inputs' =>
      let state' := updatePhysics state controls windField deltaTime in
      state' :: physicsRun state' inputs'
  end.

(** Fixtures: still air, centred controls, and a level glider (identity
    orientation, no rotation) at a given position and velocity. *)
Definition stillAir : WindField := mkWindField Vector3.zero 0.
Definition centred : ControlInput := mkControlInput 0 0 0.
Definition levelGlider (p v : Vector3.t) : GliderState :=
  mkGliderState p v Quaternion.identity Vector3.zero.

(** A level glider at rest at 500 m. *)
Definition atRest : GliderState := levelGlider (Vector3.mk 0 500 0) Vector3.zero.

(** A level glider in still air that meets the air at unit speed under the
    angle [a]. *)
Definition gliderAtAlpha (a : R) : GliderState :=
  levelGlider (Vector3.mk 0 500 0) (Vector3.mk 0 (- Math.sin a) (Math.cos a)).

(** A unit orientation with the nose raised by about 6.7 degrees: the
    rotation about the right axis whose half angle has sine 68/1157 and cosine
    1155/1157.  [lowPass] is a glider that passes at 3 m with this
    orientation, flying at 65 m/s and descending at 5 m/s. *)
Definition noseUp : Quaternion.t := Quaternion.mk (-68 / 1157) 0 0 (1155 / 1157).
Definition lowPass : GliderState :=
  mkGliderState (Vector3.mk 0 3 0) (Vector3.mk 0 (-5) 65) noseUp Vector3.zero.

(** ** The thermal system *)

Record Thermal : Type := mkThermal {
  id : string;
  center : Vector2.t;
  radius : R;
  strength : R;
  age : R;
  lifetime : R
}.

Record ThermalSystemState : Type := mkThermalSystemState {
  thermals : list Thermal;
  wind : Vector3.t;
  time : R
}.

(** Code that calls [Math.random] threads the number of draws made so far. *)
Definition Rand (A : Type) : Type := nat -> A * nat.

Definition ret {A : Type} (a : A) : Rand A := fun n => (a, n).

Definition bind {A B : Type} (c : Rand A) (k : A -> Rand B) : Rand B :=
  fun n => let (a, n') := c n in k a n'.

Notation "x <- c ;; k" := (bind c (fun x => k))
  (at level 61, c at next level, right associativity).

(** The horizontal wrap of [updateThermalSystem], for one coordinate: the two
    [if]s run one after the other. *)
Definition wrapCoordinate (c : R) : R :=
  let halfWorld := WORLD_SIZE / 2 in
  let c := if Rgt_dec c halfWorld then c - WORLD_SIZE else c in
  if Rlt_dec c (- halfWorld) then c + WORLD_SIZE else c.

(** The body of the [for] loop of [updateThermalSystem]: [None] is the
    [continue] of a thermal that dies. *)
Definition ageAndDrift (driftX driftZ deltaTime : R) (thermal : Thermal)
  : option Thermal :=
  let newAge := age thermal + deltaTime in
  if Rgt_dec newAge (lifetime thermal) then None
  else
    let newCenter :=
      Vector2.mk (wrapCoordinate (Vector2.x (center thermal) + driftX))
                 (wrapCoordinate (Vector2.y (center thermal) + driftZ)) in
    Some (mkThermal (id thermal) newCenter (radius thermal) (strength thermal)
                    newAge (lifetime thermal)).

(** The [for] loop: the survivors, in order. *)
Fixpoint survivors (driftX driftZ deltaTime : R) (ts : list Thermal) : list Thermal :=
  match ts with
  | [] => []
  | thermal :: rest =>
      match ageAndDrift driftX driftZ deltaTime thermal with
      | None => survivors driftX driftZ deltaTime rest
      | Some thermal' => thermal' :: survivors driftX driftZ deltaTime rest
      end
  end.

Section ThermalSystem.

(** [random n] is the value of the n-th call of [Math.random];
    [toString36 r] is [r.toString(36).substring(7)]. *)
Variable random : nat -> R.
Variable toString36 : R -> string.

Definition mathRandom : Rand R := fun n => (random n, S n).

(** [existingThermals.some(t => t.center.distanceTo(center) < THERMAL_OUTER_RADIUS * 2)] *)
Definition tooClose (existingThermals : list Thermal) (c : Vector2.t) : bool :=
  existsb (fun t => if Rlt_dec (Vector2.distanceTo (center t) c)
                               (THERMAL_OUTER_RADIUS * 2)
                    then true else false)
          existingThermals.

(** The [do ... while] of [createThermal]; [left] is [10 - attempts] at the
    entry of the body, so the body runs at most ten times. *)
Fixpoint chooseCenter (left : nat) (existingThermals : list Thermal)
  : Rand Vector2.t :=
  rx <- mathRandom ;;
  ry <- mathRandom ;;
  let c := Vector2.mk ((rx - 0.5) * WORLD_SIZE * 0.8)
                      ((ry - 0.5) * WORLD_SIZE * 0.8) in
  match left with
  | O => ret c
  | S O => ret c
  | S left' =>
      if tooClose existingThermals c then chooseCenter left' existingThermals
      else ret c
  end.

Definition createThermal (existingThermals : list Thermal) : Rand Thermal :=
  c <- chooseCenter 10 existingThermals ;;
  rs <- mathRandom ;;
  let strength := THERMAL_W_MIN + rs * (THERMAL_W_MAX - THERMAL_W_MIN) in
  rr <- mathRandom ;;
  let radius := THERMAL_CORE_RADIUS * (0.8 + rr * 0.4) in
  ri <- mathRandom ;;
  rl <- mathRandom ;;
  ret (mkThermal (toString36 ri) c radius strength 0 (180 + rl * 300)).

(** The [for] loop of [createThermalSystem]. *)
Fixpoint pushThermals (count : nat) (ts : list Thermal) : Rand (list Thermal) :=
  match count with
  | O => ret ts
  | S count' =>
      t <- createThermal ts ;;
      pushThermals count' (ts ++ [t])
  end.

Definition createThermalSystem : Rand ThermalSystemState :=
  ts <- pushThermals THERMAL_COUNT [] ;;
  let w := Vector3.mk (Math.sin WIND_DIRECTION * WIND_SPEED) 0
                      (Math.cos WIND_DIRECTION * WIND_SPEED) in
  ret (mkThermalSystemState ts w 0).

(** The [while (updatedThermals.length < THERMAL_COUNT)] loop.  Each turn
    tests the condition of the source; [fuel] bounds the number of turns
    and [spawn_fuel_enough] shows that [THERMAL_COUNT] turns reach the
    exit of the loop. *)
Fixpoint spawn (fuel : nat) (updatedThermals : list Thermal)
  : Rand (list Thermal) :=
  if (List.length updatedThermals <? THERMAL_COUNT)%nat then
    match fuel with
    | O => ret updatedThermals
    | S fuel' =>
        t <- createThermal updatedThermals ;;
        spawn fuel' (updatedThermals ++ [t])
    end
  else ret updatedThermals.

Definition updateThermalSystem (state : ThermalSystemState) (deltaTime : R)
  : Rand ThermalSystemState :=
  let newTime := time state + deltaTime in
  let driftX := Vector3.x (wind state) * THERMAL_DRIFT_FACTOR * deltaTime in
  let driftZ := Vector3.z (wind state) * THERMAL_DRIFT_FACTOR * deltaTime in
  let updatedThermals := survivors driftX driftZ deltaTime (thermals state) in
  updatedThermals <- spawn THERMAL_COUNT updatedThermals ;;
  ret (mkThermalSystemState updatedThermals (wind state) newTime).

(** A run of updates: the states returned by the successive calls, for the
    timesteps [dts], starting with [n] draws already made. *)
Fixpoint updateRun (state : ThermalSystemState) (dts : list R) (n : nat)
  : list ThermalSystemState :=
  match dts with
  | [] => []
  | deltaTime :: dts' =>
      let (state', n') := updateThermalSystem state deltaTime n in
      state' :: updateRun state' dts' n'
  end.

End ThermalSystem.

(** Fixtures: a young, long-lived thermal at a given centre; a population of
    twenty-one of them in calm air; one thermal near the eastern edge of the
    world in a wind of 10 m/s from the west. *)
Definition youngThermal (cx cy : R) : Thermal :=
  mkThermal "t" (Vector2.mk cx cy) 350 15 0 300.

Definition crowded : ThermalSystemState :=
  mkThermalSystemState (repeat (youngThermal 0 0) 21) Vector3.zero 0.

Definition nearEdge : ThermalSystemState :=
  mkThermalSystemState [youngThermal 4994 0] (Vector3.mk 10 0 0) 0.

(** A well-formed thermal, as [createThermal] makes them and
    [updateThermalSystem] keeps them: an age between 0 and the lifetime, a
    centre inside the world, a strength between [THERMAL_W_MIN] and
    [THERMAL_W_MAX] and a radius within 20% of [THERMAL_CORE_RADIUS]. *)
Definition wellFormed (t : Thermal) : Prop :=
  0 <= age t <= lifetime t /\
  180 <= lifetime t <= 480 /\
  - (WORLD_SIZE / 2) <= Vector2.x (center t) <= WORLD_SIZE / 2 /\
  - (WORLD_SIZE / 2) <= Vector2.y (center t) <= WORLD_SIZE / 2 /\
  THERMAL_W_MIN <= strength t <= THERMAL_W_MAX /\
  THERMAL_CORE_RADIUS * 0.8 <= radius t <= THERMAL_CORE_RADIUS * 1.2.

(** The draws of [Math.random] lie in [0, 1). *)
Definition unitDraws (random : nat -> R) : Prop := forall k, 0 <= random k < 1.

(** ** The initial state *)

(** [createInitialState(position?, heading?)]: an absent argument is [None]. *)
Definition createInitialState (position : option Vector3.t) (heading : option R)
  : GliderState :=
  let pos := match position with
             | Some p => p
             | None => Vector3.mk 0 500 0
             end in
  let quat := match heading with
              | Some h => setFromAxisAngle (Vector3.mk 0 1 0) h
              | None => Quaternion.identity
              end in
  let initialSpeed := 30 in
  let forward := Vector3.applyQuaternion (Vector3.mk 0 0 initialSpeed) quat in
  mkGliderState pos forward quat Vector3.zero.

(** ** Sampling the wind *)

(** The body of the [for] loop of [getVerticalWindAt]: what one thermal adds
    to [totalW].  The two quotients by [lifetime] and by the square of
    [radius] are NaN or infinite in JavaScript when the divisor is zero, while
    a quotient of [R] is always a number: what is proved of the wind below is
    proved of [wellFormed] thermals, whose lifetime and radius are positive. *)
Definition thermalContribution (position : Vector3.t) (thermal : Thermal) : R :=
  let pos2D := Vector2.mk (Vector3.x position) (Vector3.z position) in
  let r := Vector2.distanceTo pos2D (center thermal) in
  let heightFactor := 1 in
  let heightFactor :=
    if Rgt_dec (Vector3.y position) CLOUD_BASE
    then Math.max 0 (1 - (Vector3.y position - CLOUD_BASE) / 400)
    else heightFactor in
  let heightFactor :=
    if Rlt_dec (Vector3.y position) 100
    then heightFactor * (Vector3.y position / 100)
    else heightFactor in
  let lifeFraction := age thermal / lifetime thermal in
  let ageFactor :=
    if Rlt_dec lifeFraction 0.1 then lifeFraction / 0.1
    else if Rgt_dec lifeFraction 0.8 then (1 - lifeFraction) / 0.2
    else 1 in
  let coreW :=
    strength thermal * Math.exp (- (r * r) / (radius thermal * radius thermal)) in
  let sinkW :=
    strength thermal * 0.4
    * Math.exp (- Math.pow (r - THERMAL_SINK_PEAK_RADIUS) 2
                / (THERMAL_SINK_WIDTH * THERMAL_SINK_WIDTH)) in
  (coreW - sinkW) * heightFactor * ageFactor.

Definition getVerticalWindAt (position : Vector3.t) (thermalSystem : ThermalSystemState)
  : R :=
  let totalW := 0 in
  let baseSink := -0.3 in
  let totalW := totalW + baseSink in
  let totalW :=
    fold_left (fun totalW thermal => totalW + thermalContribution position thermal)
              (thermals thermalSystem) totalW in
  let turbulence :=
    Math.sin (time thermalSystem * 2 + Vector3.x position * 0.01)
    * Math.cos (time thermalSystem * 1.5 + Vector3.z position * 0.01)
    * THERMAL_TURBULENCE_AMPLITUDE in
  totalW + turbulence.

Definition getWindFieldAt (position : Vector3.t) (thermalSystem : ThermalSystemState)
  : WindField :=
  let shearFactor := 1 + Vector3.y position / 1000 * 0.1 in
  let horizontal := Vector3.multiplyScalar (wind thermalSystem) shearFactor in
  let vertical := getVerticalWindAt position thermalSystem in
  mkWindField horizontal vertical.

Module ThermalStrength.
Record t : Type := mk { strength : R; inCore : bool }.
End ThermalStrength.

Definition getThermalStrengthAt (position : Vector3.t)
    (thermalSystem : ThermalSystemState) : ThermalStrength.t :=
  let verticalWind := getVerticalWindAt position thermalSystem in
  ThermalStrength.mk verticalWind (if Rgt_dec verticalWind 1.5 then true else false).

(** The result of [findNearestThermal]; the distance [None] is [Infinity]
    and the thermal [None] is [null]. *)
Record NearestThermal : Type := mkNearestThermal {
  distance : option R;
  direction : Vector2.t;
  thermal : option Thermal
}.

(** [dist < nearestDist], where [nearestDist] may be [Infinity]. *)
Definition closer (dist : R) (nearestDist : option R) : bool :=
  match nearestDist with
  | None => true
  | Some d => if Rlt_dec dist d then true else false
  end.

(** The [for] loop of [findNearestThermal] over (nearestDist, nearestThermal). *)
Definition scanNearest (pos2D : Vector2.t) (ts : list Thermal)
    (start : option R * option Thermal) : option R * option Thermal :=
  fold_left (fun (acc : option R * option Thermal) t =>
               let dist := Vector2.distanceTo pos2D (center t) in
               if closer dist (fst acc) then (Some dist, Some t) else acc)
            ts start.

Definition findNearestThermal (position : Vector3.t)
    (thermalSystem : ThermalSystemState) : NearestThermal :=
  match thermals thermalSystem with
  | [] => mkNearestThermal None (Vector2.mk 0 0) None
  | _ =>
      let pos2D := Vector2.mk (Vector3.x position) (Vector3.z position) in
      let found := scanNearest pos2D (thermals thermalSystem) (None, None) in
      let direction :=
        match snd found with
        | Some t => Vector2.normalize (Vector2.sub (center t) pos2D)
        | None => Vector2.mk 0 0
        end in
      mkNearestThermal (fst found) direction (snd found)
  end.

(** ** The game loop *)

(** What the frame callback of [GameLoop] reads and writes. *)
Record GameRefs : Type := mkGameRefs {
  gliderStateRef : GliderState;
  thermalSystemRef : ThermalSystemState;
  lastThermalUpdateRef : R;
  telemetryUpdateRef : R
}.

Section GameLoop.

Variable random : nat -> R.
Variable toString36 : R -> string.

(** One call of the [useFrame] callback: the new references and the
    telemetry handed to [onTelemetryUpdate], if any. *)
Definition frame (refs : GameRefs) (controls : ControlInput) (delta : R)
  : Rand (GameRefs * option Telemetry) :=
  let windField :=
    getWindFieldAt (position (gliderStateRef refs)) (thermalSystemRef refs) in
  let newState := updatePhysics (gliderStateRef refs) controls windField delta in
  let lastThermalUpdate := lastThermalUpdateRef refs + delta in
  thermalPart <-
    (if Rgt_dec lastThermalUpdate 0.5 then
       ts <- updateThermalSystem random toString36 (thermalSystemRef refs)
                                 lastThermalUpdate ;;
       ret (ts, 0)
     else ret (thermalSystemRef refs, lastThermalUpdate)) ;;
  let telemetryUpdate := telemetryUpdateRef refs + delta in
  let telemetryPart :=
    if Rgt_dec telemetryUpdate 0.1
    then (Some (getTelemetry newState windField), 0)
    else (None, telemetryUpdate) in
  ret (mkGameRefs newState (fst thermalPart) (snd thermalPart) (snd telemetryPart),
       fst telemetryPart).

(** The frames of a session, for the controls and the frame time of each. *)
Fixpoint frames (refs : GameRefs) (inputs : list (ControlInput * R)) (n : nat)
  : list GameRefs :=
  match inputs with
  | [] => []
  | (controls, delta) :: inputs' =>
      let (result, n') := frame refs controls delta n in
      fst result :: frames (fst result) inputs' n'
  end.

(** The references at the start of a session and after a reset. *)
Definition startOfSession : Rand GameRefs :=
  ts <- createThermalSystem random toString36 ;;
  ret (mkGameRefs (createInitialState (Some (Vector3.mk 0 500 0)) (Some 0)) ts 0 0).

End GameLoop.

(** ** Keyboard controls *)

(** The set of held keys: [keys.has(key)], [keys.add(key)] and
    [keys.delete(key)]. *)
Module Keys.

Definition has (keys : list string) (key : string) : bool :=
  existsb (String.eqb key) keys.

Definition add (keys : list string) (key : string) : list string :=
  if has keys key then keys else keys ++ [key].

Definition delete (keys : list string) (key : string) : list string :=
  filter (fun k => negb (String.eqb key k)) keys.

End Keys.

Definition updateFromKeyboard (keys : list string) : ControlInput :=
  let pitch := 0 in
  let roll := 0 in
  let yaw := 0 in
  let pitch := if Keys.has keys "ArrowUp" || Keys.has keys "w" || Keys.has keys "W"
               then 1 else pitch in
  let pitch := if Keys.has keys "ArrowDown" || Keys.has keys "s" || Keys.has keys "S"
               then -1 else pitch in
  let roll := if Keys.has keys "ArrowLeft" || Keys.has keys "a" || Keys.has keys "A"
              then -1 else roll in
  let roll := if Keys.has keys "ArrowRight" || Keys.has keys "d" || Keys.has keys "D"
              then 1 else roll in
  let yaw := if Keys.has keys "q" || Keys.has keys "Q" then -1 else yaw in
  let yaw := if Keys.has keys "e" || Keys.has keys "E" then 1 else yaw in
  mkControlInput pitch roll yaw.

Definition handledKeys : list string :=
  ["ArrowUp"; "ArrowDown"; "ArrowLeft"; "ArrowRight";
   "w"; "a"; "s"; "d"; "W"; "A"; "S"; "D"; "q"; "e"; "Q"; "E"]%string.

(** [handleKeyDown] and [handleKeyUp]: the held keys afterwards and the
    controls handed to [onControlUpdate], if any. *)
Definition handleKeyDown (keys : list string) (key : string)
  : list string * option ControlInput :=
  if existsb (String.eqb key) handledKeys then
    let keys := Keys.add keys key in
    (keys, Some (updateFromKeyboard keys))
  else (keys, None).

Definition handleKeyUp (keys : list string) (key : string)
  : list string * option ControlInput :=
  let keys := Keys.delete keys key in
  (keys, Some (updateFromKeyboard keys)).

(** ** Instruments *)

(** The bar of the variometer: [percentage] and the height
    [Math.abs(percentage - 50)], in percent. *)
Definition variometerPercentage (verticalSpeed : R) : R :=
  let displayVS := Math.max (-10) (Math.min 10 verticalSpeed) in
  (displayVS + 10) / 20 * 100.

Definition variometerHeight (verticalSpeed : R) : R :=
  Math.abs (variometerPercentage verticalSpeed - 50).

Definition directions : list string :=
  ["N"; "NE"; "E"; "SE"; "S"; "SW"; "W"; "NW"]%string.

(** [Math.round(heading / 45) % 8]; the remainder has the sign of the
    dividend. *)
Definition dirIndex (heading : R) : Z := Z.rem (Math.round (heading / 45)) 8.

(** [directions[dirIndex]]; [None] is [undefined]. *)
Definition headingLabel (heading : R) : option string :=
  let i := dirIndex heading in
  if (i <? 0)%Z then None else nth_error directions (Z.to_nat i).

(** ** Terrain *)

(** [noise2D(x, z, seed)]; [& 255] keeps the low eight bits. *)
Definition noise2D (x z seed : R) : R :=
  let X := Z.land (Math.floor x) 255 in
  let Z_ := Z.land (Math.floor z) 255 in
  let n := IZR X + IZR Z_ * 57 + seed in
  let hash := Math.sin (n * 12.9898 + n * 78.233) * 43758.5453 in
  (hash - IZR (Math.floor hash)) * 2 - 1.

Definition smoothNoise (x z seed : R) : R :=
  let x0 := IZR (Math.floor x) in
  let z0 := IZR (Math.floor z) in
  let fx := x - x0 in
  let fz := z - z0 in
  let sx := fx * fx * (3 - 2 * fx) in
  let sz := fz * fz * (3 - 2 * fz) in
  let n00 := noise2D x0 z0 seed in
  let n10 := noise2D (x0 + 1) z0 seed in
  let n01 := noise2D x0 (z0 + 1) seed in
  let n11 := noise2D (x0 + 1) (z0 + 1) seed in
  let nx0 := n00 * (1 - sx) + n10 * sx in
  let nx1 := n01 * (1 - sx) + n11 * sx in
  nx0 * (1 - sz) + nx1 * sz.

(** The loop of [fbm]: [todo] turns remain, [i] is the loop counter. *)
Fixpoint fbmLoop (x z : R) (todo : nat) (i value amplitude frequency maxValue : R)
  : R * R :=
  match todo with
  | O => (value, maxValue)
  | S todo' =>
      let value :=
        value + smoothNoise (x * frequency) (z * frequency) (i * 100) * amplitude in
      let maxValue := maxValue + amplitude in
      let amplitude := amplitude * 0.5 in
      let frequency := frequency * 2 in
      fbmLoop x z todo' (i + 1) value amplitude frequency maxValue
  end.

Definition fbm (x z : R) (octaves : nat) : R :=
  let (value, maxValue) := fbmLoop x z octaves 0 0 1 1 0 in
  value / maxValue.

Definition getTerrainHeight (x z : R) : R :=
  let scale := 0.002 in
  let height := fbm (x * scale) (z * scale) 5 in
  let largeScale := 0.0005 in
  let largeFeatures := fbm (x * largeScale) (z * largeScale) 3 * 2 in
  let combinedHeight := (height + largeFeatures) * 80 in
  Math.max 0 (combinedHeight + 20).

(** * Properties *)

(** ** Numbers *)

Lemma PI_lower : 3 < Math.PI.
Proof. unfold Math.PI. pose proof PI2_3_2. lra. Qed.

Lemma PI_upper : Math.PI < 3.15.
Proof.
  unfold Math.PI.
  destruct (PI_2_3_7_ineq 1) as [_ H].
  unfold PI_2_3_7_tg, tg_alt, Ratan_seq in H. simpl in H.
  lra.
Qed.

Ltac pi_bounds :=
  pose proof PI_lower; pose proof PI_upper.

Ltac split_minmax :=
  unfold Math.max, Math.min, Rmax, Rmin;
  repeat match goal with
         | |- context [Rle_dec ?a ?b] => destruct (Rle_dec a b)
         | H : context [Rle_dec ?a ?b] |- _ => destruct (Rle_dec a b)
         end.

Lemma postStallFactor_bounds (e : R) :
  0 <= e -> 0.5 <= postStallFactor e <= 1.
Proof.
  intros He. unfold postStallFactor. split_minmax; lra.
Qed.

Lemma postStallFactor_0 : postStallFactor 0 = 1.
Proof. unfold postStallFactor. split_minmax; lra. Qed.

Lemma clLinear_range (alpha : R) : - CL_MAX_NEG <= clLinear alpha <= CL_MAX.
Proof.
  unfold clLinear, CL_MAX_NEG, CL_MAX. split_minmax; lra.
Qed.

(** ** The lift curve *)

(** The three regimes of [calculateCL] and the bounds of each. *)
Lemma calculateCL_branches (alpha : R) :
  (-0.9 <= calculateCL alpha <= 1.2) /\
  (alpha > STALL_ALPHA_POS ->
   0.5 * CL_MAX <= calculateCL alpha <= CL_MAX) /\
  (alpha < STALL_ALPHA_NEG ->
   - CL_MAX_NEG <= calculateCL alpha <= - (0.5 * CL_MAX_NEG)) /\
  (STALL_ALPHA_NEG <= alpha <= STALL_ALPHA_POS ->
   calculateCL alpha
   = Rmax (- CL_MAX_NEG) (Rmin CL_MAX (CL_ALPHA * (alpha - ALPHA_0)))).
Proof.
  assert (Hpos : alpha > STALL_ALPHA_POS ->
                 0.5 * CL_MAX <= clPositiveStall alpha <= CL_MAX).
  { intros H. unfold clPositiveStall.
    pose proof (postStallFactor_bounds (alpha - STALL_ALPHA_POS)).
    unfold CL_MAX. nra. }
  assert (Hneg : alpha < STALL_ALPHA_NEG ->
                 - CL_MAX_NEG <= clNegativeStall alpha <= - (0.5 * CL_MAX_NEG)).
  { intros H. unfold clNegativeStall.
    pose proof (postStallFactor_bounds (STALL_ALPHA_NEG - alpha)).
    unfold CL_MAX_NEG. nra. }
  assert (Hsep : STALL_ALPHA_NEG < STALL_ALPHA_POS).
  { unfold STALL_ALPHA_NEG, STALL_ALPHA_POS. pi_bounds. lra. }
  pose proof (clLinear_range alpha) as Hlin.
  unfold calculateCL.
  destruct (Rgt_dec alpha STALL_ALPHA_POS) as [Hp | Hp];
    [| destruct (Rlt_dec alpha STALL_ALPHA_NEG) as [Hn | Hn]].
  - specialize (Hpos Hp). unfold CL_MAX in *.
    repeat split; try lra; intros; lra.
  - specialize (Hneg Hn). unfold CL_MAX_NEG in *.
    repeat split; try lra; intros; lra.
  - unfold CL_MAX_NEG, CL_MAX in *.
    repeat split; try lra; intros; try lra; reflexivity.
Qed.

(** C9: [calculateCL] stays in [-CL_MAX_NEG, CL_MAX] = [-0.9, 1.2] at every
    angle of attack; beyond the positive stall angle it lies between half
    of [CL_MAX] and [CL_MAX], below the negative stall angle between
    [-CL_MAX_NEG] and half of it, and between the two stall angles it is the
    linear law clamped to the interval. *)
Theorem calculateCL_range (alpha : R) :
  (-0.9 <= calculateCL alpha <= 1.2) /\
  (alpha > STALL_ALPHA_POS ->
   0.5 * CL_MAX <= calculateCL alpha <= CL_MAX) /\
  (alpha < STALL_ALPHA_NEG ->
   - CL_MAX_NEG <= calculateCL alpha <= - (0.5 * CL_MAX_NEG)) /\
  (STALL_ALPHA_NEG <= alpha <= STALL_ALPHA_POS ->
   calculateCL alpha
   = Rmax (- CL_MAX_NEG) (Rmin CL_MAX (CL_ALPHA * (alpha - ALPHA_0)))).
Proof. exact (calculateCL_branches alpha). Qed.

Lemma calculateCL_range_witness :
  0.5 * CL_MAX <= calculateCL 1 <= CL_MAX.
Proof.
  apply (calculateCL_range 1).
  unfold STALL_ALPHA_POS. pi_bounds. lra.
Defined.

(** At the positive stall angle the clamped linear law and the taper agree:
    both give [CL_MAX]. *)
Lemma calculateCL_positive_boundary :
  clLinear STALL_ALPHA_POS = CL_MAX /\ clPositiveStall STALL_ALPHA_POS = CL_MAX.
Proof.
  split.
  - unfold clLinear, STALL_ALPHA_POS, ALPHA_0, CL_ALPHA, CL_MAX, CL_MAX_NEG.
    pi_bounds. split_minmax; lra.
  - unfold clPositiveStall. replace (STALL_ALPHA_POS - STALL_ALPHA_POS) with 0 by ring.
    rewrite postStallFactor_0. ring.
Qed.

(** Just below the negative stall angle the curve is lower, by more than a
    tenth, than at the stall angle itself. *)
Lemma calculateCL_below_negative_boundary (alpha : R) :
  STALL_ALPHA_NEG - 0.01 < alpha < STALL_ALPHA_NEG ->
  calculateCL STALL_ALPHA_NEG - calculateCL alpha > 0.1.
Proof.
  intros [Hlo Hhi].
  assert (Hsep : STALL_ALPHA_NEG < STALL_ALPHA_POS).
  { unfold STALL_ALPHA_NEG, STALL_ALPHA_POS. pi_bounds. lra. }
  unfold calculateCL.
  destruct (Rgt_dec STALL_ALPHA_NEG STALL_ALPHA_POS); [lra |].
  destruct (Rlt_dec STALL_ALPHA_NEG STALL_ALPHA_NEG); [lra |].
  destruct (Rgt_dec alpha STALL_ALPHA_POS); [lra |].
  destruct (Rlt_dec alpha STALL_ALPHA_NEG); [| lra].
  unfold clLinear, clNegativeStall, postStallFactor.
  unfold ALPHA_0, CL_ALPHA, CL_MAX, CL_MAX_NEG, STALL_ALPHA_NEG in *.
  pi_bounds. split_minmax; lra.
Qed.

(** C1: the curve is continuous at the positive stall angle, where the clamped
    linear law and the taper both give [CL_MAX], and it is not at the negative
    one: at -10 degrees the linear law gives 5.5 * (-8 degrees), about -0.768,
    which the clamp leaves alone, and the taper starts from [-CL_MAX_NEG] =
    -0.9, so the curve jumps by more than 0.13. *)
Theorem calculateCL_jump_at_negative_stall :
  clLinear STALL_ALPHA_POS = clPositiveStall STALL_ALPHA_POS /\
  calculateCL STALL_ALPHA_NEG = clLinear STALL_ALPHA_NEG /\
  clNegativeStall STALL_ALPHA_NEG = - CL_MAX_NEG /\
  clLinear STALL_ALPHA_NEG - clNegativeStall STALL_ALPHA_NEG > 0.13 /\
  calculateCL STALL_ALPHA_NEG - calculateCL (STALL_ALPHA_NEG - 0.001) > 0.12.
Proof.
  assert (Hsep : STALL_ALPHA_NEG < STALL_ALPHA_POS).
  { unfold STALL_ALPHA_NEG, STALL_ALPHA_POS. pi_bounds. lra. }
  assert (Hat : calculateCL STALL_ALPHA_NEG = clLinear STALL_ALPHA_NEG).
  { unfold calculateCL.
    destruct (Rgt_dec STALL_ALPHA_NEG STALL_ALPHA_POS); [lra |].
    destruct (Rlt_dec STALL_ALPHA_NEG STALL_ALPHA_NEG); [lra | reflexivity]. }
  assert (Hlin : clLinear STALL_ALPHA_NEG > -0.77).
  { unfold clLinear, STALL_ALPHA_NEG, ALPHA_0, CL_ALPHA, CL_MAX, CL_MAX_NEG.
    pi_bounds. split_minmax; lra. }
  assert (Htap : clNegativeStall STALL_ALPHA_NEG = - CL_MAX_NEG).
  { unfold clNegativeStall.
    replace (STALL_ALPHA_NEG - STALL_ALPHA_NEG) with 0 by ring.
    rewrite postStallFactor_0. ring. }
  destruct calculateCL_positive_boundary as [H1 H2].
  repeat split; try assumption.
  - congruence.
  - rewrite Htap. unfold CL_MAX_NEG. lra.
  - rewrite Hat. unfold calculateCL.
    destruct (Rgt_dec (STALL_ALPHA_NEG - 0.001) STALL_ALPHA_POS); [lra |].
    destruct (Rlt_dec (STALL_ALPHA_NEG - 0.001) STALL_ALPHA_NEG); [| lra].
    unfold clNegativeStall, postStallFactor, CL_MAX_NEG.
    split_minmax; lra.
Qed.

(** ** Vectors and axes *)

Lemma Vector3_eq (a b c a' b' c' : R) :
  a = a' -> b = b' -> c = c' -> Vector3.mk a b c = Vector3.mk a' b' c'.
Proof. intros; subst; reflexivity. Qed.

Ltac vec_eq := apply Vector3_eq; simpl; try ring; try field; try lra.

Lemma length_nonneg (v : Vector3.t) : 0 <= Vector3.length v.
Proof. unfold Vector3.length, Math.sqrt. apply sqrt_pos. Qed.

Lemma length_zero : Vector3.length Vector3.zero = 0.
Proof.
  unfold Vector3.length, Vector3.zero, Math.sqrt. simpl.
  replace (0 * 0 + 0 * 0 + 0 * 0) with 0 by ring. apply sqrt_0.
Qed.

Lemma sub_stillAir (v : Vector3.t) : Vector3.sub v (fullWind stillAir) = v.
Proof.
  destruct v. unfold Vector3.sub, fullWind, stillAir, Vector3.set_y, Vector3.zero.
  vec_eq.
Qed.

Lemma forward_identity : getForwardVector Quaternion.identity = Vector3.mk 0 0 1.
Proof. unfold getForwardVector, Vector3.applyQuaternion. vec_eq. Qed.

Lemma up_identity : getUpVector Quaternion.identity = Vector3.mk 0 1 0.
Proof. unfold getUpVector, Vector3.applyQuaternion. vec_eq. Qed.

Lemma right_identity : getRightVector Quaternion.identity = Vector3.mk 1 0 0.
Proof. unfold getRightVector, Vector3.applyQuaternion. vec_eq. Qed.

(** A vector that [calculateAngleOfAttack] normalizes has a length of at
    least 0.1: the division is by that length and the result is a unit
    vector. *)
Lemma normalize_unit (v : Vector3.t) :
  0 < Vector3.length v ->
  Vector3.normalize v = Vector3.divideScalar v (Vector3.length v) /\
  Vector3.length (Vector3.normalize v) = 1.
Proof.
  intros Hpos.
  assert (Hn : Vector3.normalize v = Vector3.divideScalar v (Vector3.length v)).
  { unfold Vector3.normalize.
    destruct (Req_dec_T (Vector3.length v) 0); [lra | reflexivity]. }
  split; [exact Hn |].
  rewrite Hn. destruct v as [a b c].
  unfold Vector3.length, Math.sqrt in *.
  unfold Vector3.divideScalar, Vector3.multiplyScalar. simpl in *.
  set (n := a * a + b * b + c * c) in *.
  assert (Hn0 : 0 < n).
  { destruct (Rle_lt_dec n 0) as [Hle | Hlt]; [| exact Hlt].
    assert (n = 0) by (unfold n in *; nra).
    rewrite H, sqrt_0 in Hpos. lra. }
  assert (Hs : sqrt n * sqrt n = n) by (apply sqrt_sqrt; lra).
  replace (a * (1 / sqrt n) * (a * (1 / sqrt n))
           + b * (1 / sqrt n) * (b * (1 / sqrt n))
           + c * (1 / sqrt n) * (c * (1 / sqrt n)))
    with (n / (sqrt n * sqrt n)) by (unfold n; field; fold n; lra).
  rewrite Hs. replace (n / n) with 1 by (field; lra). apply sqrt_1.
Qed.

(** The level glider of [gliderAtAlpha a] meets still air under the angle
    [a], for [a] strictly between -90 and 90 degrees. *)
Lemma gliderAtAlpha_alpha (a : R) :
  - (Math.PI / 2) < a < Math.PI / 2 ->
  calculateAngleOfAttack
    (Vector3.sub (velocity (gliderAtAlpha a)) (fullWind stillAir))
    (quaternion (gliderAtAlpha a)) = a.
Proof.
  intros Ha. rewrite sub_stillAir. simpl.
  unfold calculateAngleOfAttack.
  rewrite forward_identity, up_identity.
  assert (Hlen : Vector3.length (Vector3.mk 0 (- Math.sin a) (Math.cos a)) = 1).
  { unfold Vector3.length, Math.sqrt, Math.sin, Math.cos. simpl.
    replace (0 * 0 + - sin a * - sin a + cos a * cos a)
      with (Rsqr (sin a) + Rsqr (cos a)) by (unfold Rsqr; ring).
    rewrite sin2_cos2. apply sqrt_1. }
  rewrite Hlen. destruct (Rlt_dec 1 0.1); [lra |].
  unfold Vector3.normalize. rewrite Hlen.
  destruct (Req_dec_T 1 0); [lra |].
  unfold Vector3.divideScalar, Vector3.multiplyScalar, Vector3.dot. simpl.
  assert (Hc : 0 < cos a) by (apply cos_gt_0; unfold Math.PI in Ha; lra).
  unfold Math.atan2, Math.sin, Math.cos.
  replace (0 * (1 / 1) * 0 + - sin a * (1 / 1) * 0 + cos a * (1 / 1) * 1)
    with (cos a) by field.
  replace (- (0 * (1 / 1) * 0 + - sin a * (1 / 1) * 1 + cos a * (1 / 1) * 0))
    with (sin a) by field.
  destruct (Rlt_dec 0 (cos a)); [| lra].
  change (sin a / cos a) with (tan a).
  apply atan_tan. unfold Math.PI in Ha. exact Ha.
Qed.

(** ** Angle of attack and telemetry *)

Lemma beyondStall_iff (alpha : R) :
  beyondStall alpha = true <->
  alpha > 12 * (Math.PI / 180) \/ alpha < -10 * (Math.PI / 180).
Proof.
  unfold beyondStall, STALL_ALPHA_POS, STALL_ALPHA_NEG.
  destruct (Rgt_dec alpha (12 * (Math.PI / 180)));
    [| destruct (Rlt_dec alpha (-10 * (Math.PI / 180)))];
    split; intros H; try reflexivity; try discriminate; tauto.
Qed.

(** C10: [calculateAngleOfAttack] returns 0 when the air-relative speed is
    below 0.1 m/s, before any normalization; a vector that it does normalize
    has a non-zero length, is divided by that length and becomes a unit
    vector; and [getTelemetry] at an air-relative speed below 0.1 m/s reports
    the angle of attack 0 and no stall. *)
Theorem calculateAngleOfAttack_slow :
  (forall v q, Vector3.length v < 0.1 -> calculateAngleOfAttack v q = 0) /\
  (forall v q, ~ Vector3.length v < 0.1 ->
     calculateAngleOfAttack v q
     = Math.atan2 (- Vector3.dot (Vector3.divideScalar v (Vector3.length v))
                                 (getUpVector q))
                  (Vector3.dot (Vector3.divideScalar v (Vector3.length v))
                               (getForwardVector q)) /\
     Vector3.length (Vector3.normalize v) = 1) /\
  (forall state windField,
     airspeed (getTelemetry state windField) < 0.1 ->
     angleOfAttack (getTelemetry state windField) = 0 /\
     isStalling (getTelemetry state windField) = false).
Proof.
  assert (Hslow : forall v q, Vector3.length v < 0.1 ->
                              calculateAngleOfAttack v q = 0).
  { intros v q H. unfold calculateAngleOfAttack.
    destruct (Rlt_dec (Vector3.length v) 0.1); [reflexivity | contradiction]. }
  split; [exact Hslow | split].
  - intros v q H.
    assert (Hpos : 0 < Vector3.length v) by lra.
    destruct (normalize_unit v Hpos) as [Hn Hu].
    split; [| exact Hu].
    unfold calculateAngleOfAttack.
    destruct (Rlt_dec (Vector3.length v) 0.1); [contradiction |].
    rewrite Hn. reflexivity.
  - intros state windField H. simpl in *.
    rewrite (Hslow _ _ H). split; [ring |].
    unfold beyondStall, STALL_ALPHA_POS, STALL_ALPHA_NEG. pi_bounds.
    destruct (Rgt_dec 0 (12 * (Math.PI / 180))); [lra |].
    destruct (Rlt_dec 0 (-10 * (Math.PI / 180))); [lra | reflexivity].
Qed.

Lemma calculateAngleOfAttack_slow_witness :
  angleOfAttack (getTelemetry (levelGlider Vector3.zero Vector3.zero) stillAir) = 0 /\
  isStalling (getTelemetry (levelGlider Vector3.zero Vector3.zero) stillAir) = false.
Proof.
  apply (proj2 (proj2 calculateAngleOfAttack_slow)).
  simpl. rewrite sub_stillAir, length_zero. lra.
Defined.

(** C8: [getTelemetry] reports a stall exactly when the angle of attack that
    it computes is above +12 degrees or below -10 degrees, both strictly, and
    the angle that it reports is that angle in degrees; a level glider that
    meets still air at 12.0001 degrees is reported stalling and at 11.99
    degrees not, and likewise at -10.0001 and -9.99 degrees. *)
Theorem getTelemetry_isStalling :
  (forall state windField,
     let alpha :=
       calculateAngleOfAttack
         (Vector3.sub (velocity state) (fullWind windField)) (quaternion state) in
     angleOfAttack (getTelemetry state windField) = alpha * (180 / Math.PI) /\
     (isStalling (getTelemetry state windField) = true <->
      alpha > 12 * (Math.PI / 180) \/ alpha < -10 * (Math.PI / 180))) /\
  isStalling (getTelemetry (gliderAtAlpha (12.0001 * (Math.PI / 180))) stillAir) = true /\
  isStalling (getTelemetry (gliderAtAlpha (11.99 * (Math.PI / 180))) stillAir) = false /\
  isStalling (getTelemetry (gliderAtAlpha (-10.0001 * (Math.PI / 180))) stillAir) = true /\
  isStalling (getTelemetry (gliderAtAlpha (-9.99 * (Math.PI / 180))) stillAir) = false.
Proof.
  split.
  - intros state windField alpha. split; [reflexivity |].
    apply beyondStall_iff.
  - assert (Hat : forall a, - (Math.PI / 2) < a < Math.PI / 2 ->
                    isStalling (getTelemetry (gliderAtAlpha a) stillAir)
                    = beyondStall a).
    { intros a Ha.
      change (isStalling (getTelemetry (gliderAtAlpha a) stillAir))
        with (beyondStall
                (calculateAngleOfAttack
                   (Vector3.sub (velocity (gliderAtAlpha a)) (fullWind stillAir))
                   (quaternion (gliderAtAlpha a)))).
      rewrite (gliderAtAlpha_alpha a Ha). reflexivity. }
    pi_bounds.
    repeat split; rewrite Hat by lra;
      unfold beyondStall, STALL_ALPHA_POS, STALL_ALPHA_NEG;
      repeat match goal with
             | |- context [Rgt_dec ?a ?b] => destruct (Rgt_dec a b)
             | |- context [Rlt_dec ?a ?b] => destruct (Rlt_dec a b)
             end; try reflexivity; lra.
Qed.

(** ** Weathervane *)

(** C6: [applyWeathervane] returns the angular velocity that it was given
    when the speed of the velocity that it was given is below 5 m/s or the
    sideslip, [normalize(velocity) . bodyRight], is below 0.01 in magnitude;
    otherwise it leaves the pitch and roll rates alone and moves the yaw rate
    toward [-sideslip * WEATHERVANE_STRENGTH * min(1, speed / 30)] by the
    fraction [dt * 3] of the distance. *)
Theorem applyWeathervane_cases
    (angularVelocity velocity : Vector3.t) (q : Quaternion.t) (dt : R) :
  let speed := Vector3.length velocity in
  let sideslip := Vector3.dot (Vector3.normalize velocity) (getRightVector q) in
  let target := - sideslip * WEATHERVANE_STRENGTH * Rmin 1 (speed / 30) in
  (speed < 5 \/ Rabs sideslip < 0.01 ->
   applyWeathervane angularVelocity velocity q dt = angularVelocity) /\
  (~ (speed < 5 \/ Rabs sideslip < 0.01) ->
   applyWeathervane angularVelocity velocity q dt
   = Vector3.mk (Vector3.x angularVelocity)
                ((1 - dt * 3) * Vector3.y angularVelocity + dt * 3 * target)
                (Vector3.z angularVelocity)).
Proof.
  intros speed sideslip target. unfold applyWeathervane.
  fold speed. fold sideslip. unfold Math.abs, Math.min.
  destruct (Rlt_dec speed 5) as [Hs | Hs];
    [| destruct (Rlt_dec (Rabs sideslip) 0.01) as [Ha | Ha]].
  - split; [reflexivity | tauto].
  - split; [reflexivity | tauto].
  - split; [tauto |]. intros _.
    unfold Vector3.set_y, target. vec_eq.
Qed.

Lemma length_along_x (a : R) : 0 <= a -> Vector3.length (Vector3.mk a 0 0) = a.
Proof.
  intros Ha. unfold Vector3.length, Math.sqrt. simpl.
  replace (a * a + 0 * 0 + 0 * 0) with (a * a) by ring.
  apply sqrt_square. exact Ha.
Qed.

Lemma applyWeathervane_cases_witness :
  applyWeathervane (Vector3.mk 0.1 0.2 0.3) Vector3.zero Quaternion.identity 0.05
  = Vector3.mk 0.1 0.2 0.3 /\
  applyWeathervane (Vector3.mk 0.1 0.2 0.3) (Vector3.mk 10 0 0)
                   Quaternion.identity 0.05
  = Vector3.mk 0.1 (0.85 * 0.2 + 0.15 * (- 0.1)) 0.3.
Proof.
  split.
  - apply (applyWeathervane_cases (Vector3.mk 0.1 0.2 0.3) Vector3.zero
                                  Quaternion.identity 0.05).
    left. rewrite length_zero. lra.
  - assert (Hl : Vector3.length (Vector3.mk 10 0 0) = 10)
      by (apply length_along_x; lra).
    assert (Hs : Vector3.dot (Vector3.normalize (Vector3.mk 10 0 0))
                             (getRightVector Quaternion.identity) = 1).
    { rewrite right_identity. unfold Vector3.normalize. rewrite Hl.
      destruct (Req_dec_T 10 0); [lra |].
      unfold Vector3.divideScalar, Vector3.multiplyScalar, Vector3.dot. simpl.
      field. }
    pose proof (applyWeathervane_cases (Vector3.mk 0.1 0.2 0.3) (Vector3.mk 10 0 0)
                                       Quaternion.identity 0.05) as [_ H].
    cbv zeta in H. rewrite Hl, Hs in H. rewrite H.
    + unfold WEATHERVANE_STRENGTH, Rmin.
      destruct (Rle_dec 1 (10 / 30)); [lra |]. simpl. vec_eq.
    + rewrite Rabs_pos_eq by lra. lra.
Defined.

(** ** Orientation *)

Lemma quaternion_normalize_length (q : Quaternion.t) :
  Quaternion.length (Quaternion.normalize q) = 1.
Proof.
  unfold Quaternion.normalize.
  destruct (Req_dec_T (Quaternion.length q) 0) as [H0 | H0].
  - unfold Quaternion.length, Math.sqrt. simpl.
    replace (0 * 0 + 0 * 0 + 0 * 0 + 1 * 1) with 1 by ring. apply sqrt_1.
  - destruct q as [a b c d]. unfold Quaternion.length, Math.sqrt in *. simpl in *.
    set (n := a * a + b * b + c * c + d * d) in *.
    assert (Hn : 0 <= n) by (unfold n; nra).
    assert (Hs : sqrt n * sqrt n = n) by (apply sqrt_sqrt; exact Hn).
    assert (Hn0 : n <> 0) by (intros E; apply H0; rewrite E; apply sqrt_0).
    replace (a * (1 / sqrt n) * (a * (1 / sqrt n))
             + b * (1 / sqrt n) * (b * (1 / sqrt n))
             + c * (1 / sqrt n) * (c * (1 / sqrt n))
             + d * (1 / sqrt n) * (d * (1 / sqrt n)))
      with (n / (sqrt n * sqrt n)) by (unfold n; field; fold n; exact H0).
    rewrite Hs. replace (n / n) with 1 by (field; exact Hn0). apply sqrt_1.
Qed.

(** The orientation update either renormalizes or returns the orientation
    that it was given. *)
Lemma updateOrientation_length (q : Quaternion.t) (w : Vector3.t) (dt : R) :
  Quaternion.length (updateOrientation q w dt) = 1 \/ updateOrientation q w dt = q.
Proof.
  unfold updateOrientation.
  destruct (Rgt_dec (Vector3.length w) 0.0001).
  - left. apply quaternion_normalize_length.
  - right. reflexivity.
Qed.

Lemma updatePhysics_quaternion state controls windField deltaTime :
  exists w, quaternion (updatePhysics state controls windField deltaTime)
            = updateOrientation (quaternion state) w (Math.min deltaTime 0.05).
Proof.
  unfold updatePhysics.
  destruct (groundCollision _ _). simpl. eexists. reflexivity.
Qed.

Lemma updatePhysics_unit state controls windField deltaTime :
  Quaternion.length (quaternion state) = 1 ->
  Quaternion.length (quaternion (updatePhysics state controls windField deltaTime)) = 1.
Proof.
  intros H. destruct (updatePhysics_quaternion state controls windField deltaTime)
    as [w ->].
  destruct (updateOrientation_length (quaternion state) w (Math.min deltaTime 0.05))
    as [E | E]; [exact E | rewrite E; exact H].
Qed.

Lemma physicsRun_unit inputs : forall state,
  Quaternion.length (quaternion state) = 1 ->
  Forall (fun s => Quaternion.length (quaternion s) = 1) (physicsRun state inputs).
Proof.
  induction inputs as [| [[controls windField] deltaTime] inputs IH];
    intros state H; simpl.
  - constructor.
  - constructor.
    + apply updatePhysics_unit; exact H.
    + apply IH. apply updatePhysics_unit; exact H.
Qed.

(** C3: over exact real arithmetic, a physics step from a state whose
    orientation has norm 1 returns an orientation whose norm lies in
    [1 - 1e-6, 1 + 1e-6] (it is 1), for every control input, wind sample and
    timestep of at most 0.05; and so does every state of a run of such steps. *)
Theorem updatePhysics_quaternion_norm :
  (forall state controls windField deltaTime,
     Quaternion.length (quaternion state) = 1 ->
     deltaTime <= 0.05 ->
     1 - 0.000001
     <= Quaternion.length (quaternion (updatePhysics state controls windField deltaTime))
     <= 1 + 0.000001) /\
  (forall state inputs,
     Quaternion.length (quaternion state) = 1 ->
     Forall (fun i => snd i <= 0.05) inputs ->
     Forall (fun s => 1 - 0.000001 <= Quaternion.length (quaternion s)
                      <= 1 + 0.000001)
            (physicsRun state inputs)).
Proof.
  split.
  - intros state controls windField deltaTime H _.
    rewrite (updatePhysics_unit _ _ _ _ H). lra.
  - intros state inputs H _.
    eapply Forall_impl; [| apply physicsRun_unit; exact H].
    simpl. intros s Hs. rewrite Hs. lra.
Qed.

Lemma identity_unit : Quaternion.length Quaternion.identity = 1.
Proof.
  unfold Quaternion.length, Quaternion.identity, Math.sqrt. simpl.
  replace (0 * 0 + 0 * 0 + 0 * 0 + 1 * 1) with 1 by ring. apply sqrt_1.
Qed.

Lemma updatePhysics_quaternion_norm_witness :
  Forall (fun s => 1 - 0.000001 <= Quaternion.length (quaternion s) <= 1 + 0.000001)
         (physicsRun (levelGlider (Vector3.mk 0 500 0) (Vector3.mk 0 0 30))
                     [(centred, stillAir, 0.016);
                      (mkControlInput 1 0.5 0, stillAir, 0.05)]).
Proof.
  apply (proj2 updatePhysics_quaternion_norm).
  - exact identity_unit.
  - repeat constructor; simpl; lra.
Defined.

(** ** The stages of the step, read off the returned state *)

Lemma updatePhysics_stages state controls windField deltaTime :
  let dt := Math.min deltaTime 0.05 in
  let newVelocity := integrateVelocity state windField dt in
  let newPosition := integratePosition state newVelocity dt in
  let alpha := correctionAlpha state windField in
  let w := stallNoseDrop alpha dt
             (pitchStability alpha controls dt
                (respondedAngularVel state controls newVelocity dt)) in
  updatePhysics state controls windField deltaTime
  = mkGliderState (fst (groundCollision newPosition newVelocity))
                  (snd (groundCollision newPosition newVelocity))
                  (updateOrientation (quaternion state) w dt)
                  w.
Proof.
  intros. unfold updatePhysics.
  fold dt. fold newVelocity. fold newPosition. fold alpha. fold w.
  destruct (groundCollision newPosition newVelocity). reflexivity.
Qed.

Lemma groundCollision_below (p v : Vector3.t) :
  Vector3.y p < 5 ->
  fst (groundCollision p v) = Vector3.mk (Vector3.x p) 5 (Vector3.z p) /\
  (Vector3.y v < 0 ->
   snd (groundCollision p v)
   = Vector3.mk (Vector3.x v * 0.98) 0 (Vector3.z v * 0.98)) /\
  (~ Vector3.y v < 0 -> snd (groundCollision p v) = v).
Proof.
  intros Hp. unfold groundCollision.
  destruct (Rlt_dec (Vector3.y p) 5); [| contradiction].
  destruct (Rlt_dec (Vector3.y v) 0); simpl; repeat split;
    intros; try reflexivity; contradiction.
Qed.

(** ** Ground contact *)

(** C5, amended: when the altitude after integration is below 5 m, the step
    returns the altitude 5 (and the integrated horizontal position); if
    moreover the vertical velocity after integration is negative, it returns
    the vertical velocity 0 and the integrated horizontal velocity scaled by
    0.98, and otherwise the integrated velocity.  In particular a state at
    altitude 3 m with vertical velocity -5 m/s, stepped by a timestep that is
    not negative and still descending after integration, comes back at
    altitude 5 with vertical velocity 0 and its horizontal velocity scaled by
    0.98. *)
Theorem updatePhysics_ground_contact state controls windField deltaTime :
  let dt := Math.min deltaTime 0.05 in
  let newVelocity := integrateVelocity state windField dt in
  let newPosition := integratePosition state newVelocity dt in
  let next := updatePhysics state controls windField deltaTime in
  (Vector3.y newPosition < 5 ->
   position next = Vector3.mk (Vector3.x newPosition) 5 (Vector3.z newPosition) /\
   (Vector3.y newVelocity < 0 ->
    velocity next
    = Vector3.mk (Vector3.x newVelocity * 0.98) 0 (Vector3.z newVelocity * 0.98)) /\
   (~ Vector3.y newVelocity < 0 -> velocity next = newVelocity)) /\
  (Vector3.y (position state) = 3 ->
   Vector3.y (velocity state) = -5 ->
   0 <= deltaTime ->
   Vector3.y newVelocity < 0 ->
   Vector3.y (position next) = 5 /\
   Vector3.y (velocity next) = 0 /\
   Vector3.x (velocity next) = Vector3.x newVelocity * 0.98 /\
   Vector3.z (velocity next) = Vector3.z newVelocity * 0.98).
Proof.
  intros dt newVelocity newPosition next.
  assert (Hgen : Vector3.y newPosition < 5 ->
     position next = Vector3.mk (Vector3.x newPosition) 5 (Vector3.z newPosition) /\
     (Vector3.y newVelocity < 0 ->
      velocity next
      = Vector3.mk (Vector3.x newVelocity * 0.98) 0 (Vector3.z newVelocity * 0.98)) /\
     (~ Vector3.y newVelocity < 0 -> velocity next = newVelocity)).
  { intros Hp. unfold next. rewrite updatePhysics_stages. simpl.
    fold dt. fold newVelocity. fold newPosition.
    exact (groundCollision_below newPosition newVelocity Hp). }
  split; [exact Hgen |].
  intros Hy Hv Hdt Hneg.
  assert (Hdt' : 0 <= dt).
  { unfold dt, Math.min, Rmin. destruct (Rle_dec deltaTime 0.05); lra. }
  assert (Hp : Vector3.y newPosition < 5).
  { assert (E : Vector3.y newPosition
                = Vector3.y (position state) + Vector3.y newVelocity * dt)
      by reflexivity.
    rewrite E, Hy. nra. }
  destruct (Hgen Hp) as [Hpos [Hvel _]].
  rewrite Hpos, (Hvel Hneg). simpl. repeat split; reflexivity.
Qed.

(** *** A level glider that falls at 5 m/s through still air *)

Lemma length_down (b : R) : b < 0 -> Vector3.length (Vector3.mk 0 b 0) = - b.
Proof.
  intros Hb. unfold Vector3.length, Math.sqrt. simpl.
  replace (0 * 0 + b * b + 0 * 0) with (- b * - b) by ring.
  apply sqrt_square. lra.
Qed.

Lemma normalize_down (b : R) :
  b < 0 -> Vector3.normalize (Vector3.mk 0 b 0) = Vector3.mk 0 (-1) 0.
Proof.
  intros Hb. unfold Vector3.normalize. rewrite (length_down b Hb).
  destruct (Req_dec_T (- b) 0); [lra |].
  unfold Vector3.divideScalar, Vector3.multiplyScalar. vec_eq.
Qed.

Lemma length_fall : Vector3.length (Vector3.mk 0 (-5) 0) = 5.
Proof. rewrite length_down by lra. lra. Qed.

Lemma normalize_fall : Vector3.normalize (Vector3.mk 0 (-5) 0) = Vector3.mk 0 (-1) 0.
Proof. apply normalize_down. lra. Qed.

Lemma normalize_along_z : Vector3.normalize (Vector3.mk 0 0 1) = Vector3.mk 0 0 1.
Proof.
  assert (Hl : Vector3.length (Vector3.mk 0 0 1) = 1).
  { unfold Vector3.length, Math.sqrt. simpl.
    replace (0 * 0 + 0 * 0 + 1 * 1) with 1 by ring. apply sqrt_1. }
  unfold Vector3.normalize. rewrite Hl.
  destruct (Req_dec_T 1 0); [lra |].
  unfold Vector3.divideScalar, Vector3.multiplyScalar. vec_eq.
Qed.

Lemma atan2_up : Math.atan2 1 0 = Math.PI / 2.
Proof.
  unfold Math.atan2.
  destruct (Rlt_dec 0 0); [lra |].
  destruct (Rlt_dec 0 1); [reflexivity | lra].
Qed.

(** A level glider that moves straight down, at 0.1 m/s or more, meets the
    air at 90 degrees. *)
Lemma down_alpha (b : R) :
  b <= -0.1 ->
  calculateAngleOfAttack (Vector3.mk 0 b 0) Quaternion.identity = Math.PI / 2.
Proof.
  intros Hb. unfold calculateAngleOfAttack.
  rewrite length_down, forward_identity, up_identity, normalize_down by lra.
  destruct (Rlt_dec (- b) 0.1); [lra |].
  unfold Vector3.dot. simpl.
  replace (- (0 * 0 + -1 * 1 + 0 * 0)) with 1 by ring.
  replace (0 * 0 + -1 * 0 + 0 * 1) with 0 by ring.
  apply atan2_up.
Qed.

Lemma fall_alpha :
  calculateAngleOfAttack (Vector3.mk 0 (-5) 0) Quaternion.identity = Math.PI / 2.
Proof. apply down_alpha. lra. Qed.

Lemma calculateCL_deep_stall : calculateCL (Math.PI / 2) = 0.6.
Proof.
  unfold calculateCL, STALL_ALPHA_POS. pi_bounds.
  destruct (Rgt_dec (Math.PI / 2) (12 * (Math.PI / 180))); [| lra].
  unfold clPositiveStall, postStallFactor, STALL_ALPHA_POS, CL_MAX.
  split_minmax; lra.
Qed.

Lemma fall_forces :
  calculateAeroForces (Vector3.mk 0 (-5) 0) Quaternion.identity stillAir
  = mkAeroForces (Vector3.mk 0 0 147) (Vector3.mk 0 8.379 0) Vector3.zero.
Proof.
  unfold calculateAeroForces. rewrite sub_stillAir, length_fall.
  destruct (Rlt_dec 5 0.5); [lra |].
  rewrite right_identity, normalize_fall, fall_alpha, calculateCL_deep_stall.
  replace (Vector3.cross (Vector3.mk 0 (-1) 0) (Vector3.mk 1 0 0))
    with (Vector3.mk 0 0 1) by (unfold Vector3.cross; vec_eq).
  rewrite normalize_along_z.
  unfold Vector3.multiplyScalar, Vector3.negate, Vector3.dot, Vector3.zero,
    Math.abs, Math.sign, calculateCD, RHO, WING_AREA_S, CD_0, K_DRAG. simpl.
  replace (0 * 1 + -5 * 0 + 0 * 0) with 0 by ring.
  rewrite Rabs_R0.
  f_equal; vec_eq.
Qed.

Lemma min_step : Math.min 0.05 0.05 = 0.05.
Proof. unfold Math.min, Rmin. destruct (Rle_dec 0.05 0.05); reflexivity. Qed.

Lemma fall_integrateVelocity (p : Vector3.t) :
  integrateVelocity (levelGlider p (Vector3.mk 0 (-5) 0)) stillAir 0.05
  = Vector3.mk 0 (-5.4895025) 0.0175.
Proof.
  unfold integrateVelocity. simpl. rewrite fall_forces. simpl.
  unfold Vector3.add, Vector3.divideScalar, Vector3.multiplyScalar, Vector3.zero,
    GRAVITY, MASS. simpl.
  vec_eq.
Qed.

Lemma updatePhysics_ground_contact_witness :
  let next :=
    updatePhysics (levelGlider (Vector3.mk 0 3 0) (Vector3.mk 0 (-5) 0))
                  centred stillAir 0.05 in
  Vector3.y (position next) = 5 /\
  Vector3.y (velocity next) = 0 /\
  Vector3.x (velocity next) = 0 * 0.98 /\
  Vector3.z (velocity next) = 0.0175 * 0.98.
Proof.
  pose proof (proj2 (updatePhysics_ground_contact
                       (levelGlider (Vector3.mk 0 3 0) (Vector3.mk 0 (-5) 0))
                       centred stillAir 0.05)) as H.
  cbv zeta in H. rewrite min_step, fall_integrateVelocity in H.
  apply H; simpl; lra.
Defined.

(** *** A fast pass at 3 m with the nose raised

    The arc tangent between the first two partial sums of its series. *)
Lemma atan_series_bounds (x : R) :
  0 < x < 1 -> x - x ^ 3 / 3 <= atan x <= x.
Proof.
  intros Hx.
  rewrite (atan_eq_ps_atan x Hx). unfold ps_atan.
  destruct (Ratan.in_int x) as [h | h]; [| exfalso; apply h; lra].
  destruct (ps_atan_exists_1 x h) as [v Hv].
  assert (H01 : 0 <= x <= 1) by lra.
  pose proof (alternated_series_ineq (Ratan_seq x) v 0
                (Ratan_seq_decreasing x H01) (Ratan_seq_converging x H01) Hv) as H.
  simpl in H. unfold tg_alt, Ratan_seq in H. simpl in H.
  lra.
Qed.

Lemma noseUp_unit : Quaternion.length noseUp = 1.
Proof.
  unfold Quaternion.length, noseUp, Math.sqrt. simpl.
  replace (-68 / 1157 * (-68 / 1157) + 0 * 0 + 0 * 0 + 1155 / 1157 * (1155 / 1157))
    with 1 by field.
  apply sqrt_1.
Qed.

Lemma noseUp_forward :
  getForwardVector noseUp = Vector3.mk 0 (157080 / 1338649) (1329401 / 1338649).
Proof. unfold getForwardVector, Vector3.applyQuaternion, noseUp. vec_eq. Qed.

Lemma noseUp_up :
  getUpVector noseUp = Vector3.mk 0 (1329401 / 1338649) (-157080 / 1338649).
Proof. unfold getUpVector, Vector3.applyQuaternion, noseUp. vec_eq. Qed.

Lemma noseUp_right : getRightVector noseUp = Vector3.mk 1 0 0.
Proof. unfold getRightVector, Vector3.applyQuaternion, noseUp. vec_eq. Qed.

Lemma lowPass_speed :
  let s := Vector3.length (Vector3.mk 0 (-5) 65) in
  s * s = 4250 /\ 65 < s < 66.
Proof.
  intros s.
  assert (Hs : s * s = 4250).
  { unfold s, Vector3.length, Math.sqrt. simpl.
    replace (0 * 0 + -5 * -5 + 65 * 65) with 4250 by ring.
    apply sqrt_sqrt. lra. }
  assert (H0 : 0 <= s) by (unfold s, Vector3.length, Math.sqrt; apply sqrt_pos).
  split; [exact Hs |]. split; nra.
Qed.

(** The glider meets the air at about 11 degrees, on the plateau of the
    lift curve below the stall. *)
Lemma lowPass_alpha :
  0.187 <= calculateAngleOfAttack (Vector3.mk 0 (-5) 65) noseUp <= 0.2.
Proof.
  destruct lowPass_speed as [Hs [Hlo Hhi]].
  unfold calculateAngleOfAttack.
  rewrite noseUp_forward, noseUp_up. unfold Vector3.normalize.
  set (s := Vector3.length (Vector3.mk 0 (-5) 65)) in *.
  destruct (Rlt_dec s 0.1); [lra |].
  destruct (Req_dec_T s 0); [lra |].
  unfold Vector3.divideScalar, Vector3.multiplyScalar, Vector3.dot. simpl.
  set (a := 0 * (1 / s) * 0 + -5 * (1 / s) * (157080 / 1338649)
            + 65 * (1 / s) * (1329401 / 1338649)).
  set (b := - (0 * (1 / s) * 0 + -5 * (1 / s) * (1329401 / 1338649)
               + 65 * (1 / s) * (-157080 / 1338649))).
  assert (Ha : a = 85625665 / 1338649 / s) by (unfold a; field; lra).
  assert (Hb : b = 16857205 / 1338649 / s) by (unfold b; field; lra).
  assert (Hinv : 0 < / s) by (apply Rinv_0_lt_compat; lra).
  assert (Hapos : 0 < a).
  { rewrite Ha. unfold Rdiv. apply Rmult_lt_0_compat; lra. }
  unfold Math.atan2. destruct (Rlt_dec 0 a); [| contradiction].
  assert (Hr : b / a = 16857205 / 85625665) by (rewrite Ha, Hb; field; lra).
  rewrite Hr.
  assert (L1 : atan 0.19 < atan (16857205 / 85625665))
    by (apply atan_increasing; lra).
  assert (L2 : atan (16857205 / 85625665) < atan 0.2)
    by (apply atan_increasing; lra).
  pose proof (atan_series_bounds 0.19 ltac:(lra)) as B1.
  pose proof (atan_series_bounds 0.2 ltac:(lra)) as B2.
  lra.
Qed.

Lemma calculateCL_plateau (alpha : R) :
  0.187 <= alpha <= 0.2 -> calculateCL alpha = 1.2.
Proof.
  intros H. pose proof PI_lower. pose proof PI_upper. unfold Math.PI in *.
  unfold calculateCL, STALL_ALPHA_POS, STALL_ALPHA_NEG, Math.PI.
  destruct (Rgt_dec alpha (12 * (PI / 180))); [lra |].
  destruct (Rlt_dec alpha (-10 * (PI / 180))); [lra |].
  unfold clLinear, CL_ALPHA, ALPHA_0, CL_MAX, CL_MAX_NEG, Math.PI.
  split_minmax; lra.
Qed.

(** Lift of 49980 N at right angles to the motion, drag of 3448.62 N
    against it, no side force. *)
Lemma lowPass_forces :
  let s := Vector3.length (Vector3.mk 0 (-5) 65) in
  calculateAeroForces (Vector3.mk 0 (-5) 65) noseUp stillAir
  = mkAeroForces (Vector3.mk 0 (65 / s * 49980) (5 / s * 49980))
                 (Vector3.mk 0 (5 / s * 3448.62) (-65 / s * 3448.62))
                 Vector3.zero.
Proof.
  destruct lowPass_speed as [Hs [Hlo Hhi]].
  intros s. unfold calculateAeroForces. rewrite sub_stillAir.
  fold s. fold s in Hs, Hlo, Hhi.
  destruct (Rlt_dec s 0.5); [lra |].
  rewrite (calculateCL_plateau _ lowPass_alpha), noseUp_right.
  assert (Hn : Vector3.normalize (Vector3.mk 0 (-5) 65)
               = Vector3.mk 0 (-5 / s) (65 / s)).
  { unfold Vector3.normalize. fold s.
    destruct (Req_dec_T s 0); [lra |].
    unfold Vector3.divideScalar, Vector3.multiplyScalar. vec_eq. }
  rewrite Hn.
  assert (Hc : Vector3.cross (Vector3.mk 0 (-5 / s) (65 / s)) (Vector3.mk 1 0 0)
               = Vector3.mk 0 (65 / s) (5 / s))
    by (unfold Vector3.cross; vec_eq).
  rewrite Hc.
  assert (Hl : Vector3.length (Vector3.mk 0 (65 / s) (5 / s)) = 1).
  { unfold Vector3.length, Math.sqrt. simpl.
    replace (0 * 0 + 65 / s * (65 / s) + 5 / s * (5 / s)) with (4250 / (s * s))
      by (field; lra).
    rewrite Hs. replace (4250 / 4250) with 1 by field. apply sqrt_1. }
  assert (Hd : Vector3.normalize (Vector3.mk 0 (65 / s) (5 / s))
               = Vector3.mk 0 (65 / s) (5 / s)).
  { unfold Vector3.normalize. rewrite Hl.
    destruct (Req_dec_T 1 0); [lra |].
    unfold Vector3.divideScalar, Vector3.multiplyScalar. vec_eq. }
  rewrite Hd.
  unfold Vector3.multiplyScalar, Vector3.negate, Vector3.dot, Vector3.zero,
    Math.abs, Math.sign, calculateCD, RHO, WING_AREA_S, CD_0, K_DRAG. simpl.
  replace (0 * 1 + -5 * 0 + 65 * 0) with 0 by ring.
  rewrite Rabs_R0.
  replace (0.5 * 1.225 * s * s) with (0.5 * 1.225 * (s * s)) by ring.
  rewrite Hs.
  f_equal; vec_eq.
Qed.

(** The lift of about twelve times the weight turns the descent of 5 m/s
    into a climb of about 0.47 m/s within the step of 0.05 s. *)
Lemma lowPass_integrateVelocity :
  let newVelocity := integrateVelocity lowPass stillAir 0.05 in
  0.4 < Vector3.y newVelocity < 0.6.
Proof.
  destruct lowPass_speed as [Hs [Hlo Hhi]].
  intros newVelocity. unfold newVelocity, integrateVelocity. simpl.
  rewrite lowPass_forces. simpl.
  set (s := Vector3.length (Vector3.mk 0 (-5) 65)) in *.
  unfold GRAVITY, MASS.
  assert (Hinv : / 66 < / s < / 65).
  { split; apply Rinv_lt_contravar; try lra; apply Rmult_lt_0_compat; lra. }
  unfold Rdiv. lra.
Qed.

(** C5 as worded fails: a state at altitude 3 m with vertical velocity
    -5 m/s does not always come back with vertical velocity 0 and its
    horizontal velocity scaled.  The glider [lowPass] (unit orientation, nose
    raised, 65 m/s forward) in still air with centred controls and a step of
    0.05 s comes back at altitude 5 with the integrated velocity unchanged:
    a vertical velocity between 0.4 and 0.6 m/s, and nothing scaled. *)
Lemma updatePhysics_contact_not_descending :
  let next := updatePhysics lowPass centred stillAir 0.05 in
  Vector3.y (position lowPass) = 3 /\
  Vector3.y (velocity lowPass) = -5 /\
  Quaternion.length (quaternion lowPass) = 1 /\
  Vector3.y (position next) = 5 /\
  velocity next = integrateVelocity lowPass stillAir 0.05 /\
  0.4 < Vector3.y (velocity next) < 0.6 /\
  Vector3.y (velocity next) <> 0.
Proof.
  intros next.
  pose proof lowPass_integrateVelocity as Hv. cbv zeta in Hv.
  assert (Hnext : position next
                  = Vector3.set_y
                      (integratePosition lowPass
                         (integrateVelocity lowPass stillAir 0.05) 0.05) 5 /\
                  velocity next = integrateVelocity lowPass stillAir 0.05).
  { unfold next. rewrite updatePhysics_stages, min_step. simpl.
    set (v := integrateVelocity lowPass stillAir 0.05) in *.
    assert (Hp : Vector3.y (integratePosition lowPass v 0.05) < 5).
    { assert (E : Vector3.y (integratePosition lowPass v 0.05)
                  = 3 + Vector3.y v * 0.05) by reflexivity.
      rewrite E. lra. }
    unfold groundCollision.
    destruct (Rlt_dec (Vector3.y (integratePosition lowPass v 0.05)) 5);
      [| contradiction].
    destruct (Rlt_dec (Vector3.y v) 0); [lra |].
    split; reflexivity. }
  destruct Hnext as [Hpos Hvel].
  rewrite Hpos, Hvel.
  repeat split; try reflexivity; try lra.
  apply noseUp_unit.
Qed.

(** ** Pitch stability *)

(** *** A level glider at rest in still air *)

Lemma rest_forces :
  calculateAeroForces Vector3.zero Quaternion.identity stillAir
  = mkAeroForces Vector3.zero Vector3.zero Vector3.zero.
Proof.
  unfold calculateAeroForces. rewrite sub_stillAir, length_zero.
  destruct (Rlt_dec 0 0.5); [reflexivity | lra].
Qed.

Lemma rest_integrateVelocity :
  integrateVelocity atRest stillAir 0.05 = Vector3.mk 0 (-0.4905) 0.
Proof.
  unfold integrateVelocity. simpl. rewrite rest_forces. simpl.
  unfold Vector3.add, Vector3.divideScalar, Vector3.multiplyScalar, Vector3.zero,
    GRAVITY, MASS. simpl.
  vec_eq.
Qed.

Lemma rest_responded :
  respondedAngularVel atRest centred (Vector3.mk 0 (-0.4905) 0) 0.05 = Vector3.zero.
Proof.
  unfold respondedAngularVel, applyWeathervane.
  rewrite length_down by lra.
  destruct (Rlt_dec (- -0.4905) 5); [| lra].
  unfold applyDamping, applyControlInputs, Vector3.zero. simpl. vec_eq.
Qed.

Lemma rest_correctionAlpha : correctionAlpha atRest stillAir = 0.
Proof.
  unfold correctionAlpha. rewrite sub_stillAir. simpl.
  unfold calculateAngleOfAttack. rewrite length_zero.
  destruct (Rlt_dec 0 0.1); [reflexivity | lra].
Qed.

Lemma rest_updatedAlpha : updatedAlpha atRest stillAir 0.05 = Math.PI / 2.
Proof.
  unfold updatedAlpha. rewrite sub_stillAir, rest_integrateVelocity. simpl.
  apply down_alpha. lra.
Qed.

Lemma pitchStability_cases (alpha : R) (controls : ControlInput) (dt : R)
    (w : Vector3.t) :
  let target := 4 * (Math.PI / 180) in
  (Rabs (alpha - target) > 2 * (Math.PI / 180) /\ Rabs (pitch controls) < 0.3 ->
   pitchStability alpha controls dt w
   = Vector3.mk (Vector3.x w + (alpha - target) * 0.5 * dt * 3)
                (Vector3.y w) (Vector3.z w)) /\
  (~ (Rabs (alpha - target) > 2 * (Math.PI / 180) /\ Rabs (pitch controls) < 0.3) ->
   pitchStability alpha controls dt w = w).
Proof.
  intros target. unfold pitchStability, Math.abs. fold target.
  destruct (Rgt_dec (Rabs (alpha - target)) (2 * (Math.PI / 180)));
    [destruct (Rlt_dec (Rabs (pitch controls)) 0.3) |];
    split; intros H; try reflexivity; tauto.
Qed.

Lemma stallNoseDrop_none (alpha dt : R) (w : Vector3.t) :
  STALL_ALPHA_NEG <= alpha <= STALL_ALPHA_POS -> stallNoseDrop alpha dt w = w.
Proof.
  intros [Hlo Hhi]. unfold stallNoseDrop.
  destruct (Rgt_dec alpha STALL_ALPHA_POS); [lra |].
  destruct (Rlt_dec alpha STALL_ALPHA_NEG); [lra | reflexivity].
Qed.

(** C4, as worded, fails: for a level glider at rest in still air, stepped by
    0.05 s with centred controls, the source reads the angle of attack 0 from
    the velocity of the state and returns the pitch rate -PI/600, while the
    angle of attack of the velocity after integration is 90 degrees and would
    give the positive pitch rate (86 degrees) * 0.5 * 0.05 * 3. *)
Lemma pitchStability_not_from_updated_velocity :
  let dt := Math.min 0.05 0.05 in
  let newVelocity := integrateVelocity atRest stillAir dt in
  let w := respondedAngularVel atRest centred newVelocity dt in
  correctionAlpha atRest stillAir = 0 /\
  updatedAlpha atRest stillAir dt = Math.PI / 2 /\
  angularVelocity (updatePhysics atRest centred stillAir 0.05)
  = Vector3.mk (- (Math.PI / 600)) 0 0 /\
  pitchStability (updatedAlpha atRest stillAir dt) centred dt w
  = Vector3.mk (86 * (Math.PI / 180) * 0.5 * 0.05 * 3) 0 0 /\
  Vector3.x (angularVelocity (updatePhysics atRest centred stillAir 0.05))
  <> Vector3.x (pitchStability (updatedAlpha atRest stillAir dt) centred dt w).
Proof.
  cbv zeta. rewrite min_step, rest_integrateVelocity, rest_responded,
    rest_updatedAlpha.
  pi_bounds.
  assert (Hcode : angularVelocity (updatePhysics atRest centred stillAir 0.05)
                  = Vector3.mk (- (Math.PI / 600)) 0 0).
  { rewrite updatePhysics_stages. simpl.
    rewrite min_step, rest_integrateVelocity, rest_responded, rest_correctionAlpha.
    rewrite stallNoseDrop_none
      by (unfold STALL_ALPHA_NEG, STALL_ALPHA_POS; lra).
    rewrite (proj1 (pitchStability_cases 0 centred 0.05 Vector3.zero)).
    - unfold Vector3.zero. vec_eq.
    - simpl. rewrite Rabs_R0. rewrite Rabs_left by lra. lra. }
  assert (Hspec : pitchStability (Math.PI / 2) centred 0.05 Vector3.zero
                  = Vector3.mk (86 * (Math.PI / 180) * 0.5 * 0.05 * 3) 0 0).
  { rewrite (proj1 (pitchStability_cases (Math.PI / 2) centred 0.05 Vector3.zero)).
    - unfold Vector3.zero. vec_eq.
    - simpl. rewrite Rabs_R0. rewrite Rabs_pos_eq by lra. lra. }
  repeat split.
  - exact rest_correctionAlpha.
  - exact Hcode.
  - exact Hspec.
  - rewrite Hcode, Hspec. simpl. lra.
Qed.

(** C4, amended: the two pitch corrections of the step read the angle of
    attack of the velocity of the state that the step was given (the velocity
    before integration) less the wind, under the current orientation.  With
    that angle, pitch stability adds (alpha - 4 degrees) * 0.5 * dt * 3 to the
    pitch rate when |alpha - 4 degrees| > 2 degrees and |pitch input| < 0.3,
    and leaves the angular velocity as it is when either condition fails; the
    stall nose-drop then applies to its result. *)
Theorem pitchStability_uses_state_velocity state controls windField deltaTime :
  let dt := Math.min deltaTime 0.05 in
  let newVelocity := integrateVelocity state windField dt in
  let w := respondedAngularVel state controls newVelocity dt in
  let alpha :=
    calculateAngleOfAttack (Vector3.sub (velocity state) (fullWind windField))
                           (quaternion state) in
  let target := 4 * (Math.PI / 180) in
  angularVelocity (updatePhysics state controls windField deltaTime)
  = stallNoseDrop alpha dt (pitchStability alpha controls dt w) /\
  (Rabs (alpha - target) > 2 * (Math.PI / 180) /\ Rabs (pitch controls) < 0.3 ->
   pitchStability alpha controls dt w
   = Vector3.mk (Vector3.x w + (alpha - target) * 0.5 * dt * 3)
                (Vector3.y w) (Vector3.z w)) /\
  (~ (Rabs (alpha - target) > 2 * (Math.PI / 180) /\ Rabs (pitch controls) < 0.3) ->
   pitchStability alpha controls dt w = w).
Proof.
  intros dt newVelocity w alpha target.
  split.
  - rewrite updatePhysics_stages. reflexivity.
  - exact (pitchStability_cases alpha controls dt w).
Qed.

Lemma pitchStability_uses_state_velocity_witness :
  pitchStability 0 centred 0.05 Vector3.zero
  = Vector3.mk (0 + (0 - 4 * (Math.PI / 180)) * 0.5 * 0.05 * 3) 0 0.
Proof.
  pose proof (proj1 (proj2 (pitchStability_uses_state_velocity
                              atRest centred stillAir 0.05))) as H.
  cbv zeta in H.
  rewrite min_step, rest_integrateVelocity, rest_responded in H.
  change (calculateAngleOfAttack
            (Vector3.sub (velocity atRest) (fullWind stillAir)) (quaternion atRest))
    with (correctionAlpha atRest stillAir) in H.
  rewrite rest_correctionAlpha in H.
  apply H. pi_bounds. simpl.
  rewrite Rabs_R0. rewrite Rabs_left by lra. lra.
Defined.

(** ** The thermal population *)

Section ThermalProperties.

Variable random : nat -> R.
Variable toString36 : R -> string.

(** The spawning loop only appends. *)
Lemma spawn_appends (fuel : nat) : forall ts n,
  exists spawned, fst (spawn random toString36 fuel ts n) = ts ++ spawned.
Proof.
  induction fuel as [| fuel IH]; intros ts n; simpl.
  - exists []. rewrite app_nil_r.
    destruct (List.length ts <? THERMAL_COUNT)%nat; reflexivity.
  - destruct (List.length ts <? THERMAL_COUNT)%nat.
    + unfold bind. destruct (createThermal random toString36 ts n) as [t n'].
      destruct (IH (ts ++ [t]) n') as [spawned E].
      exists (t :: spawned).  rewrite E, <- app_assoc. reflexivity.
    + exists []. rewrite app_nil_r. reflexivity.
Qed.

(** With enough fuel for the missing thermals, the loop stops at
    [THERMAL_COUNT] thermals, or at once when there are that many. *)
Lemma spawn_length (fuel : nat) : forall ts n,
  (THERMAL_COUNT <= List.length ts + fuel)%nat ->
  List.length (fst (spawn random toString36 fuel ts n)) = Nat.max (List.length ts) THERMAL_COUNT.
Proof.
  induction fuel as [| fuel IH]; intros ts n Hfuel; simpl.
  - destruct (Nat.ltb_spec (List.length ts) THERMAL_COUNT); simpl; lia.
  - destruct (Nat.ltb_spec (List.length ts) THERMAL_COUNT) as [Hlt | Hge].
    + unfold bind. destruct (createThermal random toString36 ts n) as [t n'].
       rewrite IH; rewrite length_app; simpl; lia.
    + simpl. lia.
Qed.

(** [THERMAL_COUNT] turns are enough: the loop leaves through its test. *)
Lemma spawn_fuel_enough (ts : list Thermal) (n : nat) :
  (List.length (fst (spawn random toString36 THERMAL_COUNT ts n)) <? THERMAL_COUNT)%nat = false.
Proof.
  rewrite spawn_length by lia. apply Nat.ltb_ge. lia.
Qed.

Lemma survivors_length_le (dx dz dt : R) (ts : list Thermal) :
  (List.length (survivors dx dz dt ts) <= List.length ts)%nat.
Proof.
  induction ts as [| t ts IH]; simpl; [lia |].
  destruct (ageAndDrift dx dz dt t); simpl; lia.
Qed.

Lemma survivors_all_alive (dx dz dt : R) (ts : list Thermal) :
  Forall (fun t => age t + dt <= lifetime t) ts ->
  List.length (survivors dx dz dt ts) = List.length ts.
Proof.
  induction 1 as [| t ts Ht _ IH]; simpl; [reflexivity |].
  unfold ageAndDrift.
  destruct (Rgt_dec (age t + dt) (lifetime t)); [lra |].
  simpl. rewrite IH. reflexivity.
Qed.

(** The [for] loop as a filter followed by a map. *)
Lemma survivors_filter_map (dx dz dt : R) (ts : list Thermal) :
  survivors dx dz dt ts
  = map (fun t =>
           mkThermal (id t)
             (Vector2.mk (wrapCoordinate (Vector2.x (center t) + dx))
                         (wrapCoordinate (Vector2.y (center t) + dz)))
             (radius t) (strength t) (age t + dt) (lifetime t))
        (filter (fun t => if Rgt_dec (age t + dt) (lifetime t) then false else true)
                ts).
Proof.
  induction ts as [| t ts IH]; simpl; [reflexivity |].
  unfold ageAndDrift.
  destruct (Rgt_dec (age t + dt) (lifetime t)); simpl; rewrite IH; reflexivity.
Qed.

Lemma updateThermalSystem_thermals (state : ThermalSystemState) (dt : R) (n : nat) :
  thermals (fst (updateThermalSystem random toString36 state dt n))
  = fst (spawn random toString36 THERMAL_COUNT
           (survivors (Vector3.x (wind state) * THERMAL_DRIFT_FACTOR * dt)
                      (Vector3.z (wind state) * THERMAL_DRIFT_FACTOR * dt)
                      dt (thermals state))
           n).
Proof.
  unfold updateThermalSystem, bind, ret.
   destruct (spawn _ _ _ _ n). reflexivity.
Qed.

Lemma updateThermalSystem_length (state : ThermalSystemState) (dt : R) (n : nat) :
  List.length (thermals (fst (updateThermalSystem random toString36 state dt n)))
  = Nat.max
      (List.length
         (survivors (Vector3.x (wind state) * THERMAL_DRIFT_FACTOR * dt)
                    (Vector3.z (wind state) * THERMAL_DRIFT_FACTOR * dt)
                    dt (thermals state)))
      THERMAL_COUNT.
Proof.
  rewrite updateThermalSystem_thermals. apply spawn_length. lia.
Qed.

Lemma wrapCoordinate_cases (c : R) :
  (c > WORLD_SIZE / 2 -> wrapCoordinate c = c - WORLD_SIZE) /\
  (c < - (WORLD_SIZE / 2) -> wrapCoordinate c = c + WORLD_SIZE) /\
  (- (WORLD_SIZE / 2) <= c <= WORLD_SIZE / 2 -> wrapCoordinate c = c).
Proof.
  unfold wrapCoordinate, WORLD_SIZE.
  destruct (Rgt_dec c (10000 / 2));
    match goal with
    | |- context [Rlt_dec ?a ?b] => destruct (Rlt_dec a b)
    end; repeat split; intros; try reflexivity; lra.
Qed.

Lemma updateRun_cons (state : ThermalSystemState) (dt : R) (dts : list R)
    (n : nat) :
  updateRun random toString36 state (dt :: dts) n
  = fst (updateThermalSystem random toString36 state dt n)
    :: updateRun random toString36
         (fst (updateThermalSystem random toString36 state dt n)) dts
         (snd (updateThermalSystem random toString36 state dt n)).
Proof.
  simpl. destruct (updateThermalSystem random toString36 state dt n).
  reflexivity.
Qed.

End ThermalProperties.

(** C7: in every thermal-system update, the thermals that survive come first
    in the returned population, in their order, each with its age advanced
    and its centre moved by wind * THERMAL_DRIFT_FACTOR * deltaTime (the x of
    the wind on the first axis, its z on the second) and then wrapped on each
    axis: a coordinate above +WORLD_SIZE/2 loses WORLD_SIZE, one below
    -WORLD_SIZE/2 gains it, any other stays; WORLD_SIZE/2 is 5000 and a
    coordinate of 5001 after the drift becomes -4999. *)
Theorem updateThermalSystem_drift_and_wrap
    (random : nat -> R) (toString36 : R -> string)
    (state : ThermalSystemState) (deltaTime : R) (n : nat) :
  let driftX := Vector3.x (wind state) * THERMAL_DRIFT_FACTOR * deltaTime in
  let driftZ := Vector3.z (wind state) * THERMAL_DRIFT_FACTOR * deltaTime in
  let alive t := if Rgt_dec (age t + deltaTime) (lifetime t) then false else true in
  let moved t :=
    mkThermal (id t)
      (Vector2.mk (wrapCoordinate (Vector2.x (center t) + driftX))
                  (wrapCoordinate (Vector2.y (center t) + driftZ)))
      (radius t) (strength t) (age t + deltaTime) (lifetime t) in
  (exists spawned,
     thermals (fst (updateThermalSystem random toString36 state deltaTime n))
     = map moved (filter alive (thermals state)) ++ spawned) /\
  (forall c,
     (c > WORLD_SIZE / 2 -> wrapCoordinate c = c - WORLD_SIZE) /\
     (c < - (WORLD_SIZE / 2) -> wrapCoordinate c = c + WORLD_SIZE) /\
     (- (WORLD_SIZE / 2) <= c <= WORLD_SIZE / 2 -> wrapCoordinate c = c)) /\
  WORLD_SIZE / 2 = 5000 /\
  wrapCoordinate 5001 = -4999.
Proof.
  intros driftX driftZ alive moved.
  split; [| split; [| split]].
  - rewrite updateThermalSystem_thermals.
    fold driftX. fold driftZ.
    rewrite survivors_filter_map. fold alive. fold moved.
    apply spawn_appends.
  - exact wrapCoordinate_cases.
  - unfold WORLD_SIZE. lra.
  - rewrite (proj1 (wrapCoordinate_cases 5001)); unfold WORLD_SIZE; lra.
Qed.

Lemma updateThermalSystem_drift_and_wrap_witness :
  exists spawned,
    thermals (fst (updateThermalSystem (fun _ => 0.5) (fun _ => "a"%string)
                                       nearEdge 1 0%nat))
    = mkThermal "t" (Vector2.mk (-4999) 0) 350 15 1 300 :: spawned.
Proof.
  destruct (updateThermalSystem_drift_and_wrap
              (fun _ => 0.5) (fun _ => "a"%string) nearEdge 1 0%nat)
    as [[spawned E] [Hwrap _]].
  exists spawned. rewrite E. simpl.
  destruct (Rgt_dec (0 + 1) 300); [lra |]. simpl.
  f_equal. f_equal; [f_equal | lra].
  - replace (4994 + 10 * THERMAL_DRIFT_FACTOR * 1) with 5001
      by (unfold THERMAL_DRIFT_FACTOR; lra).
    rewrite (proj1 (Hwrap 5001)); unfold WORLD_SIZE; lra.
  - replace (0 + 0 * THERMAL_DRIFT_FACTOR * 1) with 0 by ring.
    rewrite (proj2 (proj2 (Hwrap 0))); unfold WORLD_SIZE; lra.
Defined.

Lemma crowded_survivors (dx dz : R) :
  List.length (survivors dx dz 1 (thermals crowded)) = 21%nat.
Proof.
  rewrite survivors_all_alive; [reflexivity |].
  apply Forall_forall. intros t Ht. apply repeat_spec in Ht. subst t. simpl. lra.
Qed.

(** C2, as worded, fails: a population of twenty-one young thermals updated by
    one timestep of 1 s comes back with twenty-one thermals, whatever the
    random draws; the update never removes a live thermal. *)
Lemma updateThermalSystem_keeps_excess :
  (forall random toString36 n,
     List.length (thermals (fst (updateThermalSystem random toString36 crowded 1 n)))
     = 21%nat) /\
  ~ (forall random toString36 state dts n,
       Forall (fun dt => 0 < dt) dts ->
       Forall (fun s => List.length (thermals s) = THERMAL_COUNT)
              (updateRun random toString36 state dts n)).
Proof.
  assert (H21 : forall random toString36 n,
     List.length (thermals (fst (updateThermalSystem random toString36 crowded 1 n)))
     = 21%nat).
  { intros. rewrite updateThermalSystem_length, crowded_survivors. reflexivity. }
  split; [exact H21 |].
  intros H.
  specialize (H (fun _ => 0) (fun _ => "a"%string) crowded [1] 0%nat).
  assert (Hpos : Forall (fun dt => 0 < dt) [1]) by (repeat constructor; lra).
  specialize (H Hpos). rewrite updateRun_cons in H.
  apply Forall_inv in H. rewrite H21 in H. discriminate.
Qed.

Lemma updateRun_count (random : nat -> R) (toString36 : R -> string)
    (dts : list R) : forall state n,
  (List.length (thermals state) <= THERMAL_COUNT)%nat ->
  Forall (fun s => List.length (thermals s) = THERMAL_COUNT)
         (updateRun random toString36 state dts n).
Proof.
  induction dts as [| dt dts IH]; intros state n Hle.
  - constructor.
  - rewrite updateRun_cons.
    pose proof (updateThermalSystem_length random toString36 state dt n) as Hlen.
    pose proof (survivors_length_le
                  (Vector3.x (wind state) * THERMAL_DRIFT_FACTOR * dt)
                  (Vector3.z (wind state) * THERMAL_DRIFT_FACTOR * dt)
                  dt (thermals state)) as Hsurv.
    assert (E : List.length
                  (thermals (fst (updateThermalSystem random toString36 state dt n)))
                = THERMAL_COUNT) by lia.
    constructor; [exact E |].
    apply IH. lia.
Qed.

(** C2, amended: an update returns max(survivors, THERMAL_COUNT) thermals,
    where the survivors are the thermals whose advanced age does not exceed
    their lifetime; so from a starting population of at most THERMAL_COUNT
    (20) thermals, every state returned along any sequence of updates, of any
    timesteps, has exactly THERMAL_COUNT thermals, and a larger population
    stays larger for as long as more than THERMAL_COUNT of its thermals
    live. *)
Theorem updateThermalSystem_count (random : nat -> R) (toString36 : R -> string) :
  (forall state deltaTime n,
     List.length (thermals (fst (updateThermalSystem random toString36
                                                     state deltaTime n)))
     = Nat.max
         (List.length
            (filter (fun t => if Rgt_dec (age t + deltaTime) (lifetime t)
                              then false else true)
                    (thermals state)))
         THERMAL_COUNT) /\
  (forall state dts n,
     (List.length (thermals state) <= THERMAL_COUNT)%nat ->
     Forall (fun s => List.length (thermals s) = THERMAL_COUNT)
            (updateRun random toString36 state dts n)).
Proof.
  split.
  - intros state deltaTime n.
    rewrite updateThermalSystem_length, survivors_filter_map, length_map.
    reflexivity.
  - intros state dts n. apply updateRun_count.
Qed.

Lemma updateThermalSystem_count_witness :
  Forall (fun s => List.length (thermals s) = THERMAL_COUNT)
         (updateRun (fun k => / (INR k + 2)) (fun _ => "a"%string)
                    nearEdge [1; 200; 400] 0%nat).
Proof.
  apply (proj2 (updateThermalSystem_count
                  (fun k => / (INR k + 2)) (fun _ => "a"%string))).
  simpl. unfold THERMAL_COUNT. lia.
Defined.

(** * Further properties of the flight model *)

(** ** Drag polar and aerodynamic forces *)

(** X1: along the lift curve the drag coefficient stays between the parasitic
    drag [CD_0] = 0.018 and 0.018 + 0.045 * 1.2^2 = 0.0828. *)
Theorem calculateCD_on_lift_curve (alpha : R) :
  CD_0 <= calculateCD (calculateCL alpha) <= 0.0828.
Proof.
  destruct (calculateCL_branches alpha) as [[Hlo Hhi] _].
  unfold calculateCD, CD_0, K_DRAG. set (cl := calculateCL alpha) in *.
  split; nra.
Qed.

Lemma dot_multiplyScalar_l (u a : Vector3.t) (s : R) :
  Vector3.dot (Vector3.multiplyScalar u s) a = s * Vector3.dot u a.
Proof. unfold Vector3.dot, Vector3.multiplyScalar. simpl. ring. Qed.

Lemma dot_self_nonneg (a : Vector3.t) : 0 <= Vector3.dot a a.
Proof. unfold Vector3.dot. nra. Qed.

Lemma dot_cross_scaled (a b : Vector3.t) (k : R) :
  Vector3.dot (Vector3.cross (Vector3.multiplyScalar a k) b) a = 0.
Proof. unfold Vector3.dot, Vector3.cross, Vector3.multiplyScalar. simpl. ring. Qed.

(** Normalizing multiplies by a positive factor. *)
Lemma normalize_scales (u : Vector3.t) :
  exists k, 0 < k /\ Vector3.normalize u = Vector3.multiplyScalar u k.
Proof.
  unfold Vector3.normalize, Vector3.divideScalar.
  destruct (Req_dec_T (Vector3.length u) 0) as [E | E].
  - exists (1 / 1). split; [lra | reflexivity].
  - exists (1 / Vector3.length u). split; [| reflexivity].
    pose proof (length_nonneg u).
    apply Rdiv_lt_0_compat; lra.
Qed.

Lemma sign_times_self (a : R) : Math.sign a * a = Rabs a.
Proof.
  unfold Math.sign.
  destruct (Rlt_dec 0 a); [rewrite Rabs_pos_eq by lra; ring |].
  destruct (Rlt_dec a 0); [rewrite Rabs_left by lra; ring |].
  replace a with 0 by lra. rewrite Rabs_R0. ring.
Qed.

(** X2: the aerodynamic forces never feed energy into the motion through the
    air: the lift is perpendicular to the air-relative velocity, and the drag
    and the side force each have a non-positive component along it; below an
    airspeed of 0.5 m/s all three forces are zero. *)
Theorem calculateAeroForces_dissipate
    (velocity : Vector3.t) (q : Quaternion.t) (windField : WindField) :
  let airVelocity := Vector3.sub velocity (fullWind windField) in
  let forces := calculateAeroForces velocity q windField in
  Vector3.dot (lift forces) airVelocity = 0 /\
  Vector3.dot (drag forces) airVelocity <= 0 /\
  Vector3.dot (sideForce forces) airVelocity <= 0 /\
  (Vector3.length airVelocity < 0.5 ->
   forces = mkAeroForces Vector3.zero Vector3.zero Vector3.zero).
Proof.
  intros airVelocity forces. unfold forces, calculateAeroForces.
  fold airVelocity.
  destruct (Rlt_dec (Vector3.length airVelocity) 0.5) as [Hslow | Hfast].
  - simpl. unfold Vector3.dot, Vector3.zero. simpl. repeat split; lra.
  - simpl.
    assert (Hguard : forall f : AeroForces,
               Vector3.length airVelocity < 0.5 ->
               f = mkAeroForces Vector3.zero Vector3.zero Vector3.zero)
      by (intros f Hlt; contradiction).
    destruct (normalize_scales airVelocity) as [k [Hk ->]].
    destruct (normalize_scales
                (Vector3.cross (Vector3.multiplyScalar airVelocity k)
                               (getRightVector q))) as [k' [Hk' ->]].
    set (speed := Vector3.length airVelocity) in *.
    set (cl := calculateCL _).
    assert (Hq : 0 <= 0.5 * RHO * speed * speed) by (unfold RHO; nra).
    set (qdyn := 0.5 * RHO * speed * speed) in *. clearbody qdyn.
    split; [| split; [| split; [| apply Hguard]]].
    + rewrite !dot_multiplyScalar_l, dot_cross_scaled. ring.
    + rewrite dot_multiplyScalar_l.
      replace (Vector3.dot (Vector3.negate (Vector3.multiplyScalar airVelocity k))
                           airVelocity)
        with (- (k * Vector3.dot airVelocity airVelocity))
        by (unfold Vector3.dot, Vector3.negate, Vector3.multiplyScalar; simpl; ring).
      pose proof (dot_self_nonneg airVelocity) as Hd.
      assert (Hcd : 0 <= calculateCD cl) by (unfold calculateCD, CD_0, K_DRAG; nra).
      assert (Hmag : 0 <= qdyn * WING_AREA_S * calculateCD cl).
      { apply Rmult_le_pos; [apply Rmult_le_pos |]; try assumption.
        unfold WING_AREA_S. lra. }
      assert (Hkd : 0 <= k * Vector3.dot airVelocity airVelocity)
        by (apply Rmult_le_pos; lra).
      nra.
    + rewrite !dot_multiplyScalar_l.
      set (right := getRightVector q).
      replace (Vector3.dot right airVelocity) with (Vector3.dot airVelocity right)
        by (unfold Vector3.dot; ring).
      set (sc := Vector3.dot airVelocity right).
      unfold Math.abs.
      replace (qdyn * WING_AREA_S * Rabs sc * 0.1 * SIDE_DRAG_FACTOR
               * (- Math.sign sc * sc))
        with (- (qdyn * WING_AREA_S * 0.1 * SIDE_DRAG_FACTOR * (Rabs sc * Rabs sc)))
        by (rewrite <- (sign_times_self sc); ring).
      pose proof (Rabs_pos sc) as Habs.
      assert (H1 : 0 <= Rabs sc * Rabs sc) by (apply Rmult_le_pos; assumption).
      assert (H2 : 0 <= qdyn * (Rabs sc * Rabs sc))
        by (apply Rmult_le_pos; assumption).
      unfold WING_AREA_S, SIDE_DRAG_FACTOR. lra.
Qed.

Lemma calculateAeroForces_dissipate_witness :
  calculateAeroForces (Vector3.mk 0 0.3 0.2) Quaternion.identity stillAir
  = mkAeroForces Vector3.zero Vector3.zero Vector3.zero.
Proof.
  apply (calculateAeroForces_dissipate (Vector3.mk 0 0.3 0.2) Quaternion.identity
                                       stillAir).
  rewrite sub_stillAir. unfold Vector3.length, Math.sqrt. simpl.
  replace 0.5 with (sqrt (0.5 * 0.5)) by (apply sqrt_square; lra).
  apply sqrt_lt_1_alt. lra.
Defined.

(** ** Control response *)

(** X3: [applyControlInputs] shrinks the distance of each rate to its target
    by the factor 1 - gain * dt (gain 4 for pitch and yaw, 5 for roll); so
    for a timestep from 0 to 0.05 no rate moves away from its target or past
    it.  The yaw target does not depend on the roll input. *)
Theorem applyControlInputs_approaches_target
    (w : Vector3.t) (controls : ControlInput) (dt : R) :
  let targetPitch := - pitch controls * MAX_PITCH_RATE in
  let targetYaw := - yaw controls * MAX_YAW_RATE in
  let targetRoll := roll controls * MAX_ROLL_RATE in
  let w' := applyControlInputs w controls dt in
  (Vector3.x w' - targetPitch = (1 - 4 * dt) * (Vector3.x w - targetPitch) /\
   Vector3.y w' - targetYaw = (1 - 4 * dt) * (Vector3.y w - targetYaw) /\
   Vector3.z w' - targetRoll = (1 - 5 * dt) * (Vector3.z w - targetRoll)) /\
  (0 <= dt <= 0.05 ->
   Rabs (Vector3.x w' - targetPitch) <= Rabs (Vector3.x w - targetPitch) /\
   Rabs (Vector3.y w' - targetYaw) <= Rabs (Vector3.y w - targetYaw) /\
   Rabs (Vector3.z w' - targetRoll) <= Rabs (Vector3.z w - targetRoll) /\
   0 <= (Vector3.x w' - targetPitch) * (Vector3.x w - targetPitch) /\
   0 <= (Vector3.y w' - targetYaw) * (Vector3.y w - targetYaw) /\
   0 <= (Vector3.z w' - targetRoll) * (Vector3.z w - targetRoll)).
Proof.
  intros targetPitch targetYaw targetRoll w'.
  assert (Hx : Vector3.x w' - targetPitch = (1 - 4 * dt) * (Vector3.x w - targetPitch)).
  { unfold w', applyControlInputs, targetPitch. simpl.
    replace 4.0 with 4 by lra. ring. }
  assert (Hy : Vector3.y w' - targetYaw = (1 - 4 * dt) * (Vector3.y w - targetYaw)).
  { unfold w', applyControlInputs, targetYaw, RUDDER_COORDINATION. simpl.
    replace 4.0 with 4 by lra. ring. }
  assert (Hz : Vector3.z w' - targetRoll = (1 - 5 * dt) * (Vector3.z w - targetRoll)).
  { unfold w', applyControlInputs, targetRoll. simpl.
    replace 5.0 with 5 by lra. ring. }
  split; [repeat split; assumption |].
  intros Hdt. rewrite Hx, Hy, Hz.
  assert (Hshrink : forall f e, 0 <= f <= 1 -> Rabs (f * e) <= Rabs e /\ 0 <= f * e * e).
  { intros f e Hf. split.
    - rewrite Rabs_mult, (Rabs_pos_eq f) by lra.
      pose proof (Rabs_pos e). nra.
    - nra. }
  destruct (Hshrink (1 - 4 * dt) (Vector3.x w - targetPitch)) as [? ?]; [lra |].
  destruct (Hshrink (1 - 4 * dt) (Vector3.y w - targetYaw)) as [? ?]; [lra |].
  destruct (Hshrink (1 - 5 * dt) (Vector3.z w - targetRoll)) as [? ?]; [lra |].
  repeat split; assumption.
Qed.

Lemma applyControlInputs_approaches_target_witness :
  Rabs (Vector3.z (applyControlInputs Vector3.zero (mkControlInput 0 1 0) 0.05)
        - 1 * MAX_ROLL_RATE)
  <= Rabs (Vector3.z Vector3.zero - 1 * MAX_ROLL_RATE).
Proof.
  apply (proj2 (applyControlInputs_approaches_target
                  Vector3.zero (mkControlInput 0 1 0) 0.05)).
  lra.
Defined.

(** X4: for a timestep from 0 to 0.05, [applyDamping] keeps the sign of each
    rate, does not increase its magnitude, and does not increase the length
    of the angular velocity. *)
Theorem applyDamping_contracts (w : Vector3.t) (dt : R) :
  0 <= dt <= 0.05 ->
  let w' := applyDamping w dt in
  (Rabs (Vector3.x w') <= Rabs (Vector3.x w) /\ 0 <= Vector3.x w' * Vector3.x w) /\
  (Rabs (Vector3.y w') <= Rabs (Vector3.y w) /\ 0 <= Vector3.y w' * Vector3.y w) /\
  (Rabs (Vector3.z w') <= Rabs (Vector3.z w) /\ 0 <= Vector3.z w' * Vector3.z w) /\
  Vector3.length w' <= Vector3.length w.
Proof.
  intros Hdt w'. unfold w', applyDamping, PITCH_DAMP, YAW_DAMP, ROLL_DAMP.
  destruct w as [a b c]. simpl.
  assert (Hshrink : forall e f, 0 <= f <= 1 -> Rabs (e * f) <= Rabs e /\ 0 <= e * f * e).
  { intros e f Hf. split.
    - rewrite Rabs_mult, (Rabs_pos_eq f) by lra.
      pose proof (Rabs_pos e). nra.
    - nra. }
  repeat split; try (apply Hshrink; lra).
  unfold Vector3.length, Math.sqrt. simpl.
  apply sqrt_le_1_alt.
  assert (Hsq : forall e f, 0 <= f <= 1 -> e * f * (e * f) <= e * e).
  { intros e f Hf. assert (f * f <= 1) by nra.
    replace (e * f * (e * f)) with (e * e * (f * f)) by ring.
    assert (0 <= e * e) by nra. nra. }
  pose proof (Hsq a (1 - 0.12 * dt * 10)).
  pose proof (Hsq b (1 - 0.25 * dt * 10)).
  pose proof (Hsq c (1 - 0.15 * dt * 10)).
  lra.
Qed.

Lemma applyDamping_contracts_witness :
  Vector3.length (applyDamping (Vector3.mk 0.1 0.2 0.3) 0.05)
  <= Vector3.length (Vector3.mk 0.1 0.2 0.3).
Proof.
  apply (applyDamping_contracts (Vector3.mk 0.1 0.2 0.3) 0.05). lra.
Defined.

(** ** Stall recovery and the pitch corrections *)

Lemma min_timestep_range (deltaTime : R) :
  0 <= deltaTime -> 0 <= Math.min deltaTime 0.05 <= 0.05.
Proof.
  intros H. unfold Math.min, Rmin. destruct (Rle_dec deltaTime 0.05); lra.
Qed.

(** X5: for a timestep that is not negative, the stall nose-drop changes only
    the pitch rate; above the positive stall angle it raises it by at most
    7.5 * dt, and by exactly that from 10 degrees past the stall angle on;
    below the negative stall angle it lowers it by at most 7.5 * dt; between
    the stall angles it changes nothing. *)
Theorem stallNoseDrop_bounded (alpha dt : R) (w : Vector3.t) :
  0 <= dt ->
  let w' := stallNoseDrop alpha dt w in
  Vector3.y w' = Vector3.y w /\
  Vector3.z w' = Vector3.z w /\
  (alpha > STALL_ALPHA_POS ->
   Vector3.x w <= Vector3.x w' <= Vector3.x w + 7.5 * dt) /\
  (alpha >= STALL_ALPHA_POS + Math.PI / 18 ->
   Vector3.x w' = Vector3.x w + 7.5 * dt) /\
  (alpha < STALL_ALPHA_NEG ->
   Vector3.x w - 7.5 * dt <= Vector3.x w' <= Vector3.x w) /\
  (STALL_ALPHA_NEG <= alpha <= STALL_ALPHA_POS -> w' = w).
Proof.
  intros Hdt w'. pi_bounds.
  assert (Hsep : STALL_ALPHA_NEG < STALL_ALPHA_POS).
  { unfold STALL_ALPHA_NEG, STALL_ALPHA_POS. lra. }
  assert (Hpi : 0 < Math.PI / 18) by lra.
  assert (Hsev : forall e, 0 < e -> 0 < Math.min 1 (e / (Math.PI / 18)) <= 1).
  { intros e He.
    assert (0 < e / (Math.PI / 18)) by (apply Rdiv_lt_0_compat; assumption).
    unfold Math.min, Rmin. destruct (Rle_dec 1 (e / (Math.PI / 18))); lra. }
  assert (Hfull : forall e, Math.PI / 18 <= e -> Math.min 1 (e / (Math.PI / 18)) = 1).
  { intros e He.
    assert (1 <= e / (Math.PI / 18)).
    { apply (Rmult_le_reg_r (Math.PI / 18)); [assumption |].
      unfold Rdiv at 2. rewrite Rmult_assoc, Rinv_l by lra. lra. }
    unfold Math.min, Rmin. destruct (Rle_dec 1 (e / (Math.PI / 18))); lra. }
  unfold w', stallNoseDrop.
  destruct (Rgt_dec alpha STALL_ALPHA_POS) as [Hp | Hp];
    [| destruct (Rlt_dec alpha STALL_ALPHA_NEG) as [Hn | Hn]]; simpl.
  - destruct (Hsev (alpha - STALL_ALPHA_POS)) as [H1 H2]; [lra |].
    set (m := Math.min 1 ((alpha - STALL_ALPHA_POS) / (Math.PI / 18))) in *.
    repeat split; try reflexivity; intros; try lra; try nra.
    unfold m. rewrite Hfull by lra. lra.
  - destruct (Hsev (STALL_ALPHA_NEG - alpha)) as [H1 H2]; [lra |].
    set (m := Math.min 1 ((STALL_ALPHA_NEG - alpha) / (Math.PI / 18))) in *.
    repeat split; try reflexivity; intros; try lra; nra.
  - repeat split; try reflexivity; intros; lra.
Qed.

Lemma stallNoseDrop_bounded_witness :
  Vector3.x (stallNoseDrop (Math.PI / 2) 0.05 Vector3.zero)
  = Vector3.x Vector3.zero + 7.5 * 0.05.
Proof.
  apply (stallNoseDrop_bounded (Math.PI / 2) 0.05 Vector3.zero); [lra |].
  unfold STALL_ALPHA_POS. pi_bounds. lra.
Defined.

Lemma Rabs_le_bounds (a b : R) : Rabs a <= b -> - b <= a <= b.
Proof. unfold Rabs. destruct (Rcase_abs a); lra. Qed.

Lemma corrections_keep_yaw_roll (alpha : R) (controls : ControlInput) (dt : R)
    (w : Vector3.t) :
  Vector3.y (stallNoseDrop alpha dt (pitchStability alpha controls dt w)) = Vector3.y w /\
  Vector3.z (stallNoseDrop alpha dt (pitchStability alpha controls dt w)) = Vector3.z w.
Proof.
  unfold stallNoseDrop, pitchStability.
  destruct (Rgt_dec alpha STALL_ALPHA_POS);
    [| destruct (Rlt_dec alpha STALL_ALPHA_NEG)];
    destruct (Rgt_dec _ _); try destruct (Rlt_dec (Math.abs _) _);
    simpl; split; reflexivity.
Qed.

Lemma applyWeathervane_keeps_pitch_roll (w v : Vector3.t) (q : Quaternion.t) (dt : R) :
  Vector3.x (applyWeathervane w v q dt) = Vector3.x w /\
  Vector3.z (applyWeathervane w v q dt) = Vector3.z w.
Proof.
  unfold applyWeathervane.
  destruct (Rlt_dec _ _); [split; reflexivity |].
  destruct (Rlt_dec _ _); split; reflexivity.
Qed.

(** X6: in a physics step, the two pitch corrections leave the yaw and roll
    rates as controls, damping and weathervane made them, and the weathervane
    leaves the roll rate alone; so with a roll input in [-1, 1] and a
    timestep that is not negative, a roll rate within [MAX_ROLL_RATE] stays
    within it. *)
Theorem updatePhysics_roll_rate_bounded state controls windField deltaTime :
  let dt := Math.min deltaTime 0.05 in
  let newVelocity := integrateVelocity state windField dt in
  let next := updatePhysics state controls windField deltaTime in
  (Vector3.y (angularVelocity next)
   = Vector3.y (respondedAngularVel state controls newVelocity dt) /\
   Vector3.z (angularVelocity next)
   = Vector3.z (applyDamping (applyControlInputs (angularVelocity state) controls dt) dt)) /\
  (Rabs (roll controls) <= 1 ->
   Rabs (Vector3.z (angularVelocity state)) <= MAX_ROLL_RATE ->
   0 <= deltaTime ->
   Rabs (Vector3.z (angularVelocity next)) <= MAX_ROLL_RATE).
Proof.
  intros dt newVelocity next.
  assert (Hyz :
    Vector3.y (angularVelocity next)
    = Vector3.y (respondedAngularVel state controls newVelocity dt) /\
    Vector3.z (angularVelocity next)
    = Vector3.z (applyDamping (applyControlInputs (angularVelocity state) controls dt) dt)).
  { unfold next. rewrite updatePhysics_stages. simpl. fold dt. fold newVelocity.
    destruct (corrections_keep_yaw_roll
                (correctionAlpha state windField) controls dt
                (respondedAngularVel state controls newVelocity dt)) as [Hy Hz].
    split; [exact Hy |]. rewrite Hz. unfold respondedAngularVel.
    apply applyWeathervane_keeps_pitch_roll. }
  split; [exact Hyz |].
  intros Hroll Hrate Hdt. rewrite (proj2 Hyz).
  destruct (min_timestep_range deltaTime Hdt) as [H0 H1]. fold dt in H0, H1.
  assert (Hmax : 0 < MAX_ROLL_RATE) by (unfold MAX_ROLL_RATE; pi_bounds; lra).
  unfold applyDamping, applyControlInputs, ROLL_DAMP. simpl.
  replace 5.0 with 5 by lra.
  set (z := Vector3.z (angularVelocity state)) in *.
  set (r := roll controls) in *.
  apply Rabs_le. apply Rabs_le_bounds in Hroll. apply Rabs_le_bounds in Hrate.
  assert (Ht : - MAX_ROLL_RATE <= r * MAX_ROLL_RATE <= MAX_ROLL_RATE) by nra.
  set (t := r * MAX_ROLL_RATE) in *.
  assert (Hc : - MAX_ROLL_RATE <= z + (t - z) * 5 * dt <= MAX_ROLL_RATE) by nra.
  set (c := z + (t - z) * 5 * dt) in *.
  assert (Hf : 0 <= 1 - 0.15 * dt * 10 <= 1) by lra.
  set (f := 1 - 0.15 * dt * 10) in *.
  split; nra.
Qed.

Lemma updatePhysics_roll_rate_bounded_witness :
  Rabs (Vector3.z (angularVelocity
                     (updatePhysics atRest (mkControlInput 0 1 0) stillAir 0.02)))
  <= MAX_ROLL_RATE.
Proof.
  apply (proj2 (updatePhysics_roll_rate_bounded
                  atRest (mkControlInput 0 1 0) stillAir 0.02)); simpl.
  - rewrite Rabs_pos_eq; lra.
  - rewrite Rabs_R0. unfold MAX_ROLL_RATE. pi_bounds. lra.
  - lra.
Defined.

(** ** The step as a whole *)

(** X7: a long frame is cut to 50 ms: any timestep of 0.05 or more gives the
    state that the timestep 0.05 gives. *)
Theorem updatePhysics_clamps_timestep state controls windField deltaTime :
  0.05 <= deltaTime ->
  updatePhysics state controls windField deltaTime
  = updatePhysics state controls windField 0.05.
Proof.
  intros H. unfold updatePhysics.
  replace (Math.min deltaTime 0.05) with (Math.min 0.05 0.05); [reflexivity |].
  unfold Math.min, Rmin.
  destruct (Rle_dec 0.05 0.05); destruct (Rle_dec deltaTime 0.05); lra.
Qed.

Lemma updatePhysics_clamps_timestep_witness :
  updatePhysics atRest centred stillAir 2 = updatePhysics atRest centred stillAir 0.05.
Proof.
  apply (updatePhysics_clamps_timestep atRest centred stillAir 2). lra.
Defined.

Lemma groundCollision_floor (p v : Vector3.t) :
  5 <= Vector3.y (fst (groundCollision p v)) /\
  (5 <= Vector3.y p -> groundCollision p v = (p, v)).
Proof.
  unfold groundCollision.
  destruct (Rlt_dec (Vector3.y p) 5) as [Hlow | Hhigh].
  - destruct (Rlt_dec (Vector3.y v) 0); cbn [fst Vector3.set_y Vector3.y];
      (split; [lra | intros Hge; exfalso; lra]).
  - cbn [fst]. split; [lra | reflexivity].
Qed.

(** X8: whatever the state, the controls, the wind and the timestep, the
    altitude that a physics step returns is at least 5 m; and when the
    integrated altitude is at least 5 m, the step returns the integrated
    position and velocity untouched. *)
Theorem updatePhysics_altitude_floor state controls windField deltaTime :
  let dt := Math.min deltaTime 0.05 in
  let newVelocity := integrateVelocity state windField dt in
  let newPosition := integratePosition state newVelocity dt in
  let next := updatePhysics state controls windField deltaTime in
  5 <= Vector3.y (position next) /\
  (5 <= Vector3.y newPosition ->
   position next = newPosition /\ velocity next = newVelocity).
Proof.
  intros dt newVelocity newPosition next.
  unfold next. rewrite updatePhysics_stages. cbn [position velocity].
  fold dt. fold newVelocity. fold newPosition.
  destruct (groundCollision_floor newPosition newVelocity) as [H1 H2].
  split; [exact H1 |].
  intros H. rewrite (H2 H). split; reflexivity.
Qed.

Lemma add_multiplyScalar_zero (v u : Vector3.t) :
  Vector3.add v (Vector3.multiplyScalar u 0) = v.
Proof. destruct v. unfold Vector3.add, Vector3.multiplyScalar. vec_eq. Qed.

Lemma applyControlInputs_zero (w : Vector3.t) (controls : ControlInput) :
  applyControlInputs w controls 0 = w.
Proof. destruct w. unfold applyControlInputs. vec_eq. Qed.

Lemma applyDamping_zero (w : Vector3.t) : applyDamping w 0 = w.
Proof. destruct w. unfold applyDamping. vec_eq. Qed.

Lemma applyWeathervane_zero (w v : Vector3.t) (q : Quaternion.t) :
  applyWeathervane w v q 0 = w.
Proof.
  destruct w. unfold applyWeathervane.
  destruct (Rlt_dec _ _); [reflexivity |].
  destruct (Rlt_dec _ _); [reflexivity |].
  unfold Vector3.set_y. vec_eq.
Qed.

Lemma pitchStability_zero (alpha : R) (controls : ControlInput) (w : Vector3.t) :
  pitchStability alpha controls 0 w = w.
Proof.
  destruct w. unfold pitchStability.
  destruct (Rgt_dec _ _); [| reflexivity].
  destruct (Rlt_dec _ _); [| reflexivity].
  unfold Vector3.set_x. vec_eq.
Qed.

Lemma stallNoseDrop_zero (alpha : R) (w : Vector3.t) : stallNoseDrop alpha 0 w = w.
Proof.
  destruct w. unfold stallNoseDrop.
  destruct (Rgt_dec _ _); [unfold Vector3.set_x; vec_eq |].
  destruct (Rlt_dec _ _); [unfold Vector3.set_x; vec_eq | reflexivity].
Qed.

Lemma quaternion_unit_sum (q : Quaternion.t) :
  Quaternion.length q = 1 ->
  Quaternion.x q * Quaternion.x q + Quaternion.y q * Quaternion.y q
  + Quaternion.z q * Quaternion.z q + Quaternion.w q * Quaternion.w q = 1.
Proof.
  unfold Quaternion.length, Math.sqrt. intros H.
  set (n := _ + _ + _ + _) in *.
  assert (Hn : 0 <= n) by (unfold n; nra).
  rewrite <- (sqrt_sqrt n Hn), H. ring.
Qed.

Lemma updateOrientation_zero (q : Quaternion.t) (w : Vector3.t) :
  Quaternion.length q = 1 -> updateOrientation q w 0 = q.
Proof.
  intros Hq. unfold updateOrientation.
  destruct (Rgt_dec _ _); [| reflexivity].
  unfold setFromAxisAngle, Math.sin, Math.cos. simpl.
  replace (Vector3.x w * 0 / 2) with 0 by field.
  replace (Vector3.y w * 0 / 2) with 0 by field.
  replace (Vector3.z w * 0 / 2) with 0 by field.
  rewrite sin_0, cos_0.
  assert (E : Quaternion.multiply
                (Quaternion.multiply
                   (Quaternion.multiply q (Quaternion.mk (1 * 0) (0 * 0) (0 * 0) 1))
                   (Quaternion.mk (0 * 0) (1 * 0) (0 * 0) 1))
                (Quaternion.mk (0 * 0) (0 * 0) (1 * 0) 1) = q).
  { destruct q. unfold Quaternion.multiply. simpl. f_equal; ring. }
  rewrite E. unfold Quaternion.normalize. rewrite Hq.
  destruct (Req_dec_T 1 0); [lra |].
  destruct q. simpl. f_equal; field.
Qed.

(** X9: a step of no duration changes nothing: for a state at 5 m or higher
    whose orientation has norm 1, a physics step with the timestep 0 returns
    the state that it was given, whatever the controls and the wind. *)
Theorem updatePhysics_zero_timestep state controls windField :
  Quaternion.length (quaternion state) = 1 ->
  5 <= Vector3.y (position state) ->
  updatePhysics state controls windField 0 = state.
Proof.
  intros Hq Hy. rewrite updatePhysics_stages. cbv zeta.
  assert (Hmin : Math.min 0 0.05 = 0).
  { unfold Math.min, Rmin. destruct (Rle_dec 0 0.05); lra. }
  rewrite Hmin.
  assert (Hv : integrateVelocity state windField 0 = velocity state).
  { unfold integrateVelocity. apply add_multiplyScalar_zero. }
  rewrite Hv.
  assert (Hp : integratePosition state (velocity state) 0 = position state).
  { unfold integratePosition. apply add_multiplyScalar_zero. }
  rewrite Hp.
  assert (Hw : respondedAngularVel state controls (velocity state) 0
               = angularVelocity state).
  { unfold respondedAngularVel.
    rewrite applyControlInputs_zero, applyDamping_zero, applyWeathervane_zero.
    reflexivity. }
  rewrite Hw, pitchStability_zero, stallNoseDrop_zero.
  rewrite (updateOrientation_zero _ _ Hq).
  rewrite (proj2 (groundCollision_floor (position state) (velocity state)) Hy).
  destruct state. reflexivity.
Qed.

Lemma updatePhysics_zero_timestep_witness :
  updatePhysics atRest (mkControlInput 1 (-1) 0.5) stillAir 0 = atRest.
Proof.
  apply (updatePhysics_zero_timestep atRest (mkControlInput 1 (-1) 0.5) stillAir).
  - exact identity_unit.
  - simpl. lra.
Defined.

(** ** Body axes and angle of attack *)

Lemma body_axes_orthonormal_facts (q : Quaternion.t) :
  Quaternion.length q = 1 ->
  Vector3.dot (getForwardVector q) (getForwardVector q) = 1 /\
  Vector3.dot (getForwardVector q) (getUpVector q) = 0.
Proof.
  intros Hq. apply quaternion_unit_sum in Hq. destruct q as [a b c d].
  simpl in Hq.
  unfold getForwardVector, getUpVector, Vector3.applyQuaternion, Vector3.dot. simpl.
  split; nsatz.
Qed.

(** X10: for an orientation of norm 1 the three body axes are unit vectors,
    perpendicular to one another, and right-handed: right x up = forward. *)
Theorem body_axes_orthonormal (q : Quaternion.t) :
  Quaternion.length q = 1 ->
  let f := getForwardVector q in
  let u := getUpVector q in
  let r := getRightVector q in
  (Vector3.dot f f = 1 /\ Vector3.dot u u = 1 /\ Vector3.dot r r = 1) /\
  (Vector3.dot f u = 0 /\ Vector3.dot f r = 0 /\ Vector3.dot u r = 0) /\
  Vector3.cross r u = f.
Proof.
  intros Hq. apply quaternion_unit_sum in Hq. destruct q as [a b c d].
  simpl in Hq.
  unfold getForwardVector, getUpVector, getRightVector, Vector3.applyQuaternion,
    Vector3.dot, Vector3.cross. simpl.
  repeat split; try nsatz.
  apply Vector3_eq; nsatz.
Qed.

Lemma body_axes_orthonormal_witness :
  Vector3.cross (getRightVector Quaternion.identity) (getUpVector Quaternion.identity)
  = getForwardVector Quaternion.identity.
Proof.
  apply (body_axes_orthonormal Quaternion.identity). exact identity_unit.
Defined.

Lemma length_multiplyScalar (v : Vector3.t) (k : R) :
  0 <= k -> Vector3.length (Vector3.multiplyScalar v k) = k * Vector3.length v.
Proof.
  intros Hk. destruct v as [a b c].
  unfold Vector3.length, Vector3.multiplyScalar, Math.sqrt. simpl.
  replace (a * k * (a * k) + b * k * (b * k) + c * k * (c * k))
    with (k * k * (a * a + b * b + c * c)) by ring.
  rewrite sqrt_mult by nra. rewrite sqrt_square by exact Hk. reflexivity.
Qed.

Lemma normalize_multiplyScalar (v : Vector3.t) (k : R) :
  0 < k -> 0 < Vector3.length v ->
  Vector3.normalize (Vector3.multiplyScalar v k) = Vector3.normalize v.
Proof.
  intros Hk Hl. unfold Vector3.normalize.
  rewrite length_multiplyScalar by lra.
  destruct (Req_dec_T (k * Vector3.length v) 0) as [E | _]; [nra |].
  destruct (Req_dec_T (Vector3.length v) 0) as [E | _]; [lra |].
  destruct v as [a b c]. unfold Vector3.divideScalar, Vector3.multiplyScalar.
  set (l := Vector3.length _) in *. simpl.
  apply Vector3_eq; field; lra.
Qed.

Lemma atan_sign (t : R) : (t <= 0 -> atan t <= 0) /\ (0 <= t -> 0 <= atan t).
Proof.
  split; intros H.
  - destruct (Req_dec t 0) as [-> | Hne]; [rewrite atan_0; lra |].
    pose proof (atan_increasing t 0). rewrite atan_0 in *. lra.
  - destruct (Req_dec t 0) as [-> | Hne]; [rewrite atan_0; lra |].
    pose proof (atan_increasing 0 t). rewrite atan_0 in *. lra.
Qed.

Lemma atan2_range (b a : R) : - Math.PI <= Math.atan2 b a <= Math.PI.
Proof.
  pi_bounds. unfold Math.atan2.
  pose proof (atan_bound (b / a)) as Hb. unfold Math.PI in *.
  destruct (Rlt_dec 0 a) as [Ha | Ha]; [lra |].
  destruct (Rlt_dec a 0) as [Ha' | Ha'].
  - assert (Hinv : / a < 0) by (apply Rinv_lt_0_compat; exact Ha').
    destruct (Rle_dec 0 b) as [Hb0 | Hb0].
    + assert (b / a <= 0) by (unfold Rdiv; nra).
      pose proof (proj1 (atan_sign (b / a))). lra.
    + assert (0 < b / a) by (unfold Rdiv; nra).
      pose proof (atan_increasing 0 (b / a)) as Hinc. rewrite atan_0 in Hinc. lra.
  - destruct (Rlt_dec 0 b); [lra |]. destruct (Rlt_dec b 0); lra.
Qed.

Lemma calculateAngleOfAttack_range (v : Vector3.t) (q : Quaternion.t) :
  - Math.PI <= calculateAngleOfAttack v q <= Math.PI.
Proof.
  unfold calculateAngleOfAttack. pi_bounds.
  destruct (Rlt_dec _ _); [lra | apply atan2_range].
Qed.

Lemma calculateAngleOfAttack_along_nose (q : Quaternion.t) (k : R) :
  Quaternion.length q = 1 -> 0.1 <= k ->
  calculateAngleOfAttack (Vector3.multiplyScalar (getForwardVector q) k) q = 0.
Proof.
  intros Hq Hk.
  destruct (body_axes_orthonormal_facts q Hq) as [Hff Hfu].
  assert (Hlf : Vector3.length (getForwardVector q) = 1).
  { unfold Vector3.length, Math.sqrt.
    change (sqrt (Vector3.dot (getForwardVector q) (getForwardVector q)) = 1).
    rewrite Hff. apply sqrt_1. }
  unfold calculateAngleOfAttack.
  rewrite length_multiplyScalar, Hlf by lra.
  destruct (Rlt_dec (k * 1) 0.1); [lra |].
  rewrite normalize_multiplyScalar by lra.
  destruct (normalize_unit (getForwardVector q)) as [Hn _]; [lra |].
  rewrite Hn, Hlf. unfold Vector3.divideScalar.
  rewrite !dot_multiplyScalar_l, Hff, Hfu.
  unfold Math.atan2.
  destruct (Rlt_dec 0 (1 / 1 * 1)); [| lra].
  replace (- (1 / 1 * 0) / (1 / 1 * 1)) with 0 by field.
  apply atan_0.
Qed.

(** X11: the angle of attack lies in [-PI, PI]; it depends on the direction
    of the air-relative velocity only, not on the speed, as long as the speed
    is 0.1 m/s or more; and for an orientation of norm 1, motion straight
    along the nose at 0.1 m/s or more has the angle of attack 0. *)
Theorem calculateAngleOfAttack_direction (v : Vector3.t) (q : Quaternion.t) (k : R) :
  - Math.PI <= calculateAngleOfAttack v q <= Math.PI /\
  (0 < k -> 0.1 <= Vector3.length v -> 0.1 <= k * Vector3.length v ->
   calculateAngleOfAttack (Vector3.multiplyScalar v k) q
   = calculateAngleOfAttack v q) /\
  (Quaternion.length q = 1 -> 0.1 <= k ->
   calculateAngleOfAttack (Vector3.multiplyScalar (getForwardVector q) k) q = 0).
Proof.
  split; [| split].
  - unfold calculateAngleOfAttack. pi_bounds.
    destruct (Rlt_dec _ _); [lra | apply atan2_range].
  - intros Hk Hv Hkv. unfold calculateAngleOfAttack.
    rewrite length_multiplyScalar by lra.
    destruct (Rlt_dec (k * Vector3.length v) 0.1); [lra |].
    destruct (Rlt_dec (Vector3.length v) 0.1); [lra |].
    rewrite normalize_multiplyScalar by lra. reflexivity.
  - intros Hq Hk. apply calculateAngleOfAttack_along_nose; assumption.
Qed.

Lemma calculateAngleOfAttack_direction_witness :
  calculateAngleOfAttack
    (Vector3.multiplyScalar (getForwardVector Quaternion.identity) 30)
    Quaternion.identity = 0.
Proof.
  apply (calculateAngleOfAttack_direction Vector3.zero Quaternion.identity 30).
  - exact identity_unit.
  - lra.
Defined.

(** ** Telemetry ranges *)

Lemma rem_range (a b : R) : 0 <= a -> 0 < b -> 0 <= Math.rem a b < b.
Proof.
  intros Ha Hb. unfold Math.rem.
  assert (Hq : 0 <= a / b).
  { unfold Rdiv. apply Rmult_le_pos; [lra |]. left. apply Rinv_0_lt_compat. lra. }
  assert (Ea : a = a / b * b) by (field; lra).
  set (q := a / b) in *.
  destruct (Rle_dec 0 q); [| contradiction].
  destruct (base_Int_part q) as [H1 H2].
  set (n := IZR (Int_part q)) in *.
  rewrite Ea. split; nra.
Qed.

Lemma degrees_of (x lo hi : R) :
  lo * (Math.PI / 180) <= x <= hi * (Math.PI / 180) ->
  lo <= x * (180 / Math.PI) <= hi.
Proof.
  intros [H1 H2]. pi_bounds.
  assert (Hk : 0 < 180 / Math.PI) by (apply Rdiv_lt_0_compat; lra).
  assert (E : forall c, c * (Math.PI / 180) * (180 / Math.PI) = c)
    by (intros; field; lra).
  rewrite <- (E lo), <- (E hi).
  split; apply Rmult_le_compat_r; lra.
Qed.

(** X12: the telemetry is within the ranges of its instruments: the heading
    in [0, 360), the angle of attack in [-180, 180] degrees, the speeds not
    negative, and the ground speed not above the speed of the glider.  The
    bank angle is in [-90, 90] when the vertical component of the right
    vector, of which it is the arc sine, lies in [-1, 1], and the pitch angle
    is in [-90, 90] when the vertical component of the forward vector does. *)
Theorem getTelemetry_ranges (state : GliderState) (windField : WindField) :
  let t := getTelemetry state windField in
  0 <= heading t < 360 /\
  (-1 <= Vector3.y (getRightVector (quaternion state)) <= 1 ->
   -90 <= bankAngle t <= 90) /\
  (-1 <= Vector3.y (getForwardVector (quaternion state)) <= 1 ->
   -90 <= pitchAngle t <= 90) /\
  -180 <= angleOfAttack t <= 180 /\
  0 <= airspeed t /\
  0 <= groundSpeed t <= Vector3.length (velocity state).
Proof.
  intros t. unfold t, getTelemetry. cbn [heading bankAngle pitchAngle angleOfAttack
                                           airspeed groundSpeed].
  pi_bounds.
  assert (Hk : 0 < 180 / Math.PI) by (apply Rdiv_lt_0_compat; lra).
  assert (Hpk : Math.PI * (180 / Math.PI) = 180) by (field; lra).
  split; [| split; [| split; [| split; [| split]]]].
  - apply rem_range; [| lra].
    pose proof (atan2_range (Vector3.x (getForwardVector (quaternion state)))
                            (Vector3.z (getForwardVector (quaternion state)))) as Hr.
    set (h := Math.atan2 _ _) in *. nra.
  - intros _. apply degrees_of.
    pose proof (asin_bound (Vector3.y (getRightVector (quaternion state)))).
    unfold Math.asin, Math.PI in *. lra.
  - intros _. apply degrees_of.
    pose proof (asin_bound (Vector3.y (getForwardVector (quaternion state)))).
    unfold Math.asin, Math.PI in *. lra.
  - pose proof (calculateAngleOfAttack_range
                  (Vector3.sub (velocity state) (fullWind windField))
                  (quaternion state)) as Hr.
    set (a := calculateAngleOfAttack _ _) in *. nra.
  - apply length_nonneg.
  - unfold Math.sqrt, Vector3.length. split; [apply sqrt_pos |].
    apply sqrt_le_1_alt.
    assert (0 <= Vector3.y (velocity state) * Vector3.y (velocity state)) by nra.
    unfold Math.sqrt. lra.
Qed.

Lemma getTelemetry_ranges_witness :
  -90 <= bankAngle (getTelemetry atRest stillAir) <= 90 /\
  -90 <= pitchAngle (getTelemetry atRest stillAir) <= 90.
Proof.
  destruct (getTelemetry_ranges atRest stillAir) as [_ [Hbank [Hpitch _]]].
  split.
  - apply Hbank. unfold atRest, levelGlider. cbn [quaternion].
    rewrite right_identity. simpl. lra.
  - apply Hpitch. unfold atRest, levelGlider. cbn [quaternion].
    rewrite forward_identity. simpl. lra.
Defined.

(** ** The initial state *)

Lemma heading_quaternion_unit (h : R) :
  Quaternion.length (setFromAxisAngle (Vector3.mk 0 1 0) h) = 1.
Proof.
  unfold Quaternion.length, setFromAxisAngle, Math.sqrt, Math.sin, Math.cos. simpl.
  replace (0 * sin (h / 2) * (0 * sin (h / 2)) + 1 * sin (h / 2) * (1 * sin (h / 2))
           + 0 * sin (h / 2) * (0 * sin (h / 2)) + cos (h / 2) * cos (h / 2))
    with (Rsqr (sin (h / 2)) + Rsqr (cos (h / 2))) by (unfold Rsqr; ring).
  rewrite sin2_cos2. apply sqrt_1.
Qed.

Lemma createInitialState_unit (start : option Vector3.t) (course : option R) :
  Quaternion.length (quaternion (createInitialState start course)) = 1.
Proof.
  unfold createInitialState. simpl.
  destruct course; [apply heading_quaternion_unit | exact identity_unit].
Qed.

Lemma createInitialState_velocity (start : option Vector3.t) (course : option R) :
  velocity (createInitialState start course)
  = Vector3.multiplyScalar
      (getForwardVector (quaternion (createInitialState start course))) 30.
Proof.
  unfold createInitialState, getForwardVector, Vector3.applyQuaternion,
    Vector3.multiplyScalar. simpl. vec_eq.
Qed.

(** X13: whatever position and heading are given or left out, the initial
    state has an orientation of norm 1, no rotation, and a velocity of
    30 m/s straight along its nose and level; in still air its telemetry
    shows the airspeed 30, the angle of attack 0 and no stall.  With a
    heading [h] the velocity is (30 sin h, 0, 30 cos h), and without one it
    is (0, 0, 30); without a position the glider starts at (0, 500, 0). *)
Theorem createInitialState_flies_straight
    (start : option Vector3.t) (course : option R) :
  let s := createInitialState start course in
  Quaternion.length (quaternion s) = 1 /\
  angularVelocity s = Vector3.zero /\
  velocity s = Vector3.multiplyScalar (getForwardVector (quaternion s)) 30 /\
  velocity s = match course with
               | Some h => Vector3.mk (30 * sin h) 0 (30 * cos h)
               | None => Vector3.mk 0 0 30
               end /\
  position s = match start with
               | Some p => p
               | None => Vector3.mk 0 500 0
               end /\
  airspeed (getTelemetry s stillAir) = 30 /\
  angleOfAttack (getTelemetry s stillAir) = 0 /\
  isStalling (getTelemetry s stillAir) = false.
Proof.
  intros s.
  pose proof (createInitialState_unit start course) as Hq. fold s in Hq.
  pose proof (createInitialState_velocity start course) as Hv. fold s in Hv.
  destruct (body_axes_orthonormal_facts (quaternion s) Hq) as [Hff _].
  assert (Hlf : Vector3.length (getForwardVector (quaternion s)) = 1).
  { unfold Vector3.length, Math.sqrt.
    change (sqrt (Vector3.dot (getForwardVector (quaternion s))
                              (getForwardVector (quaternion s))) = 1).
    rewrite Hff. apply sqrt_1. }
  assert (Halpha : calculateAngleOfAttack
                     (Vector3.sub (velocity s) (fullWind stillAir)) (quaternion s) = 0).
  { rewrite sub_stillAir, Hv.
    apply (calculateAngleOfAttack_along_nose (quaternion s) 30 Hq). lra. }
  split; [exact Hq |]. split; [reflexivity |]. split; [exact Hv |].
  split; [| split; [reflexivity | split; [| split]]].
  - unfold s, createInitialState. destruct course as [h |]; simpl.
    + unfold Vector3.applyQuaternion, setFromAxisAngle, Math.sin, Math.cos. simpl.
      assert (Es : sin h = 2 * sin (h / 2) * cos (h / 2))
        by (rewrite <- sin_2a; f_equal; field).
      assert (Ec : cos h = 1 - 2 * sin (h / 2) * sin (h / 2))
        by (rewrite <- cos_2a_sin; f_equal; field).
      rewrite Es, Ec. vec_eq.
    + unfold Vector3.applyQuaternion. vec_eq.
  - cbn [getTelemetry airspeed]. rewrite sub_stillAir, Hv.
    rewrite length_multiplyScalar, Hlf by lra. ring.
  - cbn [getTelemetry angleOfAttack]. rewrite Halpha. ring.
  - cbn [getTelemetry isStalling]. rewrite Halpha.
    unfold beyondStall, STALL_ALPHA_POS, STALL_ALPHA_NEG. pi_bounds.
    destruct (Rgt_dec 0 (12 * (Math.PI / 180))); [lra |].
    destruct (Rlt_dec 0 (-10 * (Math.PI / 180))); [lra | reflexivity].
Qed.

(** * Further properties of the thermal system *)

Section SpawnProperties.

Variable random : nat -> R.
Variable toString36 : R -> string.

Lemma tooClose_false (existing : list Thermal) (c : Vector2.t) :
  tooClose existing c = false ->
  Forall (fun e => THERMAL_OUTER_RADIUS * 2 <= Vector2.distanceTo (center e) c)
         existing.
Proof.
  unfold tooClose. induction existing as [| e existing IH]; simpl; intros H.
  - constructor.
  - apply orb_false_iff in H. destruct H as [He Hrest].
    constructor; [| apply IH; exact Hrest].
    destruct (Rlt_dec _ _); [discriminate | lra].
Qed.

Lemma chooseCenter_eq (left : nat) (existing : list Thermal) (n : nat) :
  chooseCenter random left existing n
  = let c := Vector2.mk ((random n - 0.5) * WORLD_SIZE * 0.8)
                        ((random (S n) - 0.5) * WORLD_SIZE * 0.8) in
    match left with
    | S (S left'') =>
        if tooClose existing c
        then chooseCenter random (S left'') existing (S (S n))
        else (c, S (S n))
    | _ => (c, S (S n))
    end.
Proof.
  destruct left as [| [| left'']]; try reflexivity.
  cbv zeta. unfold chooseCenter at 1. fold chooseCenter.
  unfold bind at 1 2, mathRandom at 1 2.
  destruct (tooClose existing _); reflexivity.
Qed.

(** The candidate loop: the centre is inside 80% of the world, two draws are
    made per attempt, and the loop stops on the first candidate that is not
    too close, or after [left] attempts. *)
Lemma chooseCenter_spec (left : nat) : forall existing n,
  (unitDraws random ->
   -4000 <= Vector2.x (fst (chooseCenter random left existing n)) < 4000 /\
   -4000 <= Vector2.y (fst (chooseCenter random left existing n)) < 4000) /\
  (n + 2 <= snd (chooseCenter random left existing n) <= n + 2 * Nat.max 1 left)%nat /\
  (tooClose existing (fst (chooseCenter random left existing n)) = false \/
   snd (chooseCenter random left existing n) = (n + 2 * Nat.max 1 left)%nat).
Proof.
  assert (Hc : forall k, unitDraws random ->
            -4000 <= (random k - 0.5) * WORLD_SIZE * 0.8 < 4000).
  { intros k Hu. destruct (Hu k). unfold WORLD_SIZE. lra. }
  induction left as [| left IH]; intros existing n; rewrite chooseCenter_eq;
    cbv zeta.
  - cbn [fst snd Vector2.x Vector2.y].
    split; [intros Hu; split; apply Hc; exact Hu |]. split; [lia |]. right. lia.
  - destruct left as [| left''].
    + cbn [fst snd Vector2.x Vector2.y].
      split; [intros Hu; split; apply Hc; exact Hu |]. split; [lia |]. right. lia.
    + destruct (tooClose existing _) eqn:Hclose.
      * destruct (IH existing (S (S n))) as [Hrange [Hdraws Hstop]].
        split; [exact Hrange |]. split; [lia |].
        destruct Hstop as [Hstop | Hstop]; [left; exact Hstop | right; lia].
      * cbn [fst snd Vector2.x Vector2.y].
        split; [intros Hu; split; apply Hc; exact Hu |]. split; [lia |].
        left. exact Hclose.
Qed.

(** What [createThermal] returns and how many draws it makes. *)
Lemma createThermal_facts (existing : list Thermal) (n : nat) :
  let t := fst (createThermal random toString36 existing n) in
  let n' := snd (createThermal random toString36 existing n) in
  age t = 0 /\
  (n + 6 <= n' <= n + 24)%nat /\
  (Forall (fun e => 1200 <= Vector2.distanceTo (center e) (center t)) existing
   \/ n' = (n + 24)%nat) /\
  (unitDraws random ->
   10 <= strength t < 20 /\
   280 <= radius t < 420 /\
   180 <= lifetime t < 480 /\
   -4000 <= Vector2.x (center t) < 4000 /\
   -4000 <= Vector2.y (center t) < 4000).
Proof.
  intros t n'. unfold t, n', createThermal, bind.
  pose proof (chooseCenter_spec 10 existing n) as Hc.
  destruct (chooseCenter random 10 existing n) as [c n1].
  cbn [fst snd Nat.max Nat.mul Nat.add] in Hc.
  destruct Hc as [Hrange [Hdraws Hstop]].
  unfold mathRandom, ret. simpl.
  split; [reflexivity |]. split; [lia |]. split.
  - destruct Hstop as [Hstop | Hstop]; [left | right; lia].
    apply tooClose_false in Hstop.
    eapply Forall_impl; [| exact Hstop]. simpl. intros e He.
    unfold THERMAL_OUTER_RADIUS in He. lra.
  - intros Hu. destruct (Hrange Hu) as [Hx Hy].
    pose proof (Hu n1). pose proof (Hu (S n1)). pose proof (Hu (S (S (S n1)))).
    unfold THERMAL_W_MIN, THERMAL_W_MAX, THERMAL_CORE_RADIUS.
    repeat split; lra.
Qed.

(** X14: [createThermal] makes a thermal of age 0 with 6 to 24 draws; when
    the draws lie in [0, 1), its strength is in [10, 20), its radius in
    [280, 420), its lifetime in [180, 480) and its centre within 4000 m of
    the origin on each axis; and its centre is at least 1200 m from every
    existing centre unless all ten attempts were used (24 draws). *)
Theorem createThermal_ranges (existing : list Thermal) (n : nat) :
  let t := fst (createThermal random toString36 existing n) in
  let n' := snd (createThermal random toString36 existing n) in
  age t = 0 /\
  (n + 6 <= n' <= n + 24)%nat /\
  (Forall (fun e => 1200 <= Vector2.distanceTo (center e) (center t)) existing
   \/ n' = (n + 24)%nat) /\
  (unitDraws random ->
   10 <= strength t < 20 /\
   280 <= radius t < 420 /\
   180 <= lifetime t < 480 /\
   -4000 <= Vector2.x (center t) < 4000 /\
   -4000 <= Vector2.y (center t) < 4000).
Proof. exact (createThermal_facts existing n). Qed.

End SpawnProperties.

Lemma halves_unitDraws : unitDraws (fun _ => 0.5).
Proof. intros k. lra. Qed.

Lemma createThermal_ranges_witness :
  10 <= strength (fst (createThermal (fun _ => 0.5) (fun _ => "a"%string) [] 0%nat)) < 20.
Proof.
  apply (createThermal_ranges (fun _ => 0.5) (fun _ => "a"%string) [] 0%nat).
  exact halves_unitDraws.
Defined.

Lemma pushThermals_length (random : nat -> R) (toString36 : R -> string)
    (count : nat) : forall ts n,
  List.length (fst (pushThermals random toString36 count ts n))
  = (List.length ts + count)%nat.
Proof.
  induction count as [| count IH]; intros ts n; simpl; [lia |].
  unfold bind. destruct (createThermal random toString36 ts n) as [t n'].
  rewrite IH, length_app. simpl. lia.
Qed.

Section PopulationProperties.

Variable random : nat -> R.
Variable toString36 : R -> string.
Hypothesis draws : unitDraws random.

Lemma createThermal_wellFormed (existing : list Thermal) (n : nat) :
  wellFormed (fst (createThermal random toString36 existing n)) /\
  age (fst (createThermal random toString36 existing n)) = 0.
Proof.
  destruct (createThermal_facts random toString36 existing n)
    as [Hage [_ [_ Hr]]].
  destruct (Hr draws) as [Hs [Hrad [Hl [Hx Hy]]]].
  split; [| exact Hage].
  unfold wellFormed, WORLD_SIZE, THERMAL_W_MIN, THERMAL_W_MAX, THERMAL_CORE_RADIUS.
  rewrite Hage. repeat split; lra.
Qed.

Lemma spawn_Forall (P : Thermal -> Prop) (fuel : nat) :
  (forall ts n, P (fst (createThermal random toString36 ts n))) ->
  forall ts n,
    Forall P ts -> Forall P (fst (spawn random toString36 fuel ts n)).
Proof.
  intros Hnew. induction fuel as [| fuel IH]; intros ts n Hts; simpl.
  - destruct (List.length ts <? THERMAL_COUNT)%nat; exact Hts.
  - destruct (List.length ts <? THERMAL_COUNT)%nat; [| exact Hts].
    unfold bind. pose proof (Hnew ts n) as Ht.
    destruct (createThermal random toString36 ts n) as [t n'].
    apply IH. apply Forall_app. split; [exact Hts |].
    constructor; [exact Ht | constructor].
Qed.

Lemma pushThermals_spec (P : Thermal -> Prop) (count : nat) :
  (forall ts n, P (fst (createThermal random toString36 ts n))) ->
  forall ts n,
    Forall P ts ->
    Forall P (fst (pushThermals random toString36 count ts n)) /\
    List.length (fst (pushThermals random toString36 count ts n))
    = (List.length ts + count)%nat.
Proof.
  intros Hnew. induction count as [| count IH]; intros ts n Hts; simpl.
  - split; [exact Hts | lia].
  - unfold bind. pose proof (Hnew ts n) as Ht.
    destruct (createThermal random toString36 ts n) as [t n'].
    destruct (IH (ts ++ [t]) n') as [HP Hlen].
    + apply Forall_app. split; [exact Hts |]. constructor; [exact Ht | constructor].
    + split; [exact HP |]. rewrite Hlen, length_app. simpl. lia.
Qed.

Lemma wrapCoordinate_inside (c : R) :
  - (WORLD_SIZE / 2) - WORLD_SIZE <= c <= WORLD_SIZE / 2 + WORLD_SIZE ->
  - (WORLD_SIZE / 2) <= wrapCoordinate c <= WORLD_SIZE / 2.
Proof.
  unfold wrapCoordinate, WORLD_SIZE. intros H.
  destruct (Rgt_dec c (10000 / 2));
    match goal with
    | |- context [Rlt_dec ?a ?b] => destruct (Rlt_dec a b)
    end; lra.
Qed.

Lemma survivors_wellFormed (dx dz dt : R) (ts : list Thermal) :
  0 <= dt -> Rabs dx <= WORLD_SIZE -> Rabs dz <= WORLD_SIZE ->
  Forall wellFormed ts -> Forall wellFormed (survivors dx dz dt ts).
Proof.
  intros Hdt Hdx Hdz. apply Rabs_le_bounds in Hdx. apply Rabs_le_bounds in Hdz.
  induction 1 as [| t ts Ht _ IH]; simpl; [constructor |].
  unfold ageAndDrift.
  destruct (Rgt_dec (age t + dt) (lifetime t)) as [Hdead | Hlive]; [exact IH |].
  constructor; [| exact IH].
  destruct Ht as [Hage [Hlife [Hx [Hy [Hs Hr]]]]].
  unfold wellFormed. simpl.
  repeat split; try lra; apply wrapCoordinate_inside; lra.
Qed.

(** X15: a well-formed population stays well-formed: when the draws lie in
    [0, 1), the timestep is not negative and the drift of the update is at
    most one world size on each axis, every thermal that an update returns
    has an age between 0 and its lifetime, a lifetime between 180 and 480, a
    centre inside the world, a strength in [10, 20] and a radius in
    [280, 420], provided the thermals that it was given had. *)
Theorem updateThermalSystem_keeps_wellFormed
    (state : ThermalSystemState) (deltaTime : R) (n : nat) :
  0 <= deltaTime ->
  Rabs (Vector3.x (wind state) * THERMAL_DRIFT_FACTOR * deltaTime) <= WORLD_SIZE ->
  Rabs (Vector3.z (wind state) * THERMAL_DRIFT_FACTOR * deltaTime) <= WORLD_SIZE ->
  Forall wellFormed (thermals state) ->
  Forall wellFormed
         (thermals (fst (updateThermalSystem random toString36 state deltaTime n))).
Proof.
  intros Hdt Hdx Hdz Hts.
  rewrite updateThermalSystem_thermals.
  apply spawn_Forall.
  - intros ts k. apply createThermal_wellFormed.
  - apply survivors_wellFormed; assumption.
Qed.

Lemma wind_speed :
  Vector3.length (Vector3.mk (Math.sin WIND_DIRECTION * WIND_SPEED) 0
                             (Math.cos WIND_DIRECTION * WIND_SPEED)) = WIND_SPEED.
Proof.
  unfold Vector3.length, Math.sqrt, Math.sin, Math.cos, WIND_SPEED. simpl.
  replace (sin WIND_DIRECTION * 6 * (sin WIND_DIRECTION * 6) + 0 * 0
           + cos WIND_DIRECTION * 6 * (cos WIND_DIRECTION * 6))
    with (6 * 6 * (Rsqr (sin WIND_DIRECTION) + Rsqr (cos WIND_DIRECTION)))
    by (unfold Rsqr; ring).
  rewrite sin2_cos2, Rmult_1_r. apply sqrt_square. lra.
Qed.

(** X16: the thermal system starts with exactly [THERMAL_COUNT] thermals, all
    of age 0 and well-formed, the clock at 0, and a level wind of
    [WIND_SPEED] = 6 m/s that blows equally along x and z. *)
Theorem createThermalSystem_initial (n : nat) :
  let s := fst (createThermalSystem random toString36 n) in
  List.length (thermals s) = THERMAL_COUNT /\
  Forall (fun t => wellFormed t /\ age t = 0) (thermals s) /\
  time s = 0 /\
  Vector3.length (wind s) = WIND_SPEED /\
  Vector3.y (wind s) = 0 /\
  Vector3.x (wind s) = Vector3.z (wind s).
Proof.
  intros s. unfold s, createThermalSystem, bind, ret.
  destruct (pushThermals_spec (fun t => wellFormed t /\ age t = 0) THERMAL_COUNT
              (fun ts k => createThermal_wellFormed ts k) [] n (Forall_nil _))
    as [HP Hlen].
  destruct (pushThermals random toString36 THERMAL_COUNT [] n) as [ts n'].
  cbn [fst thermals time wind] in *.
  split; [exact Hlen |]. split; [exact HP |]. split; [reflexivity |].
  split; [apply wind_speed |]. split; [reflexivity |].
  cbn [Vector3.x Vector3.z]. unfold Math.sin, Math.cos, WIND_DIRECTION, Math.PI.
  rewrite sin_cos_PI4. reflexivity.
Qed.

End PopulationProperties.

Lemma updateThermalSystem_keeps_wellFormed_witness :
  Forall wellFormed
         (thermals (fst (updateThermalSystem (fun _ => 0.5) (fun _ => "a"%string)
                                             nearEdge 1 0%nat))).
Proof.
  apply (updateThermalSystem_keeps_wellFormed
           (fun _ => 0.5) (fun _ => "a"%string) halves_unitDraws nearEdge 1 0%nat).
  - lra.
  - simpl. unfold THERMAL_DRIFT_FACTOR, WORLD_SIZE. rewrite Rabs_pos_eq; lra.
  - simpl. unfold THERMAL_DRIFT_FACTOR, WORLD_SIZE. rewrite Rabs_pos_eq; lra.
  - repeat constructor; simpl;
      unfold WORLD_SIZE, THERMAL_W_MIN, THERMAL_W_MAX, THERMAL_CORE_RADIUS; lra.
Defined.

Lemma createThermalSystem_initial_witness :
  List.length (thermals (fst (createThermalSystem (fun _ => 0.5) (fun _ => "a"%string)
                                                  0%nat)))
  = THERMAL_COUNT.
Proof.
  apply (createThermalSystem_initial (fun _ => 0.5) (fun _ => "a"%string)
                                     halves_unitDraws 0%nat).
Defined.

(** ** Sampling the vertical wind *)

Lemma turbulence_bound (a b : R) :
  -0.3 <= Math.sin a * Math.cos b * THERMAL_TURBULENCE_AMPLITUDE <= 0.3.
Proof.
  unfold Math.sin, Math.cos, THERMAL_TURBULENCE_AMPLITUDE.
  pose proof (SIN_bound a). pose proof (COS_bound b).
  assert (-1 <= sin a * cos b <= 1) by nra. lra.
Qed.

Lemma fold_left_no_contribution (f : Thermal -> R) (ts : list Thermal) :
  (forall t, f t = 0) ->
  forall a, fold_left (fun totalW t => totalW + f t) ts a = a.
Proof.
  intros Hf. induction ts as [| t ts IH]; intros a; simpl; [reflexivity |].
  rewrite IH, Hf. ring.
Qed.

(** No thermal contributes at ground level or 400 m above the cloud base. *)
Lemma thermalContribution_out_of_column (position : Vector3.t) (t : Thermal) :
  Vector3.y position = 0 \/ CLOUD_BASE + 400 <= Vector3.y position ->
  thermalContribution position t = 0.
Proof.
  intros Hy. unfold thermalContribution, CLOUD_BASE in *.
  destruct Hy as [Hy | Hy].
  - rewrite Hy.
    destruct (Rgt_dec 0 1200); [lra |]. destruct (Rlt_dec 0 100); [| lra].
    replace (1 * (0 / 100)) with 0 by field. ring.
  - destruct (Rgt_dec (Vector3.y position) 1200); [| lra].
    destruct (Rlt_dec (Vector3.y position) 100); [lra |].
    unfold Math.max, Rmax.
    destruct (Rle_dec 0 (1 - (Vector3.y position - 1200) / 400)); [| ring].
    replace (1 - (Vector3.y position - 1200) / 400) with 0 by lra. ring.
Qed.

(** X17: where the thermals are well-formed: with no thermal at all, at
    ground level (y = 0), or from 400 m above the cloud base up (y >= 1600),
    the vertical wind is the ambient sink -0.3 plus the turbulence term,
    hence between -0.6 and 0 m/s, and [getThermalStrengthAt] reports that the
    position is not in a core. *)
Theorem getVerticalWindAt_baseline
    (position : Vector3.t) (thermalSystem : ThermalSystemState) :
  Forall wellFormed (thermals thermalSystem) ->
  thermals thermalSystem = [] \/ Vector3.y position = 0
  \/ CLOUD_BASE + 400 <= Vector3.y position ->
  getVerticalWindAt position thermalSystem
  = -0.3 + Math.sin (time thermalSystem * 2 + Vector3.x position * 0.01)
           * Math.cos (time thermalSystem * 1.5 + Vector3.z position * 0.01)
           * THERMAL_TURBULENCE_AMPLITUDE /\
  -0.6 <= getVerticalWindAt position thermalSystem <= 0 /\
  ThermalStrength.inCore (getThermalStrengthAt position thermalSystem) = false.
Proof.
  intros _ H.
  assert (E : getVerticalWindAt position thermalSystem
              = -0.3 + Math.sin (time thermalSystem * 2 + Vector3.x position * 0.01)
                       * Math.cos (time thermalSystem * 1.5 + Vector3.z position * 0.01)
                       * THERMAL_TURBULENCE_AMPLITUDE).
  { unfold getVerticalWindAt. f_equal.
    destruct H as [H | H].
    - rewrite H. simpl. ring.
    - rewrite fold_left_no_contribution; [ring |].
      intros t. apply thermalContribution_out_of_column. exact H. }
  pose proof (turbulence_bound (time thermalSystem * 2 + Vector3.x position * 0.01)
                               (time thermalSystem * 1.5 + Vector3.z position * 0.01))
    as Hb.
  split; [exact E |]. split; [rewrite E; lra |].
  unfold getThermalStrengthAt. cbn [ThermalStrength.inCore]. rewrite E.
  destruct (Rgt_dec _ 1.5); [lra | reflexivity].
Qed.

Lemma getVerticalWindAt_baseline_witness :
  -0.6 <= getVerticalWindAt (Vector3.mk 100 0 200) nearEdge <= 0.
Proof.
  apply (getVerticalWindAt_baseline (Vector3.mk 100 0 200) nearEdge).
  - repeat constructor; simpl;
      unfold WORLD_SIZE, THERMAL_W_MIN, THERMAL_W_MAX, THERMAL_CORE_RADIUS; lra.
  - right. left. reflexivity.
Defined.

Lemma exp_nonpos (a : R) : a <= 0 -> 0 < exp a <= 1.
Proof.
  intros Ha. split; [apply exp_pos |].
  destruct (Req_dec a 0) as [-> | Hne]; [rewrite exp_0; lra |].
  pose proof (exp_increasing a 0). rewrite exp_0 in *. lra.
Qed.

Lemma ratio_nonneg (a b : R) : 0 <= a -> 0 < b -> 0 <= a / b.
Proof.
  intros Ha Hb. unfold Rdiv. apply Rmult_le_pos; [exact Ha |].
  left. apply Rinv_0_lt_compat. exact Hb.
Qed.

(** One well-formed thermal adds between -0.4 and 1 times its strength, at
    any position that is not below ground level. *)
Lemma thermalContribution_bounds (position : Vector3.t) (t : Thermal) :
  0 <= Vector3.y position -> wellFormed t ->
  - (0.4 * strength t) <= thermalContribution position t <= strength t.
Proof.
  intros Hy [Hage [Hlife [_ [_ [Hs Hr]]]]].
  unfold THERMAL_W_MIN, THERMAL_W_MAX, THERMAL_CORE_RADIUS in *.
  unfold thermalContribution.
  set (r := Vector2.distanceTo _ _).
  (* height factor in [0, 1] *)
  set (hf := if Rlt_dec (Vector3.y position) 100 then _ else _).
  assert (Hhf : 0 <= hf <= 1).
  { unfold hf, CLOUD_BASE, Math.max, Rmax.
    destruct (Rgt_dec (Vector3.y position) 1200);
      destruct (Rlt_dec (Vector3.y position) 100);
      try destruct (Rle_dec 0 (1 - (Vector3.y position - 1200) / 400)); lra. }
  (* age factor in [0, 1] *)
  assert (Hlf : 0 <= age t / lifetime t <= 1).
  { split; [apply ratio_nonneg; lra |].
    apply (Rmult_le_reg_r (lifetime t)); [lra |].
    unfold Rdiv. rewrite Rmult_assoc, Rinv_l by lra. lra. }
  set (lf := age t / lifetime t) in *.
  set (af := if Rlt_dec lf 0.1 then _ else _).
  assert (Haf : 0 <= af <= 1).
  { unfold af. destruct (Rlt_dec lf 0.1); [lra |].
    destruct (Rgt_dec lf 0.8); lra. }
  (* the two Gaussians in (0, 1] *)
  assert (Hcore : 0 < Math.exp (- (r * r) / (radius t * radius t)) <= 1).
  { apply exp_nonpos.
    assert (0 <= r * r / (radius t * radius t)) by (apply ratio_nonneg; nra).
    unfold Rdiv in *. lra. }
  assert (Hsink : 0 < Math.exp (- Math.pow (r - THERMAL_SINK_PEAK_RADIUS) 2
                                / (THERMAL_SINK_WIDTH * THERMAL_SINK_WIDTH)) <= 1).
  { apply exp_nonpos. unfold Math.pow, THERMAL_SINK_WIDTH.
    pose proof (pow2_ge_0 (r - THERMAL_SINK_PEAK_RADIUS)).
    assert (0 <= (r - THERMAL_SINK_PEAK_RADIUS) ^ 2 / (120 * 120))
      by (apply ratio_nonneg; lra).
    unfold Rdiv in *. lra. }
  set (core := Math.exp _) in Hcore |- *.
  set (sink := Math.exp _) in Hsink |- *.
  assert (Hf : 0 <= hf * af <= 1) by nra.
  assert (Hd : - (0.4 * strength t) <= strength t * core - strength t * 0.4 * sink
               <= strength t) by nra.
  rewrite Rmult_assoc. set (f := hf * af) in *.
  set (d := strength t * core - strength t * 0.4 * sink) in *.
  split; nra.
Qed.

Lemma fold_left_contribution_bounds (position : Vector3.t) (ts : list Thermal) :
  0 <= Vector3.y position -> Forall wellFormed ts ->
  forall a,
    a - 0.4 * fold_right (fun t s => strength t + s) 0 ts
    <= fold_left (fun totalW t => totalW + thermalContribution position t) ts a
    <= a + fold_right (fun t s => strength t + s) 0 ts.
Proof.
  intros Hy. induction 1 as [| t ts Ht _ IH]; intros a; simpl; [lra |].
  pose proof (thermalContribution_bounds position t Hy Ht).
  specialize (IH (a + thermalContribution position t)). lra.
Qed.

(** X18: at or above ground level, among well-formed thermals, the vertical
    wind is at most the sum of the strengths of the thermals and at least
    -0.6 less 0.4 times that sum. *)
Theorem getVerticalWindAt_bounds
    (position : Vector3.t) (thermalSystem : ThermalSystemState) :
  0 <= Vector3.y position ->
  Forall wellFormed (thermals thermalSystem) ->
  let total := fold_right (fun t s => strength t + s) 0 (thermals thermalSystem) in
  -0.6 - 0.4 * total <= getVerticalWindAt position thermalSystem <= total.
Proof.
  intros Hy Hts total. unfold getVerticalWindAt.
  pose proof (fold_left_contribution_bounds position (thermals thermalSystem)
                Hy Hts (0 + -0.3)) as Hb. fold total in Hb.
  pose proof (turbulence_bound (time thermalSystem * 2 + Vector3.x position * 0.01)
                               (time thermalSystem * 1.5 + Vector3.z position * 0.01)).
  cbv zeta. lra.
Qed.

Lemma getVerticalWindAt_bounds_witness :
  -0.6 - 0.4 * (15 + 0) <= getVerticalWindAt (Vector3.mk 4994 800 0) nearEdge
  <= 15 + 0.
Proof.
  apply (getVerticalWindAt_bounds (Vector3.mk 4994 800 0) nearEdge).
  - simpl. lra.
  - repeat constructor; simpl;
      unfold WORLD_SIZE, THERMAL_W_MIN, THERMAL_W_MAX, THERMAL_CORE_RADIUS; lra.
Defined.

(** ** The nearest thermal *)

Lemma scanNearest_from_some (pos2D : Vector2.t) (ts : list Thermal) :
  forall d t,
  exists d' t',
    scanNearest pos2D ts (Some d, Some t) = (Some d', Some t') /\
    d' <= d /\
    Forall (fun s => d' <= Vector2.distanceTo pos2D (center s)) ts /\
    ((t' = t /\ d' = d) \/
     (In t' ts /\ d' = Vector2.distanceTo pos2D (center t'))).
Proof.
  unfold scanNearest.
  induction ts as [| s ts IH]; intros d t; simpl.
  - exists d, t. repeat split; [lra | constructor | left; split; reflexivity].
  - destruct (Rlt_dec (Vector2.distanceTo pos2D (center s)) d) as [Hlt | Hge].
    + destruct (IH (Vector2.distanceTo pos2D (center s)) s)
        as [d' [t' [E [Hle [Hall Hwho]]]]].
      exists d', t'. split; [exact E |]. split; [lra |]. split.
      * constructor; [exact Hle | exact Hall].
      * right. destruct Hwho as [[-> ->] | [Hin Hd]].
        -- split; [left; reflexivity | reflexivity].
        -- split; [right; exact Hin | exact Hd].
    + destruct (IH d t) as [d' [t' [E [Hle [Hall Hwho]]]]].
      exists d', t'. split; [exact E |]. split; [exact Hle |]. split.
      * constructor; [lra | exact Hall].
      * destruct Hwho as [Hsame | [Hin Hd]]; [left; exact Hsame |].
        right. split; [right; exact Hin | exact Hd].
Qed.

(** X19: with no thermals [findNearestThermal] returns the distance
    [Infinity], the zero direction and no thermal; otherwise it returns a
    thermal of the system, its horizontal distance from the position, which
    no thermal of the system undercuts, and the normalized direction from the
    position to its centre. *)
Theorem findNearestThermal_nearest
    (position : Vector3.t) (thermalSystem : ThermalSystemState) :
  let pos2D := Vector2.mk (Vector3.x position) (Vector3.z position) in
  let found := findNearestThermal position thermalSystem in
  (thermals thermalSystem = [] ->
   found = mkNearestThermal None (Vector2.mk 0 0) None) /\
  (thermals thermalSystem <> [] ->
   exists t,
     thermal found = Some t /\
     In t (thermals thermalSystem) /\
     distance found = Some (Vector2.distanceTo pos2D (center t)) /\
     Forall (fun s => Vector2.distanceTo pos2D (center t)
                      <= Vector2.distanceTo pos2D (center s))
            (thermals thermalSystem) /\
     direction found = Vector2.normalize (Vector2.sub (center t) pos2D)).
Proof.
  intros pos2D found. unfold found, findNearestThermal. fold pos2D.
  destruct (thermals thermalSystem) as [| t0 ts] eqn:Ets.
  - split; [reflexivity | intros H; contradiction].
  - split; [discriminate |]. intros _.
    assert (Estart : scanNearest pos2D (t0 :: ts) (None, None)
                     = scanNearest pos2D ts
                         (Some (Vector2.distanceTo pos2D (center t0)), Some t0))
      by reflexivity.
    destruct (scanNearest_from_some pos2D ts
                (Vector2.distanceTo pos2D (center t0)) t0)
      as [d' [t' [E [Hle [Hall Hwho]]]]].
    rewrite Estart, E. cbn [fst snd thermal distance direction].
    assert (Hd : d' = Vector2.distanceTo pos2D (center t')).
    { destruct Hwho as [[-> ->] | [_ Hd]]; [reflexivity | exact Hd]. }
    exists t'. split; [reflexivity |]. split.
    { destruct Hwho as [[-> _] | [Hin _]]; [left; reflexivity | right; exact Hin]. }
    split; [rewrite Hd; reflexivity |]. split; [| reflexivity].
    rewrite <- Hd. constructor; [exact Hle | exact Hall].
Qed.

Lemma findNearestThermal_nearest_witness :
  exists t,
    thermal (findNearestThermal (Vector3.mk 0 500 0) nearEdge) = Some t /\
    In t (thermals nearEdge).
Proof.
  destruct (proj2 (findNearestThermal_nearest (Vector3.mk 0 500 0) nearEdge))
    as [t [Ht [Hin _]]].
  - discriminate.
  - exists t. split; assumption.
Defined.

(** ** The clock of the thermal system *)

(** X20: an update advances the clock of the thermal system by its timestep
    and leaves the wind as it is; along a run of updates the wind never
    changes and the clock of the last state is the starting clock plus the
    sum of the timesteps. *)
Theorem updateRun_clock (random : nat -> R) (toString36 : R -> string)
    (dts : list R) : forall state n,
  Forall (fun s => wind s = wind state) (updateRun random toString36 state dts n) /\
  time (last (updateRun random toString36 state dts n) state)
  = time state + fold_right Rplus 0 dts.
Proof.
  induction dts as [| dt dts IH]; intros state n.
  - simpl. split; [constructor | ring].
  - rewrite updateRun_cons.
    set (state' := fst (updateThermalSystem random toString36 state dt n)).
    set (n' := snd (updateThermalSystem random toString36 state dt n)).
    assert (Hstep : wind state' = wind state /\ time state' = time state + dt).
    { unfold state', updateThermalSystem, bind, ret.
      destruct (spawn random toString36 _ _ n). split; reflexivity. }
    destruct Hstep as [Hw Ht]. destruct (IH state' n') as [Hwinds Hclock].
    split.
    + constructor; [exact Hw |].
      eapply Forall_impl; [| exact Hwinds]. simpl. intros s Hs. congruence.
    + assert (Elast : last (state' :: updateRun random toString36 state' dts n') state
                      = last (updateRun random toString36 state' dts n') state').
      { destruct (updateRun random toString36 state' dts n') as [| s rest];
          [reflexivity |].
        clear. revert s. induction rest as [| s' rest IHr]; intros s;
          [reflexivity |].
        change (last (state' :: s :: s' :: rest) state)
          with (last (s :: s' :: rest) state).
        change (last (s :: s' :: rest) state') with (last (s' :: rest) state').
        change (last (s :: s' :: rest) state) with (last (s' :: rest) state).
        specialize (IHr s').
        change (last (state' :: s' :: rest) state) with (last (s' :: rest) state)
          in IHr.
        exact IHr. }
      rewrite Elast, Hclock, Ht. simpl. ring.
Qed.

(** * The game loop *)

Section GameLoopProperties.

Variable random : nat -> R.
Variable toString36 : R -> string.

(** What one frame leaves in the references. *)
Lemma frame_refs (refs : GameRefs) (controls : ControlInput) (delta : R) (n : nat) :
  let windField :=
    getWindFieldAt (position (gliderStateRef refs)) (thermalSystemRef refs) in
  let refs' := fst (fst (frame random toString36 refs controls delta n)) in
  let due := lastThermalUpdateRef refs + delta in
  gliderStateRef refs' = updatePhysics (gliderStateRef refs) controls windField delta /\
  (due > 0.5 ->
   thermalSystemRef refs'
   = fst (updateThermalSystem random toString36 (thermalSystemRef refs) due n) /\
   lastThermalUpdateRef refs' = 0) /\
  (~ due > 0.5 ->
   thermalSystemRef refs' = thermalSystemRef refs /\
   lastThermalUpdateRef refs' = due) /\
  telemetryUpdateRef refs'
  = (if Rgt_dec (telemetryUpdateRef refs + delta) 0.1
     then 0 else telemetryUpdateRef refs + delta) /\
  snd (fst (frame random toString36 refs controls delta n))
  = (if Rgt_dec (telemetryUpdateRef refs + delta) 0.1
     then Some (getTelemetry
                  (updatePhysics (gliderStateRef refs) controls windField delta)
                  windField)
     else None).
Proof.
  intros windField refs' due. unfold refs', frame. fold windField. fold due.
  unfold bind, ret.
  destruct (Rgt_dec due 0.5) as [Hdue | Hdue].
  - destruct (updateThermalSystem random toString36 (thermalSystemRef refs) due n)
      as [ts n'].
    cbn [fst snd gliderStateRef thermalSystemRef lastThermalUpdateRef
             telemetryUpdateRef].
    destruct (Rgt_dec (telemetryUpdateRef refs + delta) 0.1);
      cbn [fst snd]; repeat split; try reflexivity; intros; contradiction.
  - cbn [fst snd gliderStateRef thermalSystemRef lastThermalUpdateRef
             telemetryUpdateRef].
    destruct (Rgt_dec (telemetryUpdateRef refs + delta) 0.1);
      cbn [fst snd]; repeat split; try reflexivity; intros; contradiction.
Qed.

(** X21: one frame of the game loop steps the glider once under the wind
    sampled at its old position, never leaves it below 5 m, and keeps both
    timers at or below their thresholds (0.5 s for the thermals, 0.1 s for
    the telemetry); the thermal system is updated by the whole time
    accumulated since its last update, so its clock plus the pending time
    always advances by exactly the frame time; and telemetry is handed out
    exactly when the telemetry timer passes 0.1 s, computed from the new
    state and the wind sampled before the step. *)
Theorem frame_invariants (refs : GameRefs) (controls : ControlInput) (delta : R)
    (n : nat) :
  let windField :=
    getWindFieldAt (position (gliderStateRef refs)) (thermalSystemRef refs) in
  let result := fst (frame random toString36 refs controls delta n) in
  let refs' := fst result in
  gliderStateRef refs' = updatePhysics (gliderStateRef refs) controls windField delta /\
  5 <= Vector3.y (position (gliderStateRef refs')) /\
  lastThermalUpdateRef refs' <= 0.5 /\
  telemetryUpdateRef refs' <= 0.1 /\
  time (thermalSystemRef refs') + lastThermalUpdateRef refs'
  = time (thermalSystemRef refs) + lastThermalUpdateRef refs + delta /\
  wind (thermalSystemRef refs') = wind (thermalSystemRef refs) /\
  (telemetryUpdateRef refs + delta > 0.1 ->
   snd result = Some (getTelemetry (gliderStateRef refs') windField)) /\
  (~ telemetryUpdateRef refs + delta > 0.1 -> snd result = None).
Proof.
  intros windField result refs'.
  destruct (frame_refs refs controls delta n) as [Hg [Hdue [Hnot [Htel Hout]]]].
  fold windField in Hg, Hout. fold result in Hg, Hdue, Hnot, Htel, Hout.
  fold refs' in Hg, Hdue, Hnot, Htel.
  split; [exact Hg |]. split.
  { rewrite Hg. rewrite updatePhysics_stages. cbn [position].
    apply groundCollision_floor. }
  assert (Hthermal :
    lastThermalUpdateRef refs' <= 0.5 /\
    time (thermalSystemRef refs') + lastThermalUpdateRef refs'
    = time (thermalSystemRef refs) + lastThermalUpdateRef refs + delta /\
    wind (thermalSystemRef refs') = wind (thermalSystemRef refs)).
  { destruct (Rgt_dec (lastThermalUpdateRef refs + delta) 0.5) as [H | H].
    - destruct (Hdue H) as [Ets El]. rewrite Ets, El.
      unfold updateThermalSystem, bind, ret.
      destruct (spawn random toString36 _ _ n). cbn [fst time wind].
      repeat split; try lra; reflexivity.
    - destruct (Hnot H) as [Ets El]. rewrite Ets, El.
      repeat split; try lra; reflexivity. }
  destruct Hthermal as [H1 [H2 H3]].
  split; [exact H1 |]. split.
  { rewrite Htel. destruct (Rgt_dec (telemetryUpdateRef refs + delta) 0.1); lra. }
  split; [exact H2 |]. split; [exact H3 |].
  rewrite Hout, Hg.
  destruct (Rgt_dec (telemetryUpdateRef refs + delta) 0.1);
    split; intros; try reflexivity; contradiction.
Qed.

Lemma frames_cons (refs : GameRefs) (controls : ControlInput) (delta : R)
    (inputs : list (ControlInput * R)) (n : nat) :
  frames random toString36 refs ((controls, delta) :: inputs) n
  = fst (fst (frame random toString36 refs controls delta n))
    :: frames random toString36
         (fst (fst (frame random toString36 refs controls delta n))) inputs
         (snd (frame random toString36 refs controls delta n)).
Proof.
  simpl. destruct (frame random toString36 refs controls delta n). reflexivity.
Qed.

(** What every frame keeps: an orientation of norm 1 and a full thermal
    population. *)
Lemma frame_keeps (refs : GameRefs) (controls : ControlInput) (delta : R) (n : nat) :
  Quaternion.length (quaternion (gliderStateRef refs)) = 1 ->
  List.length (thermals (thermalSystemRef refs)) = THERMAL_COUNT ->
  let refs' := fst (fst (frame random toString36 refs controls delta n)) in
  Quaternion.length (quaternion (gliderStateRef refs')) = 1 /\
  List.length (thermals (thermalSystemRef refs')) = THERMAL_COUNT.
Proof.
  intros Hq Hn refs'.
  destruct (frame_refs refs controls delta n) as [Hg [Hdue [Hnot _]]].
  fold refs' in Hg, Hdue, Hnot. split.
  - rewrite Hg. apply updatePhysics_unit. exact Hq.
  - destruct (Rgt_dec (lastThermalUpdateRef refs + delta) 0.5) as [H | H].
    + destruct (Hdue H) as [-> _]. rewrite updateThermalSystem_length.
      pose proof (survivors_length_le
                    (Vector3.x (wind (thermalSystemRef refs)) * THERMAL_DRIFT_FACTOR
                     * (lastThermalUpdateRef refs + delta))
                    (Vector3.z (wind (thermalSystemRef refs)) * THERMAL_DRIFT_FACTOR
                     * (lastThermalUpdateRef refs + delta))
                    (lastThermalUpdateRef refs + delta)
                    (thermals (thermalSystemRef refs))).
      lia.
    + destruct (Hnot H) as [-> _]. exact Hn.
Qed.

Lemma frames_keep (inputs : list (ControlInput * R)) : forall refs n,
  Quaternion.length (quaternion (gliderStateRef refs)) = 1 ->
  List.length (thermals (thermalSystemRef refs)) = THERMAL_COUNT ->
  Forall (fun r =>
            Quaternion.length (quaternion (gliderStateRef r)) = 1 /\
            List.length (thermals (thermalSystemRef r)) = THERMAL_COUNT /\
            5 <= Vector3.y (position (gliderStateRef r)) /\
            lastThermalUpdateRef r <= 0.5 /\
            telemetryUpdateRef r <= 0.1)
         (frames random toString36 refs inputs n).
Proof.
  induction inputs as [| [controls delta] inputs IH]; intros refs n Hq Hn.
  - constructor.
  - rewrite frames_cons.
    destruct (frame_keeps refs controls delta n Hq Hn) as [Hq' Hn'].
    destruct (frame_refs refs controls delta n) as [Hg [Hdue [Hnot [Htel _]]]].
    constructor.
    + split; [exact Hq' |]. split; [exact Hn' |]. split; [| split].
      * rewrite Hg, updatePhysics_stages. cbn [position].
        apply groundCollision_floor.
      * destruct (Rgt_dec (lastThermalUpdateRef refs + delta) 0.5) as [H | H].
        -- destruct (Hdue H) as [_ ->]. lra.
        -- destruct (Hnot H) as [_ ->]. lra.
      * rewrite Htel.
        destruct (Rgt_dec (telemetryUpdateRef refs + delta) 0.1); lra.
    + apply IH; assumption.
Qed.

(** X22: through a whole session, from the start (or a reset) on and for any
    controls and frame times, after every frame the orientation has norm 1,
    there are exactly [THERMAL_COUNT] thermals, the glider is at 5 m or
    higher, and the two timers are at or below 0.5 s and 0.1 s. *)
Theorem session_invariants (inputs : list (ControlInput * R)) (n : nat) :
  let start := startOfSession random toString36 n in
  Forall (fun r =>
            Quaternion.length (quaternion (gliderStateRef r)) = 1 /\
            List.length (thermals (thermalSystemRef r)) = THERMAL_COUNT /\
            5 <= Vector3.y (position (gliderStateRef r)) /\
            lastThermalUpdateRef r <= 0.5 /\
            telemetryUpdateRef r <= 0.1)
         (frames random toString36 (fst start) inputs (snd start)).
Proof.
  intros start. apply frames_keep.
  - unfold start, startOfSession, bind, ret.
    destruct (createThermalSystem random toString36 n).
    cbn [fst gliderStateRef]. apply createInitialState_unit.
  - unfold start, startOfSession, bind, ret.
    pose proof (pushThermals_length random toString36 THERMAL_COUNT [] n) as Hlen.
    unfold createThermalSystem, bind, ret.
    destruct (pushThermals random toString36 THERMAL_COUNT [] n).
    cbn [fst thermalSystemRef thermals] in *. exact Hlen.
Qed.

End GameLoopProperties.

(** * Controls and instruments *)

(** ** Keyboard *)

Lemma has_add (keys : list string) (key k : string) :
  Keys.has (Keys.add keys key) k = (String.eqb k key || Keys.has keys k)%bool.
Proof.
  unfold Keys.add.
  destruct (Keys.has keys key) eqn:Hin.
  - destruct (String.eqb_spec k key) as [-> | Hne]; [| reflexivity].
    rewrite Hin. reflexivity.
  - unfold Keys.has. rewrite existsb_app. simpl.
    rewrite orb_false_r. apply orb_comm.
Qed.

Lemma has_delete (keys : list string) (key k : string) :
  Keys.has (Keys.delete keys key) k = (negb (String.eqb k key) && Keys.has keys k)%bool.
Proof.
  unfold Keys.has, Keys.delete.
  induction keys as [| h keys IH]; simpl.
  - rewrite andb_false_r. reflexivity.
  - destruct (String.eqb key h) eqn:E1; simpl; rewrite IH;
      destruct (String.eqb k h) eqn:E2; destruct (String.eqb k key) eqn:E3;
      simpl; try reflexivity.
    + apply String.eqb_eq in E1. apply String.eqb_eq in E2. subst.
      rewrite String.eqb_refl in E3. discriminate.
    + apply String.eqb_eq in E2. apply String.eqb_eq in E3. subst.
      rewrite String.eqb_refl in E1. discriminate.
Qed.

(** The controls depend on the held keys through [has] only. *)
Lemma updateFromKeyboard_ext (a b : list string) :
  (forall k, Keys.has a k = Keys.has b k) ->
  updateFromKeyboard a = updateFromKeyboard b.
Proof.
  intros H. unfold updateFromKeyboard. rewrite !H. reflexivity.
Qed.

(** X23: the keyboard gives each of pitch, roll and yaw one of the values
    -1, 0 and 1; with none of the sixteen handled keys held all three are 0;
    and when opposite keys are held together the key that is tested last
    wins: down over up (pitch -1), right over left (roll 1), E over Q
    (yaw 1). *)
Theorem updateFromKeyboard_values (keys : list string) :
  let c := updateFromKeyboard keys in
  (pitch c = -1 \/ pitch c = 0 \/ pitch c = 1) /\
  (roll c = -1 \/ roll c = 0 \/ roll c = 1) /\
  (yaw c = -1 \/ yaw c = 0 \/ yaw c = 1) /\
  (Forall (fun k => Keys.has keys k = false) handledKeys -> c = centred) /\
  (Keys.has keys "ArrowDown" = true \/ Keys.has keys "s" = true
   \/ Keys.has keys "S" = true -> pitch c = -1) /\
  (Keys.has keys "ArrowRight" = true \/ Keys.has keys "d" = true
   \/ Keys.has keys "D" = true -> roll c = 1) /\
  (Keys.has keys "e" = true \/ Keys.has keys "E" = true -> yaw c = 1).
Proof.
  intros c. unfold c, updateFromKeyboard.
  split; [| split; [| split; [| split; [| split; [| split]]]]].
  - cbn [pitch]. repeat match goal with
                        | |- context [if ?b then _ else _] => destruct b
                        end; auto.
  - cbn [roll]. repeat match goal with
                       | |- context [if ?b then _ else _] => destruct b
                       end; auto.
  - cbn [yaw]. repeat match goal with
                      | |- context [if ?b then _ else _] => destruct b
                      end; auto.
  - intros H. unfold handledKeys in H.
    repeat match goal with
           | H : Forall _ (_ :: _) |- _ =>
               let H1 := fresh in let H2 := fresh in
               inversion H as [| ? ? H1 H2]; subst; clear H; rewrite H1
           end.
    reflexivity.
  - cbn [pitch]. intros [H | [H | H]]; rewrite H; rewrite ?orb_true_r; reflexivity.
  - cbn [roll]. intros [H | [H | H]]; rewrite H; rewrite ?orb_true_r; reflexivity.
  - cbn [yaw]. intros [H | H]; rewrite H; rewrite ?orb_true_r; reflexivity.
Qed.

(** X24: a key that is not handled changes nothing and sends no controls;
    pressing a handled key that was not held and releasing it again leaves
    the same keys held and sends the controls of before the press. *)
Theorem keyboard_press_release (keys : list string) (key : string) :
  (existsb (String.eqb key) handledKeys = false ->
   handleKeyDown keys key = (keys, None)) /\
  (existsb (String.eqb key) handledKeys = true ->
   Keys.has keys key = false ->
   let pressed := fst (handleKeyDown keys key) in
   Keys.has pressed key = true /\
   (forall k, Keys.has (fst (handleKeyUp pressed key)) k = Keys.has keys k) /\
   snd (handleKeyUp pressed key) = Some (updateFromKeyboard keys)).
Proof.
  split.
  - intros H. unfold handleKeyDown. rewrite H. reflexivity.
  - intros H Hnot pressed. unfold pressed, handleKeyDown. rewrite H.
    cbn [fst]. unfold handleKeyUp. cbn [fst snd].
    assert (Hsame : forall k,
              Keys.has (Keys.delete (Keys.add keys key) key) k = Keys.has keys k).
    { intros k. rewrite has_delete, has_add.
      destruct (String.eqb_spec k key) as [-> | Hne]; simpl;
        [rewrite Hnot |]; reflexivity. }
    split; [| split].
    + rewrite has_add, String.eqb_refl. reflexivity.
    + exact Hsame.
    + f_equal. apply updateFromKeyboard_ext. exact Hsame.
Qed.

Lemma keyboard_press_release_witness :
  snd (handleKeyUp (fst (handleKeyDown ["w"%string] "ArrowLeft")) "ArrowLeft")
  = Some (updateFromKeyboard ["w"%string]).
Proof.
  apply (proj2 (keyboard_press_release ["w"%string] "ArrowLeft")); reflexivity.
Defined.

(** ** Instruments *)

Lemma Int_part_interval (r : R) (a b : Z) :
  IZR a <= r < IZR b -> (a <= Int_part r < b)%Z.
Proof.
  intros [Ha Hb]. destruct (base_Int_part r) as [H1 H2].
  split.
  - assert (IZR a < IZR (Int_part r + 1)) by (rewrite plus_IZR; lra).
    apply lt_IZR in H. lia.
  - apply lt_IZR. lra.
Qed.

Lemma label_of_index (n : Z) :
  (0 <= n <= 8)%Z ->
  (0 <= Z.rem n 8 < 8)%Z /\
  exists d, nth_error directions (Z.to_nat (Z.rem n 8)) = Some d /\ In d directions.
Proof.
  intros Hn.
  assert (Hcases : (n = 0 \/ n = 1 \/ n = 2 \/ n = 3 \/ n = 4 \/ n = 5 \/ n = 6
                    \/ n = 7 \/ n = 8)%Z) by lia.
  repeat destruct Hcases as [-> | Hcases]; try subst n;
    (split; [cbn; lia | cbn; eexists; split; [reflexivity | simpl; tauto]]).
Qed.

(** The heading of the telemetry lies in [0, 360). *)
Lemma getTelemetry_heading_range (state : GliderState) (windField : WindField) :
  0 <= heading (getTelemetry state windField) < 360.
Proof.
  cbn [getTelemetry heading]. pi_bounds.
  assert (Hk : 0 < 180 / Math.PI) by (apply Rdiv_lt_0_compat; lra).
  assert (Hpk : Math.PI * (180 / Math.PI) = 180) by (field; lra).
  apply rem_range; [| lra].
  pose proof (atan2_range (Vector3.x (getForwardVector (quaternion state)))
                          (Vector3.z (getForwardVector (quaternion state)))) as Hr.
  set (h := Math.atan2 _ _) in *. nra.
Qed.

(** X25: for a heading in [0, 360) the compass index is one of 0 to 7 and the
    compass shows one of the eight directions, so it does for every heading
    that [getTelemetry] reports; a heading within 22.5 degrees of 45 * k
    (k from 0 to 8) has the index k mod 8, so headings from 337.5 degrees up
    show N again; and a heading from -337.5 up to but excluding -22.5 has a
    negative index and no direction to show. *)
Theorem headingLabel_defined :
  (forall heading, 0 <= heading < 360 ->
     (0 <= dirIndex heading < 8)%Z /\
     exists d, headingLabel heading = Some d /\ In d directions) /\
  (forall state windField,
     exists d, headingLabel (heading (getTelemetry state windField)) = Some d) /\
  (forall heading k, (0 <= k <= 8)%Z ->
     45 * IZR k - 22.5 <= heading < 45 * IZR k + 22.5 ->
     dirIndex heading = Z.rem k 8) /\
  (forall heading, -337.5 <= heading < -22.5 -> headingLabel heading = None).
Proof.
  assert (Hround : forall heading a b,
            45 * IZR a - 22.5 <= heading < 45 * IZR b - 22.5 ->
            (a <= Math.round (heading / 45) < b)%Z).
  { intros heading a b H. unfold Math.round. apply Int_part_interval. lra. }
  assert (Hdef : forall heading, 0 <= heading < 360 ->
     (0 <= dirIndex heading < 8)%Z /\
     exists d, headingLabel heading = Some d /\ In d directions).
  { intros heading Hh.
    assert (Hn : (0 <= Math.round (heading / 45) < 9)%Z)
      by (apply Hround; simpl; lra).
    destruct (label_of_index (Math.round (heading / 45))) as [Hi [d [Hd Hin]]];
      [lia |].
    split; [exact Hi |]. exists d. split; [| exact Hin].
    unfold headingLabel, dirIndex.
    destruct (Z.ltb_spec (Z.rem (Math.round (heading / 45)) 8) 0); [lia | exact Hd]. }
  split; [exact Hdef |]. split; [| split].
  - intros state windField.
    destruct (Hdef _ (getTelemetry_heading_range state windField)) as [_ [d [Hd _]]].
    exists d. exact Hd.
  - intros heading k Hk Hh. unfold dirIndex.
    assert (Hn : (k <= Math.round (heading / 45) < k + 1)%Z).
    { apply Hround. rewrite plus_IZR. lra. }
    f_equal. lia.
  - intros heading Hh.
    assert (Hn : (-7 <= Math.round (heading / 45) < 0)%Z)
      by (apply Hround; simpl; lra).
    unfold headingLabel, dirIndex.
    assert (Hneg : (Z.rem (Math.round (heading / 45)) 8 < 0)%Z).
    { assert (Hcases : (Math.round (heading / 45) = -7
                        \/ Math.round (heading / 45) = -6
                        \/ Math.round (heading / 45) = -5
                        \/ Math.round (heading / 45) = -4
                        \/ Math.round (heading / 45) = -3
                        \/ Math.round (heading / 45) = -2
                        \/ Math.round (heading / 45) = -1)%Z) by lia.
      repeat destruct Hcases as [-> | Hcases]; try rewrite Hcases; cbn; lia. }
    destruct (Z.ltb_spec (Z.rem (Math.round (heading / 45)) 8) 0); [reflexivity | lia].
Qed.

(** X26: the bar of the variometer is never longer than half the scale: its
    height is 5% per m/s of vertical speed up to 10 m/s either way and stays
    at 50% beyond. *)
Theorem variometerHeight_saturates (verticalSpeed : R) :
  0 <= variometerPercentage verticalSpeed <= 100 /\
  0 <= variometerHeight verticalSpeed <= 50 /\
  (Rabs verticalSpeed <= 10 ->
   variometerHeight verticalSpeed = 5 * Rabs verticalSpeed) /\
  (10 <= Rabs verticalSpeed -> variometerHeight verticalSpeed = 50).
Proof.
  unfold variometerHeight, variometerPercentage, Math.abs.
  split_minmax; unfold Rabs;
    repeat match goal with
           | |- context [Rcase_abs ?a] => destruct (Rcase_abs a)
           end; repeat split; intros; lra.
Qed.

(** * Terrain *)

Lemma noise2D_range (x z seed : R) : -1 <= noise2D x z seed < 1.
Proof.
  unfold noise2D, Math.floor.
  set (hash := Math.sin _ * 43758.5453).
  destruct (base_Int_part hash). lra.
Qed.

Lemma smoothstep_range (f : R) : 0 <= f <= 1 -> 0 <= f * f * (3 - 2 * f) <= 1.
Proof.
  intros Hf. split; [nra |].
  assert (0 <= (1 - f) * (1 - f) * (1 + 2 * f)).
  { apply Rmult_le_pos; [nra | lra]. }
  nra.
Qed.

Lemma lerp_range (a b s : R) :
  -1 <= a <= 1 -> -1 <= b <= 1 -> 0 <= s <= 1 -> -1 <= a * (1 - s) + b * s <= 1.
Proof. intros Ha Hb Hs. split; nra. Qed.

Lemma smoothNoise_range (x z seed : R) : -1 <= smoothNoise x z seed <= 1.
Proof.
  unfold smoothNoise, Math.floor.
  assert (Hfrac : forall r, 0 <= r - IZR (Int_part r) <= 1)
    by (intros r; destruct (base_Int_part r); lra).
  pose proof (smoothstep_range _ (Hfrac x)) as Hsx.
  pose proof (smoothstep_range _ (Hfrac z)) as Hsz.
  assert (Hn : forall a b, -1 <= noise2D a b seed <= 1)
    by (intros a b; destruct (noise2D_range a b seed); lra).
  apply lerp_range; [apply lerp_range | apply lerp_range | ]; auto.
Qed.

(** The loop of [fbm] keeps the sum within the sum of the amplitudes. *)
Lemma fbmLoop_invariant (x z : R) (todo : nat) :
  forall i value amplitude frequency maxValue,
    0 < amplitude -> - maxValue <= value <= maxValue ->
    let r := fbmLoop x z todo i value amplitude frequency maxValue in
    - snd r <= fst r <= snd r /\
    maxValue <= snd r /\
    ((0 < todo)%nat -> maxValue < snd r).
Proof.
  induction todo as [| todo IH]; intros i value amplitude frequency maxValue Ha Hv r.
  - unfold r. simpl. repeat split; try lra. intros H. lia.
  - unfold r. cbn [fbmLoop].
    pose proof (smoothNoise_range (x * frequency) (z * frequency) (i * 100)) as Hs.
    set (sn := smoothNoise _ _ _) in *.
    assert (Ha' : 0 < amplitude * 0.5) by lra.
    assert (Hv' : - (maxValue + amplitude) <= value + sn * amplitude
                  <= maxValue + amplitude) by nra.
    destruct (IH (i + 1) (value + sn * amplitude) (amplitude * 0.5) (frequency * 2)
                 (maxValue + amplitude) Ha' Hv') as [H1 [H2 _]].
    repeat split; lra.
Qed.

Lemma fbm_range (x z : R) (octaves : nat) :
  (0 < octaves)%nat -> -1 <= fbm x z octaves <= 1.
Proof.
  intros Hoct. unfold fbm.
  assert (H1 : 0 < 1) by lra.
  assert (H0 : - 0 <= 0 <= 0) by lra.
  destruct (fbmLoop_invariant x z octaves 0 0 1 1 0 H1 H0) as [Hv [_ Hm]].
  specialize (Hm Hoct).
  destruct (fbmLoop x z octaves 0 0 1 1 0) as [value maxValue].
  cbn [fst snd] in *.
  assert (Hinv : 0 < / maxValue) by (apply Rinv_0_lt_compat; lra).
  assert (E : maxValue * / maxValue = 1) by (apply Rinv_r; lra).
  unfold Rdiv. split; nra.
Qed.

(** X27: the terrain is nowhere below 0 m and nowhere above 260 m: each
    octave sum of [fbm] divided by the sum of its amplitudes lies in [-1, 1],
    so the height is the clamp at 0 of a value between -220 and 260. *)
Theorem getTerrainHeight_range (x z : R) :
  0 <= getTerrainHeight x z <= 260 /\
  (forall octaves, (0 < octaves)%nat -> -1 <= fbm x z octaves <= 1) /\
  -1 <= smoothNoise x z 0 <= 1 /\
  -1 <= noise2D x z 0 < 1.
Proof.
  split; [| split; [| split]].
  - unfold getTerrainHeight.
    pose proof (fbm_range (x * 0.002) (z * 0.002) 5) as H5.
    pose proof (fbm_range (x * 0.0005) (z * 0.0005) 3) as H3.
    assert (-1 <= fbm (x * 0.002) (z * 0.002) 5 <= 1) by (apply H5; lia).
    assert (-1 <= fbm (x * 0.0005) (z * 0.0005) 3 <= 1) by (apply H3; lia).
    unfold Math.max, Rmax. destruct (Rle_dec _ _); lra.
  - intros octaves. apply fbm_range.
  - apply smoothNoise_range.
  - apply noise2D_range.
Qed.

(** * The roll rate through a session *)

Lemma roll_rate_step state controls windField deltaTime :
  Rabs (roll controls) <= 1 ->
  Rabs (Vector3.z (angularVelocity state)) <= MAX_ROLL_RATE ->
  0 <= deltaTime ->
  Rabs (Vector3.z (angularVelocity (updatePhysics state controls windField deltaTime)))
  <= MAX_ROLL_RATE.
Proof.
  intros Hroll Hrate Hdt.
  rewrite updatePhysics_stages. cbn [angularVelocity].
  rewrite (proj2 (corrections_keep_yaw_roll _ _ _ _)).
  unfold respondedAngularVel.
  rewrite (proj2 (applyWeathervane_keeps_pitch_roll _ _ _ _)).
  destruct (min_timestep_range deltaTime Hdt) as [H0 H1].
  set (dt := Math.min deltaTime 0.05) in *.
  assert (Hmax : 0 < MAX_ROLL_RATE) by (unfold MAX_ROLL_RATE; pi_bounds; lra).
  unfold applyDamping, applyControlInputs, ROLL_DAMP. simpl.
  replace 5.0 with 5 by lra.
  set (z := Vector3.z (angularVelocity state)) in *.
  set (r := roll controls) in *.
  apply Rabs_le. apply Rabs_le_bounds in Hroll. apply Rabs_le_bounds in Hrate.
  assert (Ht : - MAX_ROLL_RATE <= r * MAX_ROLL_RATE <= MAX_ROLL_RATE) by nra.
  set (t := r * MAX_ROLL_RATE) in *.
  assert (Hc : - MAX_ROLL_RATE <= z + (t - z) * 5 * dt <= MAX_ROLL_RATE) by nra.
  set (c := z + (t - z) * 5 * dt) in *.
  assert (Hf : 0 <= 1 - 0.15 * dt * 10 <= 1) by lra.
  set (f := 1 - 0.15 * dt * 10) in *.
  split; nra.
Qed.

Section RollRate.

Variable random : nat -> R.
Variable toString36 : R -> string.

Lemma frames_roll_rate (inputs : list (ControlInput * R)) : forall refs n,
  Forall (fun i => Rabs (roll (fst i)) <= 1 /\ 0 <= snd i) inputs ->
  Rabs (Vector3.z (angularVelocity (gliderStateRef refs))) <= MAX_ROLL_RATE ->
  Forall (fun r => Rabs (Vector3.z (angularVelocity (gliderStateRef r)))
                   <= MAX_ROLL_RATE)
         (frames random toString36 refs inputs n).
Proof.
  induction inputs as [| [controls delta] inputs IH]; intros refs n Hin Hrate.
  - constructor.
  - rewrite frames_cons. inversion Hin as [| ? ? [Hroll Hdelta] Hrest]; subst.
    cbn [fst snd] in Hroll, Hdelta.
    assert (Hnext :
      Rabs (Vector3.z (angularVelocity
                         (gliderStateRef
                            (fst (fst (frame random toString36 refs controls delta n))))))
      <= MAX_ROLL_RATE).
    { rewrite (proj1 (frame_refs random toString36 refs controls delta n)).
      apply roll_rate_step; assumption. }
    constructor; [exact Hnext |]. apply IH; assumption.
Qed.

(** X28: through a whole session, from the start on, as long as every roll
    input lies in [-1, 1] (as every keyboard input does) and no frame time
    is negative, the roll rate of the glider never exceeds [MAX_ROLL_RATE]
    (70 degrees per second) in magnitude. *)
Theorem session_roll_rate (inputs : list (ControlInput * R)) (n : nat) :
  Forall (fun i => Rabs (roll (fst i)) <= 1 /\ 0 <= snd i) inputs ->
  let start := startOfSession random toString36 n in
  Forall (fun r => Rabs (Vector3.z (angularVelocity (gliderStateRef r)))
                   <= MAX_ROLL_RATE)
         (frames random toString36 (fst start) inputs (snd start)).
Proof.
  intros Hin start. apply frames_roll_rate; [exact Hin |].
  unfold start, startOfSession, bind, ret.
  destruct (createThermalSystem random toString36 n).
  cbn [fst gliderStateRef createInitialState angularVelocity Vector3.zero Vector3.z].
  rewrite Rabs_R0. unfold MAX_ROLL_RATE. pi_bounds. lra.
Qed.

End RollRate.

Lemma keyboard_roll_in_range (keys : list string) :
  Rabs (roll (updateFromKeyboard keys)) <= 1.
Proof.
  unfold updateFromKeyboard. cbn [roll].
  repeat match goal with
         | |- context [if ?b then _ else _] => destruct b
         end;
    unfold Rabs; match goal with
                 | |- context [Rcase_abs ?a] => destruct (Rcase_abs a)
                 end; lra.
Qed.

Lemma session_roll_rate_witness :
  let start := startOfSession (fun _ => 0.5) (fun _ => "a"%string) 0%nat in
  Forall (fun r => Rabs (Vector3.z (angularVelocity (gliderStateRef r)))
                   <= MAX_ROLL_RATE)
         (frames (fun _ => 0.5) (fun _ => "a"%string) (fst start)
                 [(updateFromKeyboard ["d"%string], 0.016);
                  (updateFromKeyboard ["d"%string; "ArrowLeft"%string], 0.3)]
                 (snd start)).
Proof.
  apply (session_roll_rate (fun _ => 0.5) (fun _ => "a"%string)).
  apply Forall_cons; [split; [apply keyboard_roll_in_range | cbn [snd]; lra] |].
  apply Forall_cons; [split; [apply keyboard_roll_in_range | cbn [snd]; lra] |].
  apply Forall_nil.
Defined.

(** * Instances *)

Lemma updatePhysics_altitude_floor_witness :
  position (updatePhysics atRest centred stillAir 0.05)
  = integratePosition atRest (Vector3.mk 0 (-0.4905) 0) 0.05.
Proof.
  pose proof (proj2 (updatePhysics_altitude_floor atRest centred stillAir 0.05)) as H.
  cbv zeta in H. rewrite min_step, rest_integrateVelocity in H.
  apply H. unfold integratePosition. simpl. lra.
Defined.

Lemma frame_invariants_witness :
  snd (fst (frame (fun _ => 0.5) (fun _ => "a"%string)
                  (mkGameRefs atRest nearEdge 0 0) centred 0.2 0%nat))
  = Some (getTelemetry
            (gliderStateRef
               (fst (fst (frame (fun _ => 0.5) (fun _ => "a"%string)
                                (mkGameRefs atRest nearEdge 0 0) centred 0.2 0%nat))))
            (getWindFieldAt (position atRest) nearEdge)).
Proof.
  apply (frame_invariants (fun _ => 0.5) (fun _ => "a"%string)
                          (mkGameRefs atRest nearEdge 0 0) centred 0.2 0%nat).
  cbn [telemetryUpdateRef]. lra.
Defined.

Lemma updateFromKeyboard_values_witness :
  pitch (updateFromKeyboard ["w"%string; "ArrowDown"%string]) = -1.
Proof.
  apply (updateFromKeyboard_values ["w"%string; "ArrowDown"%string]).
  left. reflexivity.
Defined.

Lemma headingLabel_defined_witness :
  exists d, headingLabel 100 = Some d /\ In d directions.
Proof.
  apply (proj1 headingLabel_defined 100). lra.
Defined.

Lemma variometerHeight_saturates_witness :
  variometerHeight 3 = 5 * Rabs 3.
Proof.
  apply (variometerHeight_saturates 3). rewrite Rabs_pos_eq; lra.
Defined.

Lemma getTerrainHeight_range_witness :
  -1 <= fbm 1200 (-350) 4 <= 1.
Proof.
  apply (getTerrainHeight_range 1200 (-350)). lia.
Defined.
